(** * Bulk discount pipeline: a shallow embedding of [app/routes/app.bulk-discount.jsx]

    The route's [action] handler dispatches on the submitted action:
    [create_discounts], [process_pending], [retry_failed] and two deletions.
    This development embeds the five of them, the request builder that
    replicates the master discount and the form's reading of the code list,
    and states the properties of the pipeline over that embedding.

    Conventions.
    - The Prisma store is a record of two tables kept as lists in insertion
      order; [findMany] without [orderBy] reads a table in that order.
    - Row ids are generated by the Prisma client; they are drawn here from a
      counter kept in the store.  Timestamps ([createdAt], [updatedAt]) are
      maintained by the database and are not part of the model.
    - [admin.graphql] is an effectful collaborator: a gateway with a state of
      its own, threaded through every call.  A call either throws (with the
      [message] of the thrown error) or yields the decoded JSON body.
    - JavaScript truthiness is written out where the source relies on it. *)

From Stdlib Require Import List String Ascii Bool Arith ZArith QArith Lia.
From Stdlib Require Import DecimalString.
Import ListNotations.

Local Open Scope string_scope.
Local Open Scope nat_scope.
Local Open Scope list_scope.

(** ** JavaScript helpers *)

(** [s || d] on strings: the empty string is falsy. *)
Definition js_or (s d : string) : string :=
  if String.eqb s "" then d else s.

(** Truthiness of a JSON number (no NaN can come out of a JSON body). *)
Definition truthy_number (q : Q) : bool := negb (Z.eqb (Qnum q) 0).

(** Truthiness of an optional boolean field. *)
Definition truthy_bool (b : option bool) : bool :=
  match b with Some true => true | _ => false end.

(** Truthiness of an optional string field. *)
Definition truthy_string (s : option string) : bool :=
  match s with Some v => negb (String.eqb v "") | None => false end.

(** [`${n}`] for a non-negative integer. *)
Definition string_of_nat (n : nat) : string :=
  NilZero.string_of_uint (Nat.to_uint n).

(** [xs.join(sep)] *)
Definition join (sep : string) (xs : list string) : string := String.concat sep xs.

(** Messages of the [TypeError]s the handler can run into (V8 wording). *)
Definition type_error_reading (prop : string) : string :=
  "Cannot read properties of undefined (reading '" ++ prop ++ "')".

(** ** The persisted data model (Prisma tables [DiscountSet] and [Discount]) *)

Definition Id := nat.

Inductive DiscountStatus := PENDING | CREATED | FAILED.

Definition status_eqb (a b : DiscountStatus) : bool :=
  match a, b with
  | PENDING, PENDING | CREATED, CREATED | FAILED, FAILED => true
  | _, _ => false
  end.

Record DiscountSet := mkDiscountSet {
  ds_id : Id;
  ds_name : string;
  ds_shop : string;
  ds_masterDiscountId : string
}.

Record Discount := mkDiscount {
  d_id : Id;
  d_shop : string;
  shopifyId : option string;
  code : string;
  masterDiscountId : string;
  discountSetId : option Id;
  status : DiscountStatus;
  errorMessage : option string
}.

Record Store := mkStore {
  discountSets : list DiscountSet;
  discounts : list Discount;
  next_id : Id
}.

(** ** The master discount as the processing query returns it *)

Record MoneyV2 := mkMoney { amount : string; currencyCode : string }.

(** [customerGets.value]: the fragments on [DiscountPercentage] and
    [DiscountAmount]; a value of another kind exposes neither field. *)
Record DiscountValue := mkValue {
  percentage : option Q;
  value_amount : option MoneyV2
}.

(** [customerGets.items]: the fragments on [AllDiscountItems],
    [DiscountProducts] and [DiscountCollections].  A connection is kept as the
    list of its [edges[].node.id]. *)
Record DiscountItems := mkItems {
  allItems : option bool;
  products : option (list string);
  collections : option (list string)
}.

Record CustomerGets := mkCustomerGets {
  cg_value : DiscountValue;
  cg_items : DiscountItems
}.

(** [context]: the fragments on [DiscountBuyerSelectionAll] and
    [DiscountCustomers]; customers are kept as the list of their ids. *)
Record DiscountContext := mkContext {
  ctx_all : option string;
  ctx_customers : option (list string)
}.

Inductive MinimumRequirement :=
| MinimumSubtotal (greaterThanOrEqualToSubtotal : MoneyV2)
| MinimumQuantity (greaterThanOrEqualToQuantity : string)
| MinimumOther.

Record DiscountCodeBasic := mkBasic {
  title : string;
  minimumRequirement : option MinimumRequirement;
  customerGets : CustomerGets;
  context : DiscountContext;
  usageLimit : option Z;
  appliesOncePerCustomer : bool;
  startsAt : string;
  endsAt : option string
}.

(** [discountNode.discount] is a union; every selection of the query sits in
    a fragment on [DiscountCodeBasic], so a discount of another type comes
    back as the empty object. *)
Inductive MasterDiscount :=
| OtherDiscount
| BasicDiscount (m : DiscountCodeBasic).

(** ** The creation request ([DiscountCodeBasicInput]) *)

Inductive JsScalar :=
| JBool (b : bool)
| JString (s : string).

Inductive ItemsInput :=
| ItemsAll (all : JsScalar)
| ItemsProducts (productsToAdd : list string)
| ItemsCollections (add : list string).

Inductive ContextInput :=
| ContextAll (all : JsScalar)
| ContextCustomers (add : list string).

Inductive ValueInput :=
| ValuePercentage (percentage : Q)
| ValueDiscountAmount (amount : string) (appliesOnEachItem : bool).

Record DiscountInput := mkInput {
  in_code : string;
  in_title : string;
  in_startsAt : string;
  in_endsAt : option string;
  in_context : ContextInput;
  in_value : ValueInput;
  in_items : ItemsInput;
  in_minimumRequirement : option MinimumRequirement;
  in_usageLimit : option Z;
  in_appliesOncePerCustomer : bool
}.

(** ** Template replication (the helpers of [process_pending]) *)

Definition buildItemSelection (masterDiscount : DiscountCodeBasic) : ItemsInput :=
  let items := cg_items (customerGets masterDiscount) in
  if truthy_bool (allItems items) then ItemsAll (JString "ALL")
  else match products items with
       | Some productIds => ItemsProducts productIds
       | None =>
         match collections items with
         | Some collectionIds => ItemsCollections collectionIds
         | None => ItemsAll (JString "ALL")
         end
       end.

Definition buildCustomerContext (masterDiscount : DiscountCodeBasic) : ContextInput :=
  let ctx := context masterDiscount in
  if truthy_string (ctx_all ctx) then ContextAll (JString "ALL")
  else match ctx_customers ctx with
       | Some cs => ContextCustomers cs
       | None => ContextAll (JString "ALL")
       end.

(** The [value] expression of [discountInput]: a truthy percentage is copied;
    otherwise [value.amount.amount] is read, which throws when the template
    exposes no amount. *)
Definition buildValue (v : DiscountValue) : string + ValueInput :=
  match percentage v with
  | Some p =>
    if truthy_number p then inr (ValuePercentage p)
    else match value_amount v with
         | Some a => inr (ValueDiscountAmount (amount a) false)
         | None => inl (type_error_reading "amount")
         end
  | None =>
    match value_amount v with
    | Some a => inr (ValueDiscountAmount (amount a) false)
    | None => inl (type_error_reading "amount")
    end
  end.

(** The object literal [discountInput], built inside the [try] of the item
    loop: [inl] is the message of the error thrown while building it. *)
Definition discountInput (masterDiscount : DiscountCodeBasic)
    (itemSelection : ItemsInput) (customerContext : ContextInput)
    (discountRecord : Discount) : string + DiscountInput :=
  match buildValue (cg_value (customerGets masterDiscount)) with
  | inl e => inl e
  | inr v =>
    inr {| in_code := code discountRecord;
           in_title := title masterDiscount;
           in_startsAt := startsAt masterDiscount;
           in_endsAt := endsAt masterDiscount;
           in_context := customerContext;
           in_value := v;
           in_items := itemSelection;
           in_minimumRequirement := minimumRequirement masterDiscount;
           in_usageLimit := usageLimit masterDiscount;
           in_appliesOncePerCustomer := appliesOncePerCustomer masterDiscount |}
  end.

(** ** The gateway ([admin.graphql]) *)

Inductive Outcome (A : Type) :=
| Throws (message : string)
| Json (body : A).
Arguments Throws {A} message.
Arguments Json {A} body.

Record GraphqlError := mkGraphqlError { ge_message : string }.

Record DiscountNode := mkDiscountNode { dn_discount : option MasterDiscount }.
Record DiscountData := mkDiscountData { discountNode : option DiscountNode }.
Record DiscountResponse := mkDiscountResponse {
  dr_errors : option (list GraphqlError);
  dr_data : option DiscountData
}.

Record UserError := mkUserError {
  ue_field : option (list string);
  ue_message : string
}.
Record CodeDiscountNode := mkCodeDiscountNode { node_id : string }.
Record CreatePayload := mkCreatePayload {
  userErrors : option (list UserError);
  codeDiscountNode : option CodeDiscountNode
}.
Record CreateData := mkCreateData { discountCodeBasicCreate : option CreatePayload }.
Record CreateResponse := mkCreateResponse { cr_data : option CreateData }.

(** The two operations the handlers use, over a gateway state [G]. *)
Record Gateway (G : Type) := mkGateway {
  gql_getDiscount : G -> string -> Outcome DiscountResponse * G;
  gql_discountCodeBasicCreate : G -> DiscountInput -> Outcome CreateResponse * G
}.
Arguments gql_getDiscount {G} _ _ _.
Arguments gql_discountCodeBasicCreate {G} _ _ _.

(** [masterDiscountData.data?.discountNode?.discount] *)
Definition response_discount (r : DiscountResponse) : option MasterDiscount :=
  match dr_data r with
  | Some d => match discountNode d with
              | Some n => dn_discount n
              | None => None
              end
  | None => None
  end.

(** [createResult.data?.discountCodeBasicCreate] *)
Definition response_payload (r : CreateResponse) : option CreatePayload :=
  match cr_data r with
  | Some d => discountCodeBasicCreate d
  | None => None
  end.

(** [`${e.field}: ${e.message}`]: a list of strings prints comma-joined, a
    null field prints as [null]. *)
Definition render_user_error (e : UserError) : string :=
  match ue_field e with
  | Some path => join "," path
  | None => "null"
  end ++ ": " ++ ue_message e.

(** [userErrors.map(e => `${e.field}: ${e.message}`).join(', ')] *)
Definition user_errors_message (es : list UserError) : string :=
  join ", " (map render_user_error es).

(** ** Store operations *)

(** The [data] of a [db.discount.update] in the item loop. *)
Inductive UpdateData :=
| SetCreated (shopifyId : string)
| SetFailed (errorMessage : string).

Definition apply_data (data : UpdateData) (r : Discount) : Discount :=
  match data with
  | SetCreated sid =>
    mkDiscount (d_id r) (d_shop r) (Some sid) (code r) (masterDiscountId r)
               (discountSetId r) CREATED (errorMessage r)
  | SetFailed msg =>
    mkDiscount (d_id r) (d_shop r) (shopifyId r) (code r) (masterDiscountId r)
               (discountSetId r) FAILED (Some msg)
  end.

Definition has_id (id : Id) (rows : list Discount) : bool :=
  existsb (fun r => d_id r =? id) rows.

(** [db.discount.update({ where: { id }, data })]: [None] when no row has the
    id, in which case Prisma throws. *)
Definition discount_update (id : Id) (data : UpdateData) (rows : list Discount)
  : option (list Discount) :=
  if has_id id rows
  then Some (map (fun r => if d_id r =? id then apply_data data r else r) rows)
  else None.

(** Message of the error Prisma throws from [update] on a missing row. *)
Definition record_not_found : string :=
  "An operation failed because it depends on one or more records that were required but not found.".

(** Message of the error Prisma throws on the unique index [(shop, code)]. *)
Definition unique_constraint_failed : string :=
  "Unique constraint failed on the fields: (`shop`,`code`)".

(** The filter [{ discountSetId, status }] of [findMany], [count] and
    [updateMany]. *)
Definition in_set_with (discountSetId0 : Id) (st : DiscountStatus) (r : Discount) : bool :=
  match discountSetId r with
  | Some s => (s =? discountSetId0) && status_eqb (status r) st
  | None => false
  end.

Definition BATCH_SIZE : nat := 5.

(** [db.discount.findMany({ where: { discountSetId, status: 'PENDING' }, take: BATCH_SIZE })] *)
Definition findPending (discountSetId0 : Id) (rows : list Discount) : list Discount :=
  firstn BATCH_SIZE (filter (in_set_with discountSetId0 PENDING) rows).

(** [db.discount.count({ where: { discountSetId, status } })]; also the
    [_count] of the [groupBy] row of a status, 0 when the group is absent. *)
Definition count_status (discountSetId0 : Id) (st : DiscountStatus) (rows : list Discount) : nat :=
  List.length (filter (in_set_with discountSetId0 st) rows).

(** [db.discountSet.findUnique({ where: { id } })] *)
Definition findSet (discountSetId0 : Id) (db : Store) : option DiscountSet :=
  find (fun s => ds_id s =? discountSetId0) (discountSets db).

(** ** Results of the action handler *)

Inductive ActionResult :=
| ErrorResult (error : string)
| CreateResult (message : string) (discountSetId0 : Id) (totalCodes : nat)
               (needsProcessing : bool)
| ProcessResult (complete : bool) (message : string) (processed remaining : nat)
| RetryResult (message : string) (discountSetId0 : Id) (needsProcessing : bool).

(** What one invocation of the handler leaves behind: its JSON result, the
    store, the gateway, and (as a ghost record) the creation requests it
    passed to [discountCodeBasicCreate], in order. *)
Record Run (G : Type) := mkRun {
  run_result : ActionResult;
  run_db : Store;
  run_gw : G;
  run_sent : list DiscountInput
}.
Arguments mkRun {G} _ _ _ _.
Arguments run_result {G} _.
Arguments run_db {G} _.
Arguments run_gw {G} _.
Arguments run_sent {G} _.

Definition set_discounts (db : Store) (rows : list Discount) : Store :=
  mkStore (discountSets db) rows (next_id db).

Section Handlers.

Context {G : Type} (admin : Gateway G).

(** *** [process_pending]: the item loop *)

(** The decision the [try] block takes on a decoded creation result. *)
Definition result_data (createResult : CreateResponse) : UpdateData :=
  let payload := response_payload createResult in
  let userErrors0 := match payload with Some p => userErrors p | None => None end in
  let codeDiscountNode0 := match payload with Some p => codeDiscountNode p | None => None end in
  match userErrors0 with
  | Some (e :: es) => SetFailed (user_errors_message (e :: es))
  | _ =>
    match codeDiscountNode0 with
    | Some n => SetCreated (node_id n)
    | None => SetFailed "Unexpected API response"
    end
  end.

(** Outcome of the [try] block for one record: the rows after its update, or
    the message of what it threw. *)
Inductive Attempt :=
| Updated (rows : list Discount)
| Thrown (message : string).

Definition try_item (masterDiscount : DiscountCodeBasic)
    (itemSelection : ItemsInput) (customerContext : ContextInput)
    (discountRecord : Discount) (rows : list Discount) (g : G)
  : Attempt * G * list DiscountInput :=
  match discountInput masterDiscount itemSelection customerContext discountRecord with
  | inl e => (Thrown e, g, [])
  | inr input =>
    let (out, g') := gql_discountCodeBasicCreate admin g input in
    match out with
    | Throws e => (Thrown e, g', [input])
    | Json createResult =>
      match discount_update (d_id discountRecord) (result_data createResult) rows with
      | Some rows' => (Updated rows', g', [input])
      | None => (Thrown record_not_found, g', [input])
      end
    end
  end.

Record LoopState := mkLoop {
  ls_rows : list Discount;
  ls_gw : G;
  ls_processedCount : nat;
  ls_sent : list DiscountInput
}.

(** [for (const discountRecord of pendingDiscounts) { try { ... } catch { ... } }].
    The first component is the message of an error that escaped the [catch]
    block (its own [update] threw), which ends the loop. *)
Fixpoint process_items (masterDiscount : DiscountCodeBasic)
    (itemSelection : ItemsInput) (customerContext : ContextInput)
    (pendingDiscounts : list Discount) (st : LoopState)
  : option string * LoopState :=
  match pendingDiscounts with
  | [] => (None, st)
  | discountRecord :: rest =>
    let '(a, g', sent) :=
      try_item masterDiscount itemSelection customerContext discountRecord
               (ls_rows st) (ls_gw st) in
    match a with
    | Updated rows' =>
      process_items masterDiscount itemSelection customerContext rest
        (mkLoop rows' g' (S (ls_processedCount st)) (ls_sent st ++ sent))
    | Thrown e =>
      match discount_update (d_id discountRecord)
                            (SetFailed (js_or e "Unknown error")) (ls_rows st) with
      | Some rows' =>
        process_items masterDiscount itemSelection customerContext rest
          (mkLoop rows' g' (S (ls_processedCount st)) (ls_sent st ++ sent))
      | None =>
        (Some record_not_found,
         mkLoop (ls_rows st) g' (ls_processedCount st) (ls_sent st ++ sent))
      end
    end
  end.

(** *** [process_pending] *)

(** The [message] of a batch that went through its loop. *)
Definition progress_message (processedCount remainingCount : nat) : string :=
  if 0 <? remainingCount
  then "Processed " ++ string_of_nat processedCount ++ " discounts. "
       ++ string_of_nat remainingCount ++ " remaining..."
  else "Batch complete. Processed " ++ string_of_nat processedCount ++ " discounts.".

Definition process_pending (discountSetId0 : Id) (db : Store) (g : G) : Run G :=
  match findSet discountSetId0 db with
  | None => mkRun (ErrorResult "Discount set not found") db g []
  | Some discountSet =>
    let pendingDiscounts := findPending discountSetId0 (discounts db) in
    match pendingDiscounts with
    | [] =>
      let created := count_status discountSetId0 CREATED (discounts db) in
      let failed := count_status discountSetId0 FAILED (discounts db) in
      mkRun (ProcessResult true
               ("Processing complete. Created: " ++ string_of_nat created
                ++ ", Failed: " ++ string_of_nat failed) 0 0)
            db g []
    | _ :: _ =>
      let (out, g1) := gql_getDiscount admin g (ds_masterDiscountId discountSet) in
      match out with
      | Throws e => mkRun (ErrorResult (js_or e "An error occurred")) db g1 []
      | Json masterDiscountData =>
        match response_discount masterDiscountData with
        | None => mkRun (ErrorResult "Master discount no longer exists") db g1 []
        | Some OtherDiscount =>
          (* [masterDiscount.customerGets] is undefined: [buildItemSelection]
             throws before the loop, into the outer [catch] *)
          mkRun (ErrorResult (js_or (type_error_reading "items") "An error occurred"))
                db g1 []
        | Some (BasicDiscount masterDiscount) =>
          let itemSelection := buildItemSelection masterDiscount in
          let customerContext := buildCustomerContext masterDiscount in
          let (escaped, st) :=
            process_items masterDiscount itemSelection customerContext
                          pendingDiscounts (mkLoop (discounts db) g1 0 []) in
          let db' := set_discounts db (ls_rows st) in
          match escaped with
          | Some e => mkRun (ErrorResult (js_or e "An error occurred")) db' (ls_gw st) (ls_sent st)
          | None =>
            let remainingCount := count_status discountSetId0 PENDING (ls_rows st) in
            let processedCount := ls_processedCount st in
            mkRun (ProcessResult (remainingCount =? 0)
                     (progress_message processedCount remainingCount)
                     processedCount remainingCount)
                  db' (ls_gw st) (ls_sent st)
          end
        end
      end
    end
  end.

(** *** [create_discounts] *)

(** [masterDiscountId.startsWith('gid://')] decides whether the id is wrapped. *)
Definition formatMasterDiscountId (masterDiscountId0 : string) : string :=
  if String.prefix "gid://" masterDiscountId0 then masterDiscountId0
  else "gid://shopify/DiscountCodeNode/" ++ masterDiscountId0.

Fixpoint has_duplicate (codes : list string) : bool :=
  match codes with
  | [] => false
  | c :: rest => existsb (String.eqb c) rest || has_duplicate rest
  end.

(** The unique index [Discount_shop_code_key] against a bulk insert. *)
Definition violates_shop_code (shop : string) (codes : list string)
    (rows : list Discount) : bool :=
  has_duplicate codes
  || existsb (fun r => String.eqb (d_shop r) shop
                       && existsb (String.eqb (code r)) codes) rows.

(** [codes.map(code => ({ shop, code, masterDiscountId, discountSetId, status: 'PENDING' }))],
    with the ids the client generates for the rows. *)
Fixpoint new_discounts (shop formattedMasterDiscountId : string) (setId first : Id)
    (codes : list string) : list Discount :=
  match codes with
  | [] => []
  | c :: rest =>
    mkDiscount first shop None c formattedMasterDiscountId (Some setId) PENDING None
    :: new_discounts shop formattedMasterDiscountId setId (S first) rest
  end.

Definition create_discounts (shop masterDiscountId0 discountSetName : string)
    (codes : list string) (db : Store) (g : G) : Run G :=
  let formattedMasterDiscountId := formatMasterDiscountId masterDiscountId0 in
  let (out, g1) := gql_getDiscount admin g formattedMasterDiscountId in
  match out with
  | Throws e => mkRun (ErrorResult (js_or e "An error occurred")) db g1 []
  | Json masterDiscountData =>
    match dr_errors masterDiscountData with
    | Some [] =>
      mkRun (ErrorResult (js_or (type_error_reading "message") "An error occurred")) db g1 []
    | Some (e :: _) =>
      mkRun (ErrorResult ("GraphQL Error: " ++ ge_message e ++ ". Using ID: "
                          ++ formattedMasterDiscountId)) db g1 []
    | None =>
      match dr_data masterDiscountData with
      | None =>
        mkRun (ErrorResult (js_or (type_error_reading "discountNode") "An error occurred"))
              db g1 []
      | Some _ =>
        match response_discount masterDiscountData with
        | None =>
          mkRun (ErrorResult ("Master discount not found with ID: "
                              ++ formattedMasterDiscountId
                              ++ ". Please check if the discount exists.")) db g1 []
        | Some _ =>
          let setId := next_id db in
          let discountSet := mkDiscountSet setId discountSetName shop formattedMasterDiscountId in
          let sets' := discountSets db ++ [discountSet] in
          if violates_shop_code shop codes (discounts db)
          then (* [createMany] throws; the set row is already there *)
            mkRun (ErrorResult (js_or unique_constraint_failed "An error occurred"))
                  (mkStore sets' (discounts db) (S setId)) g1 []
          else
            mkRun (CreateResult
                     ("Queued " ++ string_of_nat (List.length codes)
                      ++ " discount codes. Processing will begin automatically...")
                     setId (List.length codes) true)
                  (mkStore sets'
                     (discounts db
                      ++ new_discounts shop formattedMasterDiscountId setId (S setId) codes)
                     (S setId + List.length codes))
                  g1 []
        end
      end
    end
  end.

End Handlers.

(** *** [retry_failed] *)

(** The [data] of the [updateMany]: [{ status: 'PENDING', errorMessage: null }]. *)
Definition reset_to_pending (r : Discount) : Discount :=
  mkDiscount (d_id r) (d_shop r) (shopifyId r) (code r) (masterDiscountId r)
             (discountSetId r) PENDING None.

(** [db.discount.updateMany({ where: { discountSetId, status: 'FAILED' }, data })] *)
Definition discount_updateMany_failed (discountSetId0 : Id) (rows : list Discount)
  : list Discount :=
  map (fun r => if in_set_with discountSetId0 FAILED r then reset_to_pending r else r) rows.

Definition retry_failed (discountSetId0 : Id) (db : Store) : ActionResult * Store :=
  let rows' := discount_updateMany_failed discountSetId0 (discounts db) in
  let pendingCount := count_status discountSetId0 PENDING rows' in
  (RetryResult (string_of_nat pendingCount ++ " failed discounts have been queued for retry.")
               discountSetId0 (0 <? pendingCount),
   set_discounts db rows').

(** ** Vocabulary of the properties *)

(** The status invariant of a [Discount] row. *)
Definition status_invariant (r : Discount) : Prop :=
  (status r = CREATED <-> shopifyId r <> None /\ errorMessage r = None)
  /\ (status r = FAILED <-> errorMessage r <> None /\ shopifyId r = None)
  /\ (status r = PENDING <-> shopifyId r = None /\ errorMessage r = None).

Definition store_invariant (db : Store) : Prop :=
  forall r, In r (discounts db) -> status_invariant r.

(** Well-formed stores: [id] is the primary key of [Discount], and the ids in
    use are below the generator's counter. *)
Fixpoint distinct (ids : list Id) : bool :=
  match ids with
  | [] => true
  | i :: rest => negb (existsb (Nat.eqb i) rest) && distinct rest
  end.

Definition store_wfb (db : Store) : bool :=
  distinct (map d_id (discounts db))
  && forallb (fun r => d_id r <? next_id db) (discounts db).

Definition store_wf (db : Store) : Prop := store_wfb db = true.

(** Fields of a [process_pending] result. *)
Definition result_complete (r : ActionResult) : option bool :=
  match r with ProcessResult c _ _ _ => Some c | _ => None end.

Definition result_processed (r : ActionResult) : option nat :=
  match r with ProcessResult _ _ p _ => Some p | _ => None end.

Definition result_remaining (r : ActionResult) : option nat :=
  match r with ProcessResult _ _ _ n => Some n | _ => None end.

(** A template fetch that fails a batch: the call throws, or the reply has
    no basic code discount to offer. *)
Definition template_missing (out : Outcome DiscountResponse) : bool :=
  match out with
  | Throws _ => true
  | Json body =>
    match response_discount body with
    | Some (BasicDiscount _) => false
    | _ => true
    end
  end.

(** A master discount reference that does not resolve at submission: the
    call throws, the reply reports errors, or it names no discount. *)
Definition unresolved (out : Outcome DiscountResponse) : bool :=
  match out with
  | Throws _ => true
  | Json body =>
    match dr_errors body with
    | Some _ => true
    | None => match response_discount body with Some _ => false | None => true end
    end
  end.

(** The rows of a table after the update of the rows with a given id. *)
Definition update_rows (id : Id) (data : UpdateData) (rows : list Discount)
  : list Discount :=
  map (fun r => if d_id r =? id then apply_data data r else r) rows.

(** The row of a record after it was marked FAILED with a message, or
    CREATED with a remote id: same id and code, the new status, the column of
    the outcome set. *)
Definition recorded_as_failed (rec : Discount) (msg : string) (rows : list Discount) : Prop :=
  exists r, In r rows /\ d_id r = d_id rec /\ code r = code rec
            /\ status r = FAILED /\ errorMessage r = Some msg.

Definition recorded_as_created (rec : Discount) (remoteId : string) (rows : list Discount)
  : Prop :=
  exists r, In r rows /\ d_id r = d_id rec /\ code r = code rec
            /\ status r = CREATED /\ shopifyId r = Some remoteId.

Section Runs.

Context {G : Type} (admin : Gateway G).

(** What one iteration of the item loop decides for its record, apart from
    the store: the update it records (from the [try] block or from the
    [catch] block), the gateway afterwards, and the request it sent. *)
Definition item_data (masterDiscount : DiscountCodeBasic)
    (itemSelection : ItemsInput) (customerContext : ContextInput)
    (discountRecord : Discount) (g : G) : UpdateData * G * list DiscountInput :=
  match discountInput masterDiscount itemSelection customerContext discountRecord with
  | inl e => (SetFailed (js_or e "Unknown error"), g, [])
  | inr input =>
    match gql_discountCodeBasicCreate admin g input with
    | (Throws e, g') => (SetFailed (js_or e "Unknown error"), g', [input])
    | (Json createResult, g') => (result_data createResult, g', [input])
    end
  end.

(** The gateway as the loop leaves it after a run of records. *)
Fixpoint gateway_after (masterDiscount : DiscountCodeBasic)
    (itemSelection : ItemsInput) (customerContext : ContextInput)
    (records : list Discount) (g : G) : G :=
  match records with
  | [] => g
  | discountRecord :: rest =>
    gateway_after masterDiscount itemSelection customerContext rest
      (snd (fst (item_data masterDiscount itemSelection customerContext discountRecord g)))
  end.

(** The requests of one client after another that add rows or process them. *)
Inductive Call :=
| ProcessPending (discountSetId0 : Id)
| CreateDiscounts (shop masterDiscountId0 discountSetName : string) (codes : list string).

Definition call_run (c : Call) (db : Store) (g : G) : Run G :=
  match c with
  | ProcessPending discountSetId0 => process_pending admin discountSetId0 db g
  | CreateDiscounts shop masterDiscountId0 discountSetName codes =>
    create_discounts admin shop masterDiscountId0 discountSetName codes db g
  end.

(** The records a call claims for processing. *)
Definition call_claim (c : Call) (db : Store) : list Discount :=
  match c with
  | ProcessPending discountSetId0 => findPending discountSetId0 (discounts db)
  | CreateDiscounts _ _ _ _ => []
  end.

(** A sequence of calls, each on the store and gateway the previous one
    left.  The first component records what each call claimed. *)
Fixpoint run_calls (calls : list Call) (db : Store) (g : G)
  : list (list Discount) * Store * G :=
  match calls with
  | [] => ([], db, g)
  | c :: rest =>
    let r := call_run c db g in
    let '(claims, db', g') := run_calls rest (run_db r) (run_gw r) in
    (call_claim c db :: claims, db', g')
  end.

(** A gateway that serves a basic master discount whenever it is asked for
    the given reference. *)
Definition serves_template (ref : string) : Prop :=
  forall g, exists body m g',
    gql_getDiscount admin g ref = (Json body, g')
    /\ response_discount body = Some (BasicDiscount m).

(** How the reply to the request for one record is to be recorded in the
    rows: a rejection with field errors as FAILED with the joined errors, a
    created node as CREATED with its id, a reply with neither as FAILED with
    a fixed text, a thrown error as FAILED with its message (a default text
    standing in for an empty one). *)
Definition outcome_recorded (g : G) (input : DiscountInput) (rec : Discount)
    (rows : list Discount) : Prop :=
  match fst (gql_discountCodeBasicCreate admin g input) with
  | Throws e =>
    recorded_as_failed rec (if String.eqb e "" then "Unknown error" else e) rows
  | Json createResult =>
    match response_payload createResult with
    | Some p =>
      match userErrors p, codeDiscountNode p with
      | Some (e :: es), _ =>
        recorded_as_failed rec (join ", " (map render_user_error (e :: es))) rows
      | _, Some n => recorded_as_created rec (node_id n) rows
      | _, None => recorded_as_failed rec "Unexpected API response" rows
      end
    | None => recorded_as_failed rec "Unexpected API response" rows
    end
  end.

(** The stores the handlers can build, starting from empty tables. *)
Inductive reachable : Store -> Prop :=
| reach_empty : reachable (mkStore [] [] 0)
| reach_create shop masterDiscountId0 discountSetName codes db g :
    reachable db ->
    reachable (run_db (create_discounts admin shop masterDiscountId0 discountSetName codes db g))
| reach_process discountSetId0 db g :
    reachable db ->
    reachable (run_db (process_pending admin discountSetId0 db g))
| reach_retry discountSetId0 db :
    reachable db ->
    reachable (snd (retry_failed discountSetId0 db)).

End Runs.

(** ** A sample shop *)

Module Sample.

(** Ten percent off everything, for every customer; the template itself may
    be used a hundred times, more than once per customer. *)
Definition ten_percent : DiscountCodeBasic :=
  {| title := "Spring";
     minimumRequirement := None;
     customerGets :=
       {| cg_value := {| percentage := Some (10 # 1); value_amount := None |};
          cg_items := {| allItems := Some true; products := None; collections := None |} |};
     context := {| ctx_all := Some "ALL"; ctx_customers := None |};
     usageLimit := Some 100%Z;
     appliesOncePerCustomer := false;
     startsAt := "2025-01-01T00:00:00Z";
     endsAt := None |}.

Definition master_ref : string := "gid://shopify/DiscountCodeNode/1".

Definition found (m : MasterDiscount) : DiscountResponse :=
  {| dr_errors := None;
     dr_data := Some {| discountNode := Some {| dn_discount := Some m |} |} |}.

Definition not_found : DiscountResponse :=
  {| dr_errors := None; dr_data := Some {| discountNode := None |} |}.

Definition created (n : nat) : CreateResponse :=
  {| cr_data := Some {| discountCodeBasicCreate := Some
       {| userErrors := Some [];
          codeDiscountNode := Some {| node_id := "gid://shopify/DiscountCodeNode/" ++ string_of_nat n |} |} |} |}.

Definition rejected (msg : string) : CreateResponse :=
  {| cr_data := Some {| discountCodeBasicCreate := Some
       {| userErrors := Some [ {| ue_field := Some ["basicCodeDiscount"; "code"];
                                  ue_message := msg |} ];
          codeDiscountNode := None |} |} |}.

(** A remote service whose state counts the codes it has created.  It knows
    one master discount, rejects the code [DUPLICATE1], and loses the
    connection on the codes [TIMEOUT] and [SILENT]. *)
Definition shopify : Gateway nat :=
  {| gql_getDiscount := fun g ref =>
       if String.eqb ref master_ref
       then (Json (found (BasicDiscount ten_percent)), g)
       else (Json not_found, g);
     gql_discountCodeBasicCreate := fun g input =>
       if String.eqb (in_code input) "DUPLICATE1"
       then (Json (rejected "Code must be unique"), g)
       else if String.eqb (in_code input) "TIMEOUT"
       then (Throws "fetch failed", g)
       else if String.eqb (in_code input) "SILENT"
       then (Throws "", g)
       else (Json (created (S g)), S g) |}.

(** The same service while it is unreachable for template fetches. *)
Definition unreachable : Gateway nat :=
  {| gql_getDiscount := fun g _ => (Throws "fetch failed", g);
     gql_discountCodeBasicCreate := gql_discountCodeBasicCreate shopify |}.

Definition empty_store : Store := mkStore [] [] 0.

Definition twelve_codes : list string :=
  ["A01"; "A02"; "A03"; "A04"; "A05"; "A06"; "A07"; "A08"; "A09"; "A10"; "A11"; "A12"].

(** The store after the submission of twelve codes. *)
Definition twelve_submitted : Store :=
  run_db (create_discounts shopify "flowers.myshopify.com" "1" "Spring set"
                           twelve_codes empty_store 0).

(** The store after the submission of a set with a little of everything. *)
Definition mixed_submitted : Store :=
  run_db (create_discounts shopify "flowers.myshopify.com" master_ref "Mixed set"
                           ["GOOD1"; "DUPLICATE1"; "TIMEOUT"; "GOOD2"; "SILENT"; "GOOD3"; "GOOD4"]
                           empty_store 0).

(** A row as the submission leaves it. *)
Definition pending_row (id : Id) (c : string) : Discount :=
  mkDiscount id "flowers.myshopify.com" None c master_ref (Some 0) PENDING None.

(** The mixed set after the first [process_pending] call. *)
Definition mixed_after_one : Store :=
  run_db (process_pending shopify 0 mixed_submitted 0).

(** Its second row, the rejected code, as that call left it. *)
Definition rejected_row : Discount :=
  mkDiscount 2 "flowers.myshopify.com" None "DUPLICATE1" master_ref (Some 0) FAILED
             (Some "basicCodeDiscount,code: Code must be unique").

(** What the clients do after that call. *)
Definition later_calls : list Call :=
  [ProcessPending 0;
   CreateDiscounts "flowers.myshopify.com" master_ref "Second set" ["B01"; "B02"];
   ProcessPending 8;
   ProcessPending 0].

End Sample.

(** ** Deleting ([delete_discount_set], [delete_single_discount]) *)

(** The third operation of the gateway, the [discountCodeDelete] mutation.
    The handlers never read its reply: it throws or it does not. *)
Record Admin (G : Type) := mkAdmin {
  admin_gateway : Gateway G;
  gql_discountCodeDelete : G -> string -> Outcome unit * G
}.
Arguments admin_gateway {G} _.
Arguments gql_discountCodeDelete {G} _ _ _.

Inductive DeleteResult :=
| DeleteError (error : string)
| DeleteSuccess (message : string).

(** What a deletion leaves behind; [del_requests] is the ghost record of the
    remote ids passed to [discountCodeDelete], in order. *)
Record DeleteRun (G : Type) := mkDeleteRun {
  del_result : DeleteResult;
  del_db : Store;
  del_gw : G;
  del_requests : list string
}.
Arguments mkDeleteRun {G} _ _ _ _.
Arguments del_result {G} _.
Arguments del_db {G} _.
Arguments del_gw {G} _.
Arguments del_requests {G} _.

(** Message of the error Prisma throws from [delete] on a missing row. *)
Definition record_to_delete_missing : string :=
  "An operation failed because it depends on one or more records that were required but not found. Record to delete does not exist.".

(** The filter [{ discountSetId }] of [findMany], and the rows the foreign
    key [Discount_discountSetId_fkey] deletes with their set. *)
Definition belongs_to (discountSetId0 : Id) (r : Discount) : bool :=
  match discountSetId r with
  | Some s => s =? discountSetId0
  | None => false
  end.

(** [discount.shopifyId && discount.status === 'CREATED'] *)
Definition has_remote (r : Discount) : bool :=
  truthy_string (shopifyId r) && status_eqb (status r) CREATED.

Section Deleting.

Context {G : Type} (admin : Admin G).

(** [try { await admin.graphql(discountCodeDelete, { id: discount.shopifyId }) }
    catch (error) { console.error(...) }], under its guard. *)
Definition delete_remote (r : Discount) (g : G) : G * list string :=
  if has_remote r
  then match shopifyId r with
       | Some remoteId => (snd (gql_discountCodeDelete admin g remoteId), [remoteId])
       | None => (g, [])
       end
  else (g, []).

(** [for (const discount of discounts) { ... }] of [delete_discount_set]. *)
Fixpoint delete_remote_each (rows : list Discount) (g : G) : G * list string :=
  match rows with
  | [] => (g, [])
  | r :: rest =>
    let (g', sent) := delete_remote r g in
    let (g'', sent') := delete_remote_each rest g' in
    (g'', sent ++ sent')
  end.

Definition delete_discount_set (discountSetId0 : Id) (db : Store) (g : G) : DeleteRun G :=
  let rows := filter (belongs_to discountSetId0) (discounts db) in
  let (g', sent) := delete_remote_each rows g in
  match findSet discountSetId0 db with
  | None =>
    mkDeleteRun (DeleteError (js_or record_to_delete_missing "An error occurred")) db g' sent
  | Some _ =>
    mkDeleteRun (DeleteSuccess "Discount set deleted successfully")
                (mkStore (filter (fun s => negb (ds_id s =? discountSetId0)) (discountSets db))
                         (filter (fun r => negb (belongs_to discountSetId0 r)) (discounts db))
                         (next_id db))
                g' sent
  end.

Definition delete_single_discount (discountId : Id) (db : Store) (g : G) : DeleteRun G :=
  let discount := find (fun r => d_id r =? discountId) (discounts db) in
  let (g', sent) := match discount with
                    | Some r => delete_remote r g
                    | None => (g, [])
                    end in
  if has_id discountId (discounts db)
  then mkDeleteRun (DeleteSuccess "Discount deleted successfully")
                   (set_discounts db (filter (fun r => negb (d_id r =? discountId))
                                             (discounts db)))
                   g' sent
  else mkDeleteRun (DeleteError (js_or record_to_delete_missing "An error occurred")) db g' sent.

(** The stores all five actions can build, starting from empty tables. *)
Inductive reachable_all : Store -> Prop :=
| all_empty : reachable_all (mkStore [] [] 0)
| all_create shop masterDiscountId0 discountSetName codes db g :
    reachable_all db ->
    reachable_all (run_db (create_discounts (admin_gateway admin) shop masterDiscountId0
                                            discountSetName codes db g))
| all_process discountSetId0 db g :
    reachable_all db ->
    reachable_all (run_db (process_pending (admin_gateway admin) discountSetId0 db g))
| all_retry discountSetId0 db :
    reachable_all db ->
    reachable_all (snd (retry_failed discountSetId0 db))
| all_delete_set discountSetId0 db g :
    reachable_all db ->
    reachable_all (del_db (delete_discount_set discountSetId0 db g))
| all_delete_single discountId db g :
    reachable_all db ->
    reachable_all (del_db (delete_single_discount discountId db g)).

End Deleting.

(** ** More invariants of the store *)

(** The sets have [id] as primary key, below the generator's counter. *)
Definition sets_wfb (db : Store) : bool :=
  distinct (map ds_id (discountSets db))
  && forallb (fun s => ds_id s <? next_id db) (discountSets db).

(** A row that names a set names one that exists, of the same shop and with
    the same master discount. *)
Definition refers_to_setb (sets : list DiscountSet) (r : Discount) : bool :=
  match discountSetId r with
  | None => true
  | Some sid =>
    existsb (fun s => (ds_id s =? sid)
                      && String.eqb (ds_shop s) (d_shop r)
                      && String.eqb (ds_masterDiscountId s) (masterDiscountId r)) sets
  end.

Definition refs_okb (db : Store) : bool :=
  forallb (refers_to_setb (discountSets db)) (discounts db).

(** The unique index [Discount_shop_code_key]. *)
Fixpoint shop_codes_distinct (rows : list Discount) : bool :=
  match rows with
  | [] => true
  | r :: rest =>
    negb (existsb (fun r' => String.eqb (d_shop r') (d_shop r)
                             && String.eqb (code r') (code r)) rest)
    && shop_codes_distinct rest
  end.

Definition store_consistent (db : Store) : Prop :=
  sets_wfb db = true /\ refs_okb db = true /\ shop_codes_distinct (discounts db) = true.

(** The key of the unique index on a row. *)
Definition shop_code (r : Discount) : string * string := (d_shop r, code r).

(** What [refers_to_setb] decides. *)
Definition refers_to_set (sets : list DiscountSet) (r : Discount) : Prop :=
  forall sid, discountSetId r = Some sid ->
              exists s, In s sets /\ ds_id s = sid /\ ds_shop s = d_shop r
                        /\ ds_masterDiscountId s = masterDiscountId r.

(** The columns that only the submission writes. *)
Definition same_columns (r r' : Discount) : Prop :=
  d_id r' = d_id r /\ d_shop r' = d_shop r /\ code r' = code r
  /\ masterDiscountId r' = masterDiscountId r /\ discountSetId r' = discountSetId r.

(** Two requests that differ at most in their code. *)
Definition same_but_code (a b : DiscountInput) : Prop :=
  in_title a = in_title b /\ in_startsAt a = in_startsAt b /\ in_endsAt a = in_endsAt b
  /\ in_context a = in_context b /\ in_value a = in_value b /\ in_items a = in_items b
  /\ in_minimumRequirement a = in_minimumRequirement b
  /\ in_usageLimit a = in_usageLimit b
  /\ in_appliesOncePerCustomer a = in_appliesOncePerCustomer b.

(** ** The code list of the form ([handleCsvChange], [handleGenerateDiscounts])

    Strings are sequences of 8-bit code units here; of the code units
    JavaScript's [trim] strips, those in that range are 9 to 13, 32 and 160. *)

Definition is_separator (c : ascii) : bool :=
  Ascii.eqb c "010" || Ascii.eqb c ",".

Definition is_space (c : ascii) : bool :=
  existsb (N.eqb (N_of_ascii c)) [9; 10; 11; 12; 13; 32; 160]%N.

(** [content.split(/[\n,]/)] *)
Fixpoint split_codes (content : string) : list string :=
  match content with
  | EmptyString => [EmptyString]
  | String c rest =>
    if is_separator c then EmptyString :: split_codes rest
    else match split_codes rest with
         | piece :: pieces => String c piece :: pieces
         | [] => [String c EmptyString]
         end
  end.

Fixpoint trimStart (s : string) : string :=
  match s with
  | EmptyString => EmptyString
  | String c rest => if is_space c then trimStart rest else s
  end.

Fixpoint trimEnd (s : string) : string :=
  match s with
  | EmptyString => EmptyString
  | String c rest =>
    match trimEnd rest with
    | EmptyString => if is_space c then EmptyString else String c EmptyString
    | kept => String c kept
    end
  end.

(** [code.trim()] *)
Definition trim (s : string) : string := trimEnd (trimStart s).

(** [self.indexOf(code)], [None] for -1. *)
Fixpoint indexOf (x : string) (self : list string) : option nat :=
  match self with
  | [] => None
  | y :: rest => if String.eqb y x then Some 0 else option_map S (indexOf x rest)
  end.

(** [.filter((code, index, self) => self.indexOf(code) === index)], from a
    given index on. *)
Fixpoint keep_first_from (self : list string) (index : nat) (l : list string) : list string :=
  match l with
  | [] => []
  | c :: rest =>
    if match indexOf c self with Some i => i =? index | None => false end
    then c :: keep_first_from self (S index) rest
    else keep_first_from self (S index) rest
  end.

Definition keep_first (self : list string) : list string := keep_first_from self 0 self.

(** The [codes] that [handleCsvChange] computes from the file's text. *)
Definition parse_codes (content : string) : list string :=
  keep_first
    (filter (fun c => negb (String.eqb c ""))
            (map trim (split_codes content))).

(** A code as the form wants it: not empty, nothing for [trim] to strip, and
    no comma or line feed inside. *)
Definition separator_free (c : string) : bool :=
  forallb (fun ch => negb (is_separator ch)) (list_ascii_of_string c).

Definition clean_code (c : string) : bool :=
  negb (String.eqb c "") && String.eqb (trim c) c && separator_free c.

(** What [handleGenerateDiscounts] submits, if anything. *)
Record Submission := mkSubmission {
  sub_masterDiscountId : string;
  sub_discountSetName : string;
  sub_codes : list string
}.

Definition handleGenerateDiscounts (masterDiscountId0 discountSetName : string)
    (parsedCodes : list string) : option Submission :=
  if String.eqb masterDiscountId0 "" || String.eqb discountSetName ""
     || (List.length parsedCodes =? 0)
  then None
  else Some (mkSubmission masterDiscountId0 discountSetName parsedCodes).

(** ** More of the sample shop *)

Module Sample2.

(** A remote service that refuses every deletion. *)
Definition no_deletes : Admin nat :=
  {| admin_gateway := Sample.shopify;
     gql_discountCodeDelete := fun g _ => (Throws "fetch failed", g) |}.

(** A remote service that counts down what it deletes. *)
Definition deletes : Admin nat :=
  {| admin_gateway := Sample.shopify;
     gql_discountCodeDelete := fun g _ => (Json tt, Nat.pred g) |}.

(** A master discount whose value is neither a percentage nor an amount. *)
Definition odd_value : DiscountCodeBasic :=
  {| title := "Odd";
     minimumRequirement := None;
     customerGets :=
       {| cg_value := {| percentage := None; value_amount := None |};
          cg_items := {| allItems := Some true; products := None; collections := None |} |};
     context := {| ctx_all := Some "ALL"; ctx_customers := None |};
     usageLimit := None;
     appliesOncePerCustomer := true;
     startsAt := "2025-01-01T00:00:00Z";
     endsAt := None |}.

Definition odd_shop : Gateway nat :=
  {| gql_getDiscount := fun g _ => (Json (Sample.found (BasicDiscount odd_value)), g);
     gql_discountCodeBasicCreate := gql_discountCodeBasicCreate Sample.shopify |}.

Definition newline : string := String "010" EmptyString.

(** A file with blank lines, spaces, a carriage return and repeats. *)
Definition csv_text : string :=
  " SAVE10 ,HOLIDAY20" ++ String "013" newline ++ newline ++ "SAVE10,, BLACK FRIDAY " ++ newline.

End Sample2.

(** * Properties *)

Example twelve_submitted_shape :
  map status (discounts Sample.twelve_submitted) = repeat PENDING 12
  /\ map d_id (discounts Sample.twelve_submitted) = seq 1 12
  /\ store_wfb Sample.twelve_submitted = true.
Proof. vm_compute. repeat split. Qed.

Example mixed_batch :
  let r := process_pending Sample.shopify 0 Sample.mixed_submitted 0 in
  map status (discounts (run_db r))
  = [CREATED; FAILED; FAILED; CREATED; FAILED; PENDING; PENDING]
  /\ map errorMessage (discounts (run_db r))
     = [None; Some "basicCodeDiscount,code: Code must be unique"; Some "fetch failed"; None;
        Some "Unknown error"; None; None]
  /\ map shopifyId (discounts (run_db r))
     = [Some "gid://shopify/DiscountCodeNode/1"; None; None;
        Some "gid://shopify/DiscountCodeNode/2"; None; None; None]
  /\ run_result r
     = ProcessResult false "Processed 5 discounts. 2 remaining..." 5 2
  /\ In Sample.rejected_row (discounts (run_db r)).
Proof. vm_compute. repeat split. auto. Qed.

(** ** The store: updates by id *)

Lemma status_eqb_eq a b : status_eqb a b = true <-> a = b.
Proof. destruct a, b; simpl; split; intro H; try reflexivity; discriminate H. Qed.

Lemma in_set_with_spec sid st r :
  in_set_with sid st r = true <-> discountSetId r = Some sid /\ status r = st.
Proof.
  unfold in_set_with. destruct (discountSetId r) as [s|].
  - rewrite andb_true_iff, Nat.eqb_eq, status_eqb_eq. split.
    + intros [-> ->]. split; reflexivity.
    + intros [E ->]. inversion E. split; reflexivity.
  - split; [discriminate | intros [E _]; discriminate E].
Qed.

Lemma has_id_In id rows : has_id id rows = true <-> In id (map d_id rows).
Proof.
  unfold has_id. rewrite existsb_exists, in_map_iff. split.
  - intros [r [Hr E]]. apply Nat.eqb_eq in E. exists r. split; assumption.
  - intros [r [E Hr]]. exists r. split; [assumption | apply Nat.eqb_eq; assumption].
Qed.

Lemma discount_update_unfold id data rows :
  discount_update id data rows
  = if has_id id rows then Some (update_rows id data rows) else None.
Proof. reflexivity. Qed.

Lemma apply_data_id data r : d_id (apply_data data r) = d_id r.
Proof. destruct data; reflexivity. Qed.


Lemma apply_data_not_pending data r : status (apply_data data r) <> PENDING.
Proof. destruct data; simpl; discriminate. Qed.

Lemma update_rows_ids id data rows :
  map d_id (update_rows id data rows) = map d_id rows.
Proof.
  unfold update_rows. rewrite map_map. apply map_ext. intro r.
  destruct (d_id r =? id); [apply apply_data_id | reflexivity].
Qed.

Lemma update_rows_other id data rows r :
  In r rows -> d_id r <> id -> In r (update_rows id data rows).
Proof.
  intros Hin Hne. unfold update_rows. apply in_map_iff. exists r.
  split; [| assumption].
  apply Nat.eqb_neq in Hne. rewrite Hne. reflexivity.
Qed.

Lemma update_rows_hit id data rows r :
  In r rows -> d_id r = id -> In (apply_data data r) (update_rows id data rows).
Proof.
  intros Hin E. unfold update_rows. apply in_map_iff. exists r.
  split; [| assumption].
  apply Nat.eqb_eq in E. rewrite E. reflexivity.
Qed.

Lemma update_rows_inv id data rows r' :
  In r' (update_rows id data rows) ->
  (In r' rows /\ d_id r' <> id)
  \/ (exists r, In r rows /\ d_id r = id /\ r' = apply_data data r).
Proof.
  unfold update_rows. rewrite in_map_iff. intros [r [E Hin]].
  destruct (d_id r =? id) eqn:Hid.
  - right. exists r. apply Nat.eqb_eq in Hid. repeat split; auto.
  - left. subst r'. apply Nat.eqb_neq in Hid. split; assumption.
Qed.

Lemma update_rows_absent id data rows :
  ~ In id (map d_id rows) -> update_rows id data rows = rows.
Proof.
  intro Hno. unfold update_rows. rewrite <- (map_id rows) at 2.
  apply map_ext_in. intros r Hr.
  destruct (d_id r =? id) eqn:E; [| reflexivity].
  exfalso. apply Hno. apply Nat.eqb_eq in E. subst id. apply in_map. assumption.
Qed.

Lemma distinct_NoDup ids : distinct ids = true <-> NoDup ids.
Proof.
  induction ids as [|i rest IH]; simpl.
  - split; [constructor | reflexivity].
  - rewrite andb_true_iff, negb_true_iff, IH. split.
    + intros [Hn Hd]. constructor; [| assumption].
      intro Hin. assert (existsb (Nat.eqb i) rest = true) as Ht.
      { apply existsb_exists. exists i. split; [assumption | apply Nat.eqb_refl]. }
      rewrite Ht in Hn. discriminate Hn.
    + intro Hnd. inversion Hnd as [|? ? Hni Hd]; subst. split; [| assumption].
      destruct (existsb (Nat.eqb i) rest) eqn:Ht; [| reflexivity].
      exfalso. apply existsb_exists in Ht. destruct Ht as [j [Hj E]].
      apply Nat.eqb_eq in E. subst j. apply Hni. assumption.
Qed.

Lemma store_wf_spec db :
  store_wf db <->
  NoDup (map d_id (discounts db))
  /\ (forall r, In r (discounts db) -> d_id r < next_id db).
Proof.
  unfold store_wf, store_wfb.
  rewrite andb_true_iff, distinct_NoDup, forallb_forall.
  split; intros [Hn Hb]; (split; [assumption |]); intros r Hr;
    specialize (Hb r Hr); apply Nat.ltb_lt; assumption.
Qed.

(** Rows of a table with unique ids are determined by their id. *)
Lemma unique_row rows r1 r2 :
  NoDup (map d_id rows) -> In r1 rows -> In r2 rows -> d_id r1 = d_id r2 -> r1 = r2.
Proof.
  induction rows as [|r rest IH]; simpl; intros Hnd H1 H2 E; [contradiction|].
  inversion Hnd as [|? ? Hni Hd]; subst.
  destruct H1 as [-> | H1], H2 as [-> | H2].
  - reflexivity.
  - exfalso. apply Hni. rewrite E. apply in_map. assumption.
  - exfalso. apply Hni. rewrite <- E. apply in_map. assumption.
  - apply IH; assumption.
Qed.

(** ** The claim of a batch *)

Lemma findPending_incl sid rows r :
  In r (findPending sid rows) -> In r rows /\ discountSetId r = Some sid /\ status r = PENDING.
Proof.
  unfold findPending. intro Hin.
  assert (In r (filter (in_set_with sid PENDING) rows)) as Hf.
  { rewrite <- (firstn_skipn BATCH_SIZE). apply in_or_app. left. assumption. }
  apply filter_In in Hf. destruct Hf as [Hr Hp].
  apply in_set_with_spec in Hp. tauto.
Qed.

Lemma NoDup_map_filter {A B} (f : A -> B) (p : A -> bool) l :
  NoDup (map f l) -> NoDup (map f (filter p l)).
Proof.
  induction l as [|a l IH]; simpl; intro Hnd; [constructor|].
  inversion Hnd as [|? ? Hni Hd]; subst.
  destruct (p a); simpl; [constructor |]; auto.
  intro Hin. apply Hni. apply in_map_iff in Hin. destruct Hin as [x [E Hx]].
  apply filter_In in Hx. rewrite <- E. apply in_map. tauto.
Qed.

Lemma NoDup_map_firstn {A B} (f : A -> B) n l :
  NoDup (map f l) -> NoDup (map f (firstn n l)).
Proof.
  revert l. induction n as [|n IH]; intros [|a l]; simpl; intro Hnd; try constructor.
  - inversion Hnd as [|? ? Hni Hd]; subst.
    intro Hin. apply Hni. apply in_map_iff in Hin. destruct Hin as [x [E Hx]].
    rewrite <- E. apply in_map.
    rewrite <- (firstn_skipn n l). apply in_or_app. left. assumption.
  - inversion Hnd; subst. apply IH. assumption.
Qed.

Lemma findPending_NoDup sid rows :
  NoDup (map d_id rows) -> NoDup (map d_id (findPending sid rows)).
Proof.
  intro Hnd. unfold findPending. apply NoDup_map_firstn, NoDup_map_filter. assumption.
Qed.

Lemma findPending_length sid rows :
  List.length (findPending sid rows) = Nat.min BATCH_SIZE (count_status sid PENDING rows).
Proof. unfold findPending, count_status. apply length_firstn. Qed.

(** ** The item loop *)

Section Loop.

Context {G : Type} (admin : Gateway G).
Variables (m : DiscountCodeBasic) (sel : ItemsInput) (ctx : ContextInput).

Abbreviation loop := (process_items admin m sel ctx).
Abbreviation decide_item := (item_data admin m sel ctx).

(** One iteration, with the [try] and [catch] blocks folded into the update
    they record: the loop goes on unless the record has no row. *)
Lemma process_items_cons rec rest st :
  loop (rec :: rest) st =
  let '(data, g', sent) := decide_item rec (ls_gw st) in
  if has_id (d_id rec) (ls_rows st)
  then loop rest (mkLoop (update_rows (d_id rec) data (ls_rows st)) g'
                         (S (ls_processedCount st)) (ls_sent st ++ sent))
  else (Some record_not_found,
        mkLoop (ls_rows st) g' (ls_processedCount st) (ls_sent st ++ sent)).
Proof.
  simpl. unfold try_item, item_data.
  destruct (discountInput m sel ctx rec) as [e | input].
  - rewrite discount_update_unfold. destruct (has_id (d_id rec) (ls_rows st)); reflexivity.
  - destruct (gql_discountCodeBasicCreate admin (ls_gw st) input) as [[e | body] g'].
    + rewrite discount_update_unfold. destruct (has_id (d_id rec) (ls_rows st)); reflexivity.
    + rewrite discount_update_unfold.
      destruct (has_id (d_id rec) (ls_rows st)) eqn:E; [reflexivity |].
      rewrite discount_update_unfold, E. reflexivity.
Qed.

(** A loop invariant rule: a property of the rows that every update of a
    claimed record preserves holds of the rows the loop leaves, whether or
    not it ran to its end. *)
Lemma process_items_rows_ind (P : list Discount -> list Discount -> Prop) :
  (forall rec rest rows data,
      P (rec :: rest) rows -> P rest (update_rows (d_id rec) data rows)) ->
  (forall rec rest rows, P (rec :: rest) rows -> P [] rows) ->
  forall pending st, P pending (ls_rows st) -> P [] (ls_rows (snd (loop pending st))).
Proof.
  intros Hstep Hstop pending. induction pending as [|rec rest IH]; intros st HP.
  - exact HP.
  - rewrite process_items_cons.
    destruct (decide_item rec (ls_gw st)) as [[data g'] sent].
    destruct (has_id (d_id rec) (ls_rows st)).
    + apply IH. simpl. apply Hstep. assumption.
    + simpl. apply (Hstop rec rest). assumption.
Qed.

(** The loop never adds, removes or renumbers a row. *)
Lemma process_items_ids pending st :
  map d_id (ls_rows (snd (loop pending st))) = map d_id (ls_rows st).
Proof.
  apply (process_items_rows_ind
           (fun _ rows => map d_id rows = map d_id (ls_rows st))).
  - intros rec rest rows data E. rewrite update_rows_ids. assumption.
  - intros; assumption.
  - reflexivity.
Qed.

(** Frame: a row whose id is not among the claimed records is left as it is. *)
Lemma process_items_frame pending st r :
  In r (ls_rows st) -> ~ In (d_id r) (map d_id pending) ->
  In r (ls_rows (snd (loop pending st))).
Proof.
  intros Hin Hno.
  apply (process_items_rows_ind
           (fun p rows => In r rows /\ ~ In (d_id r) (map d_id p))
           ) with (pending := pending) (st := st); [| | tauto].
  - intros rec rest rows data [Hr Hn]. split.
    + apply update_rows_other; [assumption |]. intro E. apply Hn. left. symmetry. exact E.
    + intro Hi. apply Hn. right. exact Hi.
  - intros rec rest rows [Hr _]. split; [assumption | intros []].
Qed.

(** The counter goes up by one per record when nothing escapes. *)
Lemma process_items_count pending st :
  fst (loop pending st) = None ->
  ls_processedCount (snd (loop pending st)) = ls_processedCount st + List.length pending.
Proof.
  revert st. induction pending as [|rec rest IH]; intros st.
  - simpl. intros _. lia.
  - rewrite process_items_cons.
    destruct (decide_item rec (ls_gw st)) as [[data g'] sent].
    destruct (has_id (d_id rec) (ls_rows st)).
    + intro Hn. rewrite (IH _ Hn). simpl. lia.
    + simpl. discriminate.
Qed.

(** Nothing escapes the [catch] block when every claimed record has a row. *)
Lemma process_items_total pending st :
  (forall rec, In rec pending -> In (d_id rec) (map d_id (ls_rows st))) ->
  fst (loop pending st) = None.
Proof.
  revert st. induction pending as [|rec rest IH]; intros st Hall.
  - reflexivity.
  - rewrite process_items_cons.
    destruct (decide_item rec (ls_gw st)) as [[data g'] sent].
    assert (has_id (d_id rec) (ls_rows st) = true) as ->.
    { apply has_id_In. apply Hall. left. reflexivity. }
    apply IH. simpl. intros rec' Hin. rewrite update_rows_ids.
    apply Hall. right. assumption.
Qed.

(** The loop over a concatenation. *)
Lemma process_items_app pre post st :
  fst (loop pre st) = None ->
  loop (pre ++ post) st = loop post (snd (loop pre st)).
Proof.
  revert st. induction pre as [|rec rest IH]; intros st.
  - reflexivity.
  - rewrite <- app_comm_cons, !process_items_cons.
    destruct (decide_item rec (ls_gw st)) as [[data g'] sent].
    destruct (has_id (d_id rec) (ls_rows st)).
    + apply IH.
    + simpl. discriminate.
Qed.

(** The gateway the loop leaves is the one its requests lead to. *)
Lemma process_items_gateway pending st :
  fst (loop pending st) = None ->
  ls_gw (snd (loop pending st)) = gateway_after admin m sel ctx pending (ls_gw st).
Proof.
  revert st. induction pending as [|rec rest IH]; intros st.
  - reflexivity.
  - rewrite process_items_cons. simpl gateway_after.
    destruct (decide_item rec (ls_gw st)) as [[data g'] sent].
    destruct (has_id (d_id rec) (ls_rows st)).
    + intro Hn. rewrite (IH _ Hn). reflexivity.
    + simpl. discriminate.
Qed.


End Loop.

(** ** One [process_pending] call *)

Section Batch.

Context {G : Type} (admin : Gateway G).

(** Every claimed record has a row, so the loop of a batch runs to its end. *)
Lemma batch_loop_total m sel ctx sid db g :
  fst (process_items admin m sel ctx (findPending sid (discounts db))
                     (mkLoop (discounts db) g 0 [])) = None.
Proof.
  apply process_items_total. simpl. intros rec Hin.
  apply in_map. apply findPending_incl in Hin. tauto.
Qed.

(** The shape of a call that found its set, claimed something and got its
    template: it reports on the loop over the claimed records. *)
Lemma process_pending_batch sid db g discountSet body g1 m :
  findSet sid db = Some discountSet ->
  findPending sid (discounts db) <> [] ->
  gql_getDiscount admin g (ds_masterDiscountId discountSet) = (Json body, g1) ->
  response_discount body = Some (BasicDiscount m) ->
  let st := snd (process_items admin m (buildItemSelection m) (buildCustomerContext m)
                               (findPending sid (discounts db))
                               (mkLoop (discounts db) g1 0 [])) in
  let remainingCount := count_status sid PENDING (ls_rows st) in
  let processedCount := List.length (findPending sid (discounts db)) in
  process_pending admin sid db g
  = mkRun (ProcessResult (remainingCount =? 0)
             (progress_message processedCount remainingCount)
             processedCount remainingCount)
          (set_discounts db (ls_rows st)) (ls_gw st) (ls_sent st).
Proof.
  intros Hset Hne Hfetch Hm. unfold process_pending. rewrite Hset.
  destruct (findPending sid (discounts db)) as [|rec rest] eqn:Hp; [contradiction Hne; reflexivity |].
  rewrite Hfetch, Hm. rewrite <- Hp.
  pose proof (batch_loop_total m (buildItemSelection m) (buildCustomerContext m) sid db g1) as Htot.
  pose proof (process_items_count admin m (buildItemSelection m) (buildCustomerContext m)
                _ _ Htot) as Hcount.
  destruct (process_items admin m (buildItemSelection m) (buildCustomerContext m)
              (findPending sid (discounts db)) (mkLoop (discounts db) g1 0 []))
    as [escaped st] eqn:Hloop.
  simpl in Htot, Hcount |- *. subst escaped. rewrite Hcount. reflexivity.
Qed.

(** Whatever a call returns, it leaves the sets, the ids of the rows and the
    id counter alone. *)
Lemma process_pending_ids sid db g :
  map d_id (discounts (run_db (process_pending admin sid db g))) = map d_id (discounts db)
  /\ next_id (run_db (process_pending admin sid db g)) = next_id db
  /\ discountSets (run_db (process_pending admin sid db g)) = discountSets db.
Proof.
  unfold process_pending.
  destruct (findSet sid db) as [discountSet|]; [| auto].
  destruct (findPending sid (discounts db)) as [|rec rest] eqn:Hp; [auto |].
  destruct (gql_getDiscount admin g (ds_masterDiscountId discountSet)) as [[e | body] g1]; [auto |].
  destruct (response_discount body) as [[|m]|]; [auto | | auto].
  pose proof (process_items_ids admin m (buildItemSelection m) (buildCustomerContext m)
                (rec :: rest) (mkLoop (discounts db) g1 0 [])) as Hids.
  destruct (process_items admin m (buildItemSelection m) (buildCustomerContext m)
              (rec :: rest) (mkLoop (discounts db) g1 0 [])) as [[e|] st];
    simpl in Hids |- *; auto.
Qed.

Lemma process_pending_wf sid db g :
  store_wf db -> store_wf (run_db (process_pending admin sid db g)).
Proof.
  rewrite !store_wf_spec. intros [Hnd Hlt].
  destruct (process_pending_ids sid db g) as [Hids [Hnext Hsets]].
  rewrite Hids, Hnext. split; [assumption |].
  intros r Hr. apply (in_map d_id) in Hr. rewrite Hids in Hr.
  apply in_map_iff in Hr. destruct Hr as [r0 [E Hr0]]. rewrite <- E. apply Hlt. assumption.
Qed.

(** Frame of a call: a row that was not claimed is left as it is. *)
Lemma process_pending_frame sid db g r :
  In r (discounts db) ->
  ~ In (d_id r) (map d_id (findPending sid (discounts db))) ->
  In r (discounts (run_db (process_pending admin sid db g))).
Proof.
  intros Hin Hno. unfold process_pending.
  destruct (findSet sid db) as [discountSet|]; [| assumption].
  destruct (findPending sid (discounts db)) as [|rec rest] eqn:Hp; [assumption |].
  destruct (gql_getDiscount admin g (ds_masterDiscountId discountSet)) as [[e | body] g1];
    [assumption |].
  destruct (response_discount body) as [[|m]|]; [assumption | | assumption].
  pose proof (process_items_frame admin m (buildItemSelection m) (buildCustomerContext m)
                (rec :: rest) (mkLoop (discounts db) g1 0 []) r Hin Hno) as Hf.
  destruct (process_items admin m (buildItemSelection m) (buildCustomerContext m)
              (rec :: rest) (mkLoop (discounts db) g1 0 [])) as [[e|] st];
    simpl in Hf |- *; assumption.
Qed.

(** A row that has left [PENDING] is not claimed. *)
Lemma settled_not_claimed sid db r :
  store_wf db -> In r (discounts db) -> status r <> PENDING ->
  ~ In (d_id r) (map d_id (findPending sid (discounts db))).
Proof.
  intros Hwf Hin Hst Hclaimed. apply store_wf_spec in Hwf. destruct Hwf as [Hnd _].
  apply in_map_iff in Hclaimed. destruct Hclaimed as [c [E Hc]].
  apply findPending_incl in Hc. destruct Hc as [Hc [_ Hp]].
  assert (c = r) by (apply (unique_row (discounts db)); assumption).
  subst c. contradiction.
Qed.

End Batch.

(** ** Batch-level results *)

(** A call whose set exists and whose template is served returns a progress
    report, never an error. *)
Lemma process_pending_returns {G} (admin : Gateway G) sid db g discountSet body g1 m :
  findSet sid db = Some discountSet ->
  gql_getDiscount admin g (ds_masterDiscountId discountSet) = (Json body, g1) ->
  response_discount body = Some (BasicDiscount m) ->
  result_processed (run_result (process_pending admin sid db g))
  = Some (List.length (findPending sid (discounts db))).
Proof.
  intros Hset Hfetch Hm.
  destruct (findPending sid (discounts db)) as [|rec rest] eqn:Hp.
  - unfold process_pending. rewrite Hset, Hp. reflexivity.
  - rewrite (process_pending_batch admin sid db g discountSet body g1 m Hset); auto.
    + rewrite Hp. reflexivity.
    + rewrite Hp. discriminate.
Qed.

(** C10: a [process_pending] call that returns a progress report (it did not
    fail at the batch level) reports as [processed] the number of records it
    claimed: records marked FAILED are counted like records marked CREATED. *)
Theorem C10_processed_is_claimed_count {G} (admin : Gateway G) sid db g
    complete message processed remaining :
  run_result (process_pending admin sid db g)
  = ProcessResult complete message processed remaining ->
  processed = List.length (findPending sid (discounts db)).
Proof.
  unfold process_pending.
  destruct (findSet sid db) as [discountSet|]; [| discriminate].
  destruct (findPending sid (discounts db)) as [|rec rest] eqn:Hp.
  - simpl. intro E. inversion E. reflexivity.
  - destruct (gql_getDiscount admin g (ds_masterDiscountId discountSet)) as [[e | body] g1];
      [discriminate |].
    destruct (response_discount body) as [[|m]|]; [discriminate | | discriminate].
    pose proof (process_items_count admin m (buildItemSelection m) (buildCustomerContext m)
                  (rec :: rest) (mkLoop (discounts db) g1 0 [])) as Hcount.
    destruct (process_items admin m (buildItemSelection m) (buildCustomerContext m)
                (rec :: rest) (mkLoop (discounts db) g1 0 [])) as [[e|] st];
      [discriminate |].
    simpl in Hcount |- *. intro E. inversion E. subst. apply Hcount. reflexivity.
Qed.

(** The mixed set: five records claimed, three of them fail, five processed. *)
Lemma C10_witness_mixed_set :
  5 = List.length (findPending 0 (discounts Sample.mixed_submitted))
  /\ map status (discounts (run_db (process_pending Sample.shopify 0 Sample.mixed_submitted 0)))
     = [CREATED; FAILED; FAILED; CREATED; FAILED; PENDING; PENDING].
Proof.
  split.
  - apply (C10_processed_is_claimed_count Sample.shopify 0 Sample.mixed_submitted 0
             false "Processed 5 discounts. 2 remaining..." 5 2).
    vm_compute. reflexivity.
  - vm_compute. reflexivity.
Defined.

(** C4: when the template fetch of a call that claimed at least one record
    fails (the gateway throws, or the reply has no basic code discount), the
    call returns one error and leaves the whole store as it was; no creation
    request is sent. *)
Theorem C4_template_failure_changes_no_item {G} (admin : Gateway G) sid db g
    discountSet out g1 :
  findSet sid db = Some discountSet ->
  findPending sid (discounts db) <> [] ->
  gql_getDiscount admin g (ds_masterDiscountId discountSet) = (out, g1) ->
  template_missing out = true ->
  exists e,
    run_result (process_pending admin sid db g) = ErrorResult e
    /\ run_db (process_pending admin sid db g) = db
    /\ run_sent (process_pending admin sid db g) = [].
Proof.
  intros Hset Hne Hfetch Hmiss. unfold process_pending. rewrite Hset.
  destruct (findPending sid (discounts db)) as [|rec rest]; [contradiction Hne; reflexivity |].
  rewrite Hfetch. destruct out as [e | body]; simpl in Hmiss.
  - eexists. repeat split.
  - destruct (response_discount body) as [[|m]|]; [| discriminate Hmiss |];
      eexists; repeat split.
Qed.

Lemma C4_witness_unreachable :
  exists e,
    run_result (process_pending Sample.unreachable 0 Sample.twelve_submitted 0) = ErrorResult e
    /\ run_db (process_pending Sample.unreachable 0 Sample.twelve_submitted 0)
       = Sample.twelve_submitted
    /\ run_sent (process_pending Sample.unreachable 0 Sample.twelve_submitted 0) = [].
Proof.
  apply (C4_template_failure_changes_no_item Sample.unreachable 0 Sample.twelve_submitted 0
           (mkDiscountSet 0 "Spring set" "flowers.myshopify.com" Sample.master_ref)
           (Throws "fetch failed") 0).
  - vm_compute. reflexivity.
  - vm_compute. discriminate.
  - vm_compute. reflexivity.
  - reflexivity.
Defined.

(** C8: when the master discount reference does not resolve at submission
    (the gateway throws, reports errors, or names no discount),
    [create_discounts] returns an error and the store is exactly what it was:
    no set row and no discount row is created. *)
Theorem C8_unresolved_template_persists_nothing {G} (admin : Gateway G)
    shop masterDiscountId0 discountSetName codes db g out g1 :
  gql_getDiscount admin g (formatMasterDiscountId masterDiscountId0) = (out, g1) ->
  unresolved out = true ->
  exists e,
    run_result (create_discounts admin shop masterDiscountId0 discountSetName codes db g)
    = ErrorResult e
    /\ run_db (create_discounts admin shop masterDiscountId0 discountSetName codes db g) = db.
Proof.
  intros Hfetch Hun. unfold create_discounts. rewrite Hfetch.
  destruct out as [e | body]; simpl in Hun.
  - eexists. split; reflexivity.
  - unfold response_discount in *.
    destruct (dr_errors body) as [[|e es]|].
    + eexists. split; reflexivity.
    + eexists. split; reflexivity.
    + destruct (dr_data body) as [d|].
      * destruct (discountNode d) as [n|].
        -- destruct (dn_discount n); [discriminate Hun |]. eexists. split; reflexivity.
        -- eexists. split; reflexivity.
      * eexists. split; reflexivity.
Qed.

Lemma C8_witness_unknown_reference :
  exists e,
    run_result (create_discounts Sample.shopify "flowers.myshopify.com" "999" "Lost set"
                                 Sample.twelve_codes Sample.empty_store 0) = ErrorResult e
    /\ run_db (create_discounts Sample.shopify "flowers.myshopify.com" "999" "Lost set"
                                Sample.twelve_codes Sample.empty_store 0) = Sample.empty_store.
Proof.
  apply (C8_unresolved_template_persists_nothing Sample.shopify "flowers.myshopify.com" "999"
           "Lost set" Sample.twelve_codes Sample.empty_store 0 (Json Sample.not_found) 0).
  - vm_compute. reflexivity.
  - reflexivity.
Defined.

(** ** Retrying *)

(** C6: [retry_failed] on a set turns exactly the FAILED rows of that set to
    PENDING with a null error message, keeping their other columns; every
    other row (CREATED or PENDING in the set, or of another set) is left
    exactly as it was, in place; the sets are untouched. *)
Theorem C6_retry_resets_exactly_failed sid db :
  discountSets (snd (retry_failed sid db)) = discountSets db
  /\ Forall2
       (fun r r' =>
          (discountSetId r = Some sid /\ status r = FAILED ->
           status r' = PENDING /\ errorMessage r' = None
           /\ d_id r' = d_id r /\ d_shop r' = d_shop r /\ shopifyId r' = shopifyId r
           /\ code r' = code r /\ masterDiscountId r' = masterDiscountId r
           /\ discountSetId r' = discountSetId r)
          /\ (~ (discountSetId r = Some sid /\ status r = FAILED) -> r' = r))
       (discounts db) (discounts (snd (retry_failed sid db))).
Proof.
  split; [reflexivity |]. simpl. unfold discount_updateMany_failed.
  induction (discounts db) as [|r rows IH]; simpl; constructor; [| exact IH].
  destruct (in_set_with sid FAILED r) eqn:E.
  - split; [intros _; simpl; repeat split |].
    intro Hn. exfalso. apply Hn. apply in_set_with_spec. exact E.
  - split; [| reflexivity].
    intro H. apply in_set_with_spec in H. rewrite H in E. discriminate E.
Qed.

(** ** The status invariant *)

Ltac status_cases :=
  unfold status_invariant; simpl; repeat split; intros;
  repeat match goal with H : _ /\ _ |- _ => destruct H end;
  try congruence; try discriminate.

Lemma pending_row_fields r :
  status_invariant r -> status r = PENDING -> shopifyId r = None /\ errorMessage r = None.
Proof. intros [_ [_ Hp]] E. apply Hp. exact E. Qed.

Lemma failed_row_fields r :
  status_invariant r -> status r = FAILED -> shopifyId r = None.
Proof. intros [_ [Hf _]] E. apply Hf. exact E. Qed.

Lemma apply_data_invariant data r :
  status_invariant r -> status r = PENDING -> status_invariant (apply_data data r).
Proof.
  intros Hinv Hp. destruct (pending_row_fields r Hinv Hp) as [Hs He].
  destruct data; status_cases.
Qed.

Lemma reset_to_pending_invariant r :
  status_invariant r -> status r = FAILED -> status_invariant (reset_to_pending r).
Proof.
  intros Hinv Hf. pose proof (failed_row_fields r Hinv Hf) as Hs. status_cases.
Qed.

Lemma new_discounts_spec shop ref setId codes first r :
  In r (new_discounts shop ref setId first codes) ->
  status r = PENDING /\ shopifyId r = None /\ errorMessage r = None
  /\ discountSetId r = Some setId /\ masterDiscountId r = ref /\ d_shop r = shop
  /\ In (code r) codes.
Proof.
  revert first. induction codes as [|c rest IH]; simpl; intros first Hin; [contradiction |].
  destruct Hin as [<- | Hin].
  - simpl. intuition.
  - specialize (IH _ Hin). simpl. intuition.
Qed.

Lemma new_discounts_ids shop ref setId codes first :
  map d_id (new_discounts shop ref setId first codes) = seq first (List.length codes).
Proof.
  revert first. induction codes as [|c rest IH]; simpl; intro first; [reflexivity |].
  rewrite IH. reflexivity.
Qed.

(** The rows after an update of PENDING rows keep the invariant. *)
Lemma update_rows_invariant id data rows :
  (forall r, In r rows -> status_invariant r) ->
  (forall r, In r rows -> d_id r = id -> status r = PENDING) ->
  forall r, In r (update_rows id data rows) -> status_invariant r.
Proof.
  intros Hinv Hp r' Hin. apply update_rows_inv in Hin.
  destruct Hin as [[Hin _] | [r [Hin [E ->]]]].
  - apply Hinv. assumption.
  - apply apply_data_invariant; [apply Hinv | apply (Hp r)]; assumption.
Qed.

Section Invariant.

Context {G : Type} (admin : Gateway G).

Lemma create_discounts_rows shop mid name codes db g r :
  In r (discounts (run_db (create_discounts admin shop mid name codes db g))) ->
  In r (discounts db)
  \/ In r (new_discounts shop (formatMasterDiscountId mid) (next_id db) (S (next_id db)) codes).
Proof.
  unfold create_discounts.
  destruct (gql_getDiscount admin g (formatMasterDiscountId mid)) as [[e | body] g1];
    [auto |].
  destruct (dr_errors body) as [[|e es]|]; [auto | auto |].
  destruct (dr_data body); [| auto].
  destruct (response_discount body); [| auto].
  destruct (violates_shop_code shop codes (discounts db)); simpl; [auto |].
  intro Hin. apply in_app_or in Hin. assumption.
Qed.

Lemma create_discounts_invariant shop mid name codes db g :
  store_invariant db ->
  store_invariant (run_db (create_discounts admin shop mid name codes db g)).
Proof.
  intros Hinv r Hin. apply create_discounts_rows in Hin. destruct Hin as [Hin | Hin].
  - apply Hinv. assumption.
  - apply new_discounts_spec in Hin. destruct Hin as [Hs [Hi [He _]]]. status_cases.
Qed.

Lemma process_pending_invariant sid db g :
  store_wf db -> store_invariant db ->
  store_invariant (run_db (process_pending admin sid db g)).
Proof.
  intros Hwf Hinv. unfold process_pending.
  destruct (findSet sid db) as [discountSet|]; [| assumption].
  destruct (findPending sid (discounts db)) as [|rec rest] eqn:Hp; [assumption |].
  destruct (gql_getDiscount admin g (ds_masterDiscountId discountSet)) as [[e | body] g1];
    [assumption |].
  destruct (response_discount body) as [[|m]|]; [assumption | | assumption].
  apply store_wf_spec in Hwf. destruct Hwf as [Hnd _].
  assert (forall r, In r (ls_rows (snd (process_items admin m (buildItemSelection m)
                                          (buildCustomerContext m) (rec :: rest)
                                          (mkLoop (discounts db) g1 0 [])))) ->
                    status_invariant r) as Hloop.
  { apply (process_items_rows_ind admin m (buildItemSelection m) (buildCustomerContext m)
             (fun p rows =>
                (forall r, In r rows -> status_invariant r)
                /\ NoDup (map d_id p)
                /\ (forall r, In r rows -> In (d_id r) (map d_id p) -> status r = PENDING))
             ) with (pending := rec :: rest) (st := mkLoop (discounts db) g1 0 []).
    - intros c p rows data [Hi [Hn Hpend]]. inversion Hn as [|? ? Hni Hn']; subst.
      split; [| split; [assumption |]].
      + apply update_rows_invariant; [assumption |].
        intros r Hr E. apply Hpend; [assumption |]. left. symmetry. exact E.
      + intros r' Hr' Hid. apply update_rows_inv in Hr'.
        destruct Hr' as [[Hr' _] | [r [Hr [E ->]]]].
        * apply Hpend; [assumption |]. right. assumption.
        * exfalso. rewrite apply_data_id, E in Hid. apply Hni. assumption.
    - intros c p rows [Hi _]. split; [assumption |]. split; [constructor |].
      intros r _ [].
    - cbv beta. simpl ls_rows. split; [exact Hinv |]. rewrite <- Hp. split.
      + apply findPending_NoDup. assumption.
      + intros r Hr Hid. apply in_map_iff in Hid. destruct Hid as [c [E Hc]].
        apply findPending_incl in Hc. destruct Hc as [Hc [_ Hst]].
        assert (c = r) by (apply (unique_row (discounts db)); assumption).
        subst c. assumption. }
  destruct (process_items admin m (buildItemSelection m) (buildCustomerContext m)
              (rec :: rest) (mkLoop (discounts db) g1 0 [])) as [[e|] st];
    simpl in Hloop |- *; exact Hloop.
Qed.

End Invariant.

Lemma retry_failed_invariant sid db :
  store_invariant db -> store_invariant (snd (retry_failed sid db)).
Proof.
  intros Hinv r' Hin. simpl in Hin. unfold discount_updateMany_failed in Hin.
  apply in_map_iff in Hin. destruct Hin as [r [E Hr]].
  destruct (in_set_with sid FAILED r) eqn:Hf.
  - subst r'. apply in_set_with_spec in Hf.
    apply reset_to_pending_invariant; [apply Hinv; assumption | tauto].
  - subst r'. apply Hinv. assumption.
Qed.

(** C2: every store operation keeps the status invariant of the [Discount]
    rows: the bulk insert of [create_discounts]; an update to CREATED or
    FAILED of rows that are PENDING (the only rows the item loop updates); a
    whole [process_pending] call on a store whose ids are a primary key; and
    [retry_failed]. *)
Theorem C2_status_invariant_preserved :
  (forall (G : Type) (admin : Gateway G) shop masterDiscountId0 discountSetName codes db g,
      store_invariant db ->
      store_invariant
        (run_db (create_discounts admin shop masterDiscountId0 discountSetName codes db g)))
  /\ (forall id data rows rows',
         (forall r, In r rows -> status_invariant r) ->
         (forall r, In r rows -> d_id r = id -> status r = PENDING) ->
         discount_update id data rows = Some rows' ->
         forall r, In r rows' -> status_invariant r)
  /\ (forall (G : Type) (admin : Gateway G) sid db g,
         store_wf db -> store_invariant db ->
         store_invariant (run_db (process_pending admin sid db g)))
  /\ (forall sid db,
         store_invariant db -> store_invariant (snd (retry_failed sid db))).
Proof.
  split; [| split; [| split]].
  - intros G admin. apply create_discounts_invariant.
  - intros id data rows rows' Hinv Hp Hup. rewrite discount_update_unfold in Hup.
    destruct (has_id id rows); [| discriminate Hup]. inversion Hup; subst.
    apply update_rows_invariant; assumption.
  - intros G admin. apply process_pending_invariant.
  - apply retry_failed_invariant.
Qed.

(** ** Reachable stores are well formed *)

Lemma create_discounts_wf {G} (admin : Gateway G) shop mid name codes db g :
  store_wf db -> store_wf (run_db (create_discounts admin shop mid name codes db g)).
Proof.
  intro Hwf. unfold create_discounts.
  destruct (gql_getDiscount admin g (formatMasterDiscountId mid)) as [[e | body] g1];
    [assumption |].
  destruct (dr_errors body) as [[|e es]|]; [assumption | assumption |].
  destruct (dr_data body); [| assumption].
  destruct (response_discount body); [| assumption].
  apply store_wf_spec in Hwf. destruct Hwf as [Hnd Hlt].
  destruct (violates_shop_code shop codes (discounts db)); apply store_wf_spec; simpl.
  - split; [assumption |]. intros r Hr. specialize (Hlt r Hr). lia.
  - split.
    + rewrite map_app, new_discounts_ids. apply NoDup_app; [assumption | apply seq_NoDup |].
      intros i Hi Hs. apply in_seq in Hs. apply in_map_iff in Hi.
      destruct Hi as [r [E Hr]]. specialize (Hlt r Hr). lia.
    + intros r Hr. apply in_app_or in Hr. destruct Hr as [Hr | Hr].
      * specialize (Hlt r Hr). lia.
      * apply (in_map d_id) in Hr. rewrite new_discounts_ids in Hr.
        apply in_seq in Hr. lia.
Qed.

Lemma retry_failed_wf sid db : store_wf db -> store_wf (snd (retry_failed sid db)).
Proof.
  rewrite !store_wf_spec. simpl. unfold discount_updateMany_failed.
  assert (map d_id (map (fun r => if in_set_with sid FAILED r then reset_to_pending r else r)
                        (discounts db)) = map d_id (discounts db)) as Hids.
  { rewrite map_map. apply map_ext. intro r. destruct (in_set_with sid FAILED r); reflexivity. }
  intros [Hnd Hlt]. rewrite Hids. split; [assumption |].
  intros r' Hr'. apply in_map_iff in Hr'. destruct Hr' as [r [E Hr]].
  specialize (Hlt r Hr). destruct (in_set_with sid FAILED r); subst r'; simpl; assumption.
Qed.

(** Every store the handlers can build from empty tables has unique ids and
    satisfies the status invariant. *)
Lemma reachable_sound {G} (admin : Gateway G) db :
  reachable admin db -> store_wf db /\ store_invariant db.
Proof.
  induction 1 as [| shop mid name codes db g _ [Hwf Hinv]
                  | sid db g _ [Hwf Hinv] | sid db _ [Hwf Hinv]].
  - split; [reflexivity | intros r []].
  - split; [apply create_discounts_wf | apply create_discounts_invariant]; assumption.
  - split; [apply process_pending_wf | apply process_pending_invariant]; assumption.
  - split; [apply retry_failed_wf | apply retry_failed_invariant]; assumption.
Qed.

(** The mixed set through submission, one batch and a retry. *)
Lemma C2_witness_mixed_set :
  store_invariant (snd (retry_failed 0 Sample.mixed_after_one))
  /\ map status (discounts Sample.mixed_after_one)
     = [CREATED; FAILED; FAILED; CREATED; FAILED; PENDING; PENDING]
  /\ map status (discounts (snd (retry_failed 0 Sample.mixed_after_one)))
     = [CREATED; PENDING; PENDING; CREATED; PENDING; PENDING; PENDING].
Proof.
  split; [| split; vm_compute; reflexivity].
  destruct C2_status_invariant_preserved as [Hcreate [_ [Hprocess Hretry]]].
  apply Hretry. apply Hprocess.
  - vm_compute. reflexivity.
  - apply Hcreate. intros r Hr. simpl in Hr. contradiction.
Defined.

(** ** Sequences of calls *)

Lemma create_discounts_frame {G} (admin : Gateway G) shop mid name codes db g r :
  In r (discounts db) ->
  In r (discounts (run_db (create_discounts admin shop mid name codes db g))).
Proof.
  intro Hin. unfold create_discounts.
  destruct (gql_getDiscount admin g (formatMasterDiscountId mid)) as [[e | body] g1];
    [assumption |].
  destruct (dr_errors body) as [[|e es]|]; [assumption | assumption |].
  destruct (dr_data body); [| assumption].
  destruct (response_discount body); [| assumption].
  destruct (violates_shop_code shop codes (discounts db)); simpl; [assumption |].
  apply in_or_app. left. assumption.
Qed.

(** C7: along any sequence of [process_pending] calls (on any sets, with any
    gateway behaviour, with submissions of new sets in between), a row that
    is CREATED or FAILED is never among the records a call claims, and it is
    still in the store, unchanged, at the end. *)
Theorem C7_settled_rows_are_never_reclaimed {G} (admin : Gateway G) calls db g r :
  store_wf db ->
  In r (discounts db) ->
  status r <> PENDING ->
  (forall claimed c,
      In claimed (fst (fst (run_calls admin calls db g))) -> In c claimed ->
      d_id c <> d_id r)
  /\ In r (discounts (snd (fst (run_calls admin calls db g)))).
Proof.
  revert db g. induction calls as [|call rest IH]; intros db g Hwf Hin Hst.
  - simpl. split; [intros claimed c [] | assumption].
  - simpl.
    assert (~ In (d_id r) (map d_id (call_claim call db))) as Hno.
    { destruct call; simpl; [apply settled_not_claimed; assumption | intros []]. }
    assert (In r (discounts (run_db (call_run admin call db g)))) as Hin'.
    { destruct call; simpl in Hno |- *;
        [apply process_pending_frame | apply create_discounts_frame]; assumption. }
    assert (store_wf (run_db (call_run admin call db g))) as Hwf'.
    { destruct call; simpl; [apply process_pending_wf | apply create_discounts_wf];
        assumption. }
    specialize (IH _ (run_gw (call_run admin call db g)) Hwf' Hin' Hst).
    destruct (run_calls admin rest (run_db (call_run admin call db g))
                        (run_gw (call_run admin call db g))) as [[claims db'] g'].
    simpl in IH |- *. destruct IH as [IHc IHr]. split; [| assumption].
    intros claimed c [<- | Hcl] Hc.
    + intro E. apply Hno. rewrite <- E. apply in_map. assumption.
    + apply (IHc claimed); assumption.
Qed.

(** After the first call on the mixed set: a second call, a submission of
    two more codes and two more calls claim only rows that are PENDING; the
    rejected row is never claimed and stays put. *)
Lemma C7_witness_rejected_row :
  (forall claimed c,
      In claimed (fst (fst (run_calls Sample.shopify Sample.later_calls
                                      Sample.mixed_after_one 2))) ->
      In c claimed -> d_id c <> d_id Sample.rejected_row)
  /\ In Sample.rejected_row
        (discounts (snd (fst (run_calls Sample.shopify Sample.later_calls
                                        Sample.mixed_after_one 2)))).
Proof.
  apply (C7_settled_rows_are_never_reclaimed Sample.shopify Sample.later_calls
           Sample.mixed_after_one 2 Sample.rejected_row).
  - vm_compute. reflexivity.
  - vm_compute. tauto.
  - simpl. discriminate.
Defined.

Example later_calls_claim_what_is_pending :
  map (map code)
      (fst (fst (run_calls Sample.shopify Sample.later_calls Sample.mixed_after_one 2)))
  = [["GOOD3"; "GOOD4"]; []; ["B01"; "B02"]; []].
Proof. vm_compute. reflexivity. Qed.

(** ** Counting what is left *)

Lemma in_set_apply_data sid data r :
  in_set_with sid PENDING (apply_data data r) = false.
Proof.
  destruct (in_set_with sid PENDING (apply_data data r)) eqn:E; [| reflexivity].
  apply in_set_with_spec in E. destruct E as [_ E].
  exfalso. exact (apply_data_not_pending data r E).
Qed.

(** Updating one PENDING row of a set takes one off the set's PENDING count. *)
Lemma update_rows_count sid rows c data :
  NoDup (map d_id rows) -> In c rows -> in_set_with sid PENDING c = true ->
  S (count_status sid PENDING (update_rows (d_id c) data rows))
  = count_status sid PENDING rows.
Proof.
  unfold count_status.
  induction rows as [|r rest IH]; simpl; intros Hnd Hin Hc; [contradiction |].
  inversion Hnd as [|? ? Hni Hnd']; subst.
  destruct Hin as [-> | Hin].
  - rewrite Nat.eqb_refl, in_set_apply_data, Hc. simpl.
    fold (update_rows (d_id c) data rest). rewrite update_rows_absent; auto.
  - assert ((d_id r =? d_id c) = false) as Hne.
    { apply Nat.eqb_neq. intro E. apply Hni. rewrite E. apply in_map. assumption. }
    rewrite Hne. fold (update_rows (d_id c) data rest).
    specialize (IH Hnd' Hin Hc).
    destruct (in_set_with sid PENDING r); simpl; rewrite <- IH; reflexivity.
Qed.

Lemma process_items_pending_count {G} (admin : Gateway G) m sel ctx sid pending st :
  NoDup (map d_id (ls_rows st)) ->
  NoDup (map d_id pending) ->
  (forall c, In c pending -> In c (ls_rows st) /\ in_set_with sid PENDING c = true) ->
  count_status sid PENDING (ls_rows (snd (process_items admin m sel ctx pending st)))
  + List.length pending
  = count_status sid PENDING (ls_rows st).
Proof.
  revert st. induction pending as [|c rest IH]; intros st Hrows Hpend Hall.
  - simpl. lia.
  - rewrite process_items_cons.
    destruct (item_data admin m sel ctx c (ls_gw st)) as [[data g'] sent].
    destruct (Hall c (or_introl eq_refl)) as [Hc Hcp].
    assert (has_id (d_id c) (ls_rows st) = true) as Hid.
    { apply has_id_In. apply in_map. assumption. }
    rewrite Hid.
    inversion Hpend as [|? ? Hni Hpend']; subst.
    pose proof (update_rows_count sid (ls_rows st) c data Hrows Hc Hcp) as Hone.
    assert (count_status sid PENDING
              (ls_rows (snd (process_items admin m sel ctx rest
                               (mkLoop (update_rows (d_id c) data (ls_rows st)) g'
                                       (S (ls_processedCount st)) (ls_sent st ++ sent)))))
            + List.length rest
            = count_status sid PENDING (update_rows (d_id c) data (ls_rows st))) as Hrest.
    { apply IH.
      - simpl. rewrite update_rows_ids. assumption.
      - assumption.
      - simpl. intros c' Hc'. destruct (Hall c' (or_intror Hc')) as [Hin' Hp'].
        split; [| assumption].
        apply update_rows_other; [assumption |].
        intro E. apply Hni. rewrite <- E. apply in_map. assumption. }
    simpl List.length. lia.
Qed.

Lemma findPending_nil_count sid rows :
  findPending sid rows = [] -> count_status sid PENDING rows = 0.
Proof.
  unfold findPending, count_status.
  destruct (filter (in_set_with sid PENDING) rows); [reflexivity | discriminate].
Qed.

Section Progress.

Context {G : Type} (admin : Gateway G).

(** What a call on a set with PENDING rows achieves when its template is
    served: it processes a full batch, or all that is left. *)
Lemma process_pending_progress sid db g discountSet n :
  store_wf db ->
  findSet sid db = Some discountSet ->
  serves_template admin (ds_masterDiscountId discountSet) ->
  count_status sid PENDING (discounts db) = n ->
  0 < n ->
  let r := process_pending admin sid db g in
  result_processed (run_result r) = Some (Nat.min BATCH_SIZE n)
  /\ result_remaining (run_result r) = Some (n - Nat.min BATCH_SIZE n)
  /\ result_complete (run_result r) = Some (n - Nat.min BATCH_SIZE n =? 0)
  /\ store_wf (run_db r)
  /\ findSet sid (run_db r) = Some discountSet
  /\ count_status sid PENDING (discounts (run_db r)) = n - Nat.min BATCH_SIZE n.
Proof.
  intros Hwf Hset Hserve Hn Hpos r.
  destruct (Hserve g) as [body [m [g1 [Hfetch Hm]]]].
  pose proof (findPending_length sid (discounts db)) as Hlen. rewrite Hn in Hlen.
  assert (findPending sid (discounts db) <> []) as Hne.
  { intro E. rewrite E in Hlen. simpl List.length in Hlen. unfold BATCH_SIZE in Hlen. lia. }
  pose proof (process_pending_wf admin sid db g Hwf) as Hwf'.
  destruct (process_pending_ids admin sid db g) as [_ [_ Hsets]].
  pose proof (process_pending_batch admin sid db g discountSet body g1 m Hset Hne Hfetch Hm)
    as Hrun.
  cbv zeta in Hrun. fold r in Hrun, Hwf', Hsets.
  apply store_wf_spec in Hwf. destruct Hwf as [Hnd _].
  pose proof (process_items_pending_count admin m (buildItemSelection m)
                (buildCustomerContext m) sid (findPending sid (discounts db))
                (mkLoop (discounts db) g1 0 []) Hnd (findPending_NoDup sid _ Hnd)) as Hcount.
  simpl ls_rows in Hcount. rewrite Hn, Hlen in Hcount.
  assert (forall c, In c (findPending sid (discounts db)) ->
                    In c (discounts db) /\ in_set_with sid PENDING c = true) as Hall.
  { intros c Hc. apply findPending_incl in Hc. split; [tauto |].
    apply in_set_with_spec. tauto. }
  specialize (Hcount Hall).
  rewrite Hrun. simpl. rewrite Hlen.
  replace (count_status sid PENDING _) with (n - Nat.min BATCH_SIZE n) by lia.
  repeat split; try reflexivity.
  - rewrite Hrun in Hwf'. exact Hwf'.
  - unfold findSet in *. rewrite Hrun in Hsets. simpl in Hsets |- *. exact Hset.
Qed.

(** The report of a call agrees with the store it leaves. *)
Lemma process_pending_report sid db g complete message processed remaining :
  run_result (process_pending admin sid db g)
  = ProcessResult complete message processed remaining ->
  remaining = count_status sid PENDING (discounts (run_db (process_pending admin sid db g)))
  /\ (complete = true <-> remaining = 0).
Proof.
  unfold process_pending.
  destruct (findSet sid db) as [discountSet|]; [| discriminate].
  destruct (findPending sid (discounts db)) as [|rec rest] eqn:Hp.
  - simpl. intro E. inversion E; subst. rewrite (findPending_nil_count _ _ Hp).
    split; [reflexivity | tauto].
  - destruct (gql_getDiscount admin g (ds_masterDiscountId discountSet)) as [[e | body] g1];
      [discriminate |].
    destruct (response_discount body) as [[|m]|]; [discriminate | | discriminate].
    destruct (process_items admin m (buildItemSelection m) (buildCustomerContext m)
                (rec :: rest) (mkLoop (discounts db) g1 0 [])) as [[e|] st];
      [discriminate |].
    simpl. intro E. inversion E; subst. split; [reflexivity | apply Nat.eqb_eq].
Qed.

End Progress.

(** C5: with the batch size of 5, a set with 12 PENDING rows takes exactly
    three [process_pending] calls when every call gets its template: the
    first two process 5 records each and report [complete = false], the third
    processes 2 and reports [complete = true].  And whatever a call reports,
    [remaining] is the count of PENDING rows of the set in the store it
    leaves, and [complete] holds exactly when that count is 0. *)
Theorem C5_twelve_codes_take_three_calls {G} (admin : Gateway G) sid db g discountSet :
  store_wf db ->
  findSet sid db = Some discountSet ->
  serves_template admin (ds_masterDiscountId discountSet) ->
  count_status sid PENDING (discounts db) = 12 ->
  let r1 := process_pending admin sid db g in
  let r2 := process_pending admin sid (run_db r1) (run_gw r1) in
  let r3 := process_pending admin sid (run_db r2) (run_gw r2) in
  BATCH_SIZE = 5
  /\ (result_processed (run_result r1) = Some 5 /\ result_complete (run_result r1) = Some false)
  /\ (result_processed (run_result r2) = Some 5 /\ result_complete (run_result r2) = Some false)
  /\ (result_processed (run_result r3) = Some 2 /\ result_complete (run_result r3) = Some true)
  /\ (forall sid' db' g' complete message processed remaining,
         run_result (process_pending admin sid' db' g')
         = ProcessResult complete message processed remaining ->
         remaining
         = count_status sid' PENDING (discounts (run_db (process_pending admin sid' db' g')))
         /\ (complete = true <-> remaining = 0)).
Proof.
  intros Hwf Hset Hserve H12 r1 r2 r3.
  destruct (process_pending_progress admin sid db g discountSet 12 Hwf Hset Hserve H12)
    as [Hp1 [_ [Hc1 [Hwf1 [Hset1 Hn1]]]]]; [lia |].
  fold r1 in Hp1, Hc1, Hwf1, Hset1, Hn1.
  destruct (process_pending_progress admin sid (run_db r1) (run_gw r1) discountSet _
              Hwf1 Hset1 Hserve Hn1)
    as [Hp2 [_ [Hc2 [Hwf2 [Hset2 Hn2]]]]]; [simpl; lia |].
  fold r2 in Hp2, Hc2, Hwf2, Hset2, Hn2.
  destruct (process_pending_progress admin sid (run_db r2) (run_gw r2) discountSet _
              Hwf2 Hset2 Hserve Hn2)
    as [Hp3 [_ [Hc3 _]]]; [simpl; lia |].
  fold r3 in Hp3, Hc3.
  split; [reflexivity |].
  split; [split; [exact Hp1 | exact Hc1] |].
  split; [split; [exact Hp2 | exact Hc2] |].
  split; [split; [exact Hp3 | exact Hc3] |].
  intros sid' db' g'. apply process_pending_report.
Qed.

(** The twelve submitted codes against the sample service. *)
Lemma C5_witness_twelve_submitted :
  let r1 := process_pending Sample.shopify 0 Sample.twelve_submitted 0 in
  let r2 := process_pending Sample.shopify 0 (run_db r1) (run_gw r1) in
  let r3 := process_pending Sample.shopify 0 (run_db r2) (run_gw r2) in
  BATCH_SIZE = 5
  /\ (result_processed (run_result r1) = Some 5 /\ result_complete (run_result r1) = Some false)
  /\ (result_processed (run_result r2) = Some 5 /\ result_complete (run_result r2) = Some false)
  /\ (result_processed (run_result r3) = Some 2 /\ result_complete (run_result r3) = Some true)
  /\ (forall sid' db' g' complete message processed remaining,
         run_result (process_pending Sample.shopify sid' db' g')
         = ProcessResult complete message processed remaining ->
         remaining
         = count_status sid' PENDING
             (discounts (run_db (process_pending Sample.shopify sid' db' g')))
         /\ (complete = true <-> remaining = 0)).
Proof.
  apply (C5_twelve_codes_take_three_calls Sample.shopify 0 Sample.twelve_submitted 0
           (mkDiscountSet 0 "Spring set" "flowers.myshopify.com" Sample.master_ref)).
  - vm_compute. reflexivity.
  - vm_compute. reflexivity.
  - intro g. exists (Sample.found (BasicDiscount Sample.ten_percent)), Sample.ten_percent, g.
    split; reflexivity.
  - vm_compute. reflexivity.
Defined.

Example twelve_codes_run :
  let r1 := process_pending Sample.shopify 0 Sample.twelve_submitted 0 in
  let r2 := process_pending Sample.shopify 0 (run_db r1) (run_gw r1) in
  let r3 := process_pending Sample.shopify 0 (run_db r2) (run_gw r2) in
  let r4 := process_pending Sample.shopify 0 (run_db r3) (run_gw r3) in
  run_result r1 = ProcessResult false "Processed 5 discounts. 7 remaining..." 5 7
  /\ run_result r2 = ProcessResult false "Processed 5 discounts. 2 remaining..." 5 2
  /\ run_result r3 = ProcessResult true "Batch complete. Processed 2 discounts." 2 0
  /\ run_result r4 = ProcessResult true "Processing complete. Created: 12, Failed: 0" 0 0
  /\ map status (discounts (run_db r3)) = repeat CREATED 12.
Proof. vm_compute. repeat split. Qed.

(** ** The outcome of each claimed record *)

Section Outcomes.

Context {G : Type} (admin : Gateway G).
Variables (m : DiscountCodeBasic) (sel : ItemsInput) (ctx : ContextInput).

Lemma NoDup_middle (pre post : list Id) i :
  NoDup (pre ++ i :: post) -> ~ In i pre /\ ~ In i post.
Proof.
  intro Hnd. apply NoDup_remove_2 in Hnd.
  split; intro Hin; apply Hnd; apply in_or_app; [left | right]; assumption.
Qed.

(** The row of a claimed record, at the end of the loop, is the claimed row
    with the update its own iteration decided, whatever came before or after
    it in the batch. *)
Lemma process_items_item pre rec post st :
  NoDup (map d_id (pre ++ rec :: post)) ->
  (forall c, In c (pre ++ rec :: post) -> In c (ls_rows st)) ->
  In (apply_data
        (fst (fst (item_data admin m sel ctx rec
                             (gateway_after admin m sel ctx pre (ls_gw st)))))
        rec)
     (ls_rows (snd (process_items admin m sel ctx (pre ++ rec :: post) st))).
Proof.
  intros Hnd Hall. rewrite map_app in Hnd. simpl in Hnd.
  destruct (NoDup_middle _ _ _ Hnd) as [Hpre Hpost].
  assert (fst (process_items admin m sel ctx pre st) = None) as Htot.
  { apply process_items_total. intros c Hc. apply in_map, Hall, in_or_app. left. assumption. }
  rewrite (process_items_app admin m sel ctx pre (rec :: post) st Htot).
  pose proof (process_items_gateway admin m sel ctx pre st Htot) as Hgw.
  assert (In rec (ls_rows (snd (process_items admin m sel ctx pre st)))) as Hrec.
  { apply process_items_frame; [| assumption].
    apply Hall, in_or_app. right. left. reflexivity. }
  rewrite process_items_cons. rewrite <- Hgw.
  destruct (item_data admin m sel ctx rec
              (ls_gw (snd (process_items admin m sel ctx pre st)))) as [[data g'] sent].
  assert (has_id (d_id rec) (ls_rows (snd (process_items admin m sel ctx pre st))) = true)
    as Hid.
  { apply has_id_In. apply in_map. assumption. }
  rewrite Hid. simpl fst. apply process_items_frame.
  - simpl. apply update_rows_hit; [assumption | reflexivity].
  - rewrite apply_data_id. assumption.
Qed.

(** When the template yields a request for every record, the loop sends one
    request per claimed record, in order. *)
Lemma process_items_sent_codes pending st :
  (forall rec, exists input,
      discountInput m sel ctx rec = inr input /\ in_code input = code rec) ->
  fst (process_items admin m sel ctx pending st) = None ->
  map in_code (ls_sent (snd (process_items admin m sel ctx pending st)))
  = map in_code (ls_sent st) ++ map code pending.
Proof.
  intro Hbuild. revert st. induction pending as [|rec rest IH]; intros st.
  - simpl. rewrite app_nil_r. reflexivity.
  - rewrite process_items_cons.
    destruct (item_data admin m sel ctx rec (ls_gw st)) as [[data g'] sent] eqn:Hd.
    assert (map in_code sent = [code rec]) as Hsent.
    { unfold item_data in Hd. destruct (Hbuild rec) as [input [Hi Hc]]. rewrite Hi in Hd.
      destruct (gql_discountCodeBasicCreate admin (ls_gw st) input) as [[e | body] g0];
        inversion Hd; subst; simpl; rewrite Hc; reflexivity. }
    destruct (has_id (d_id rec) (ls_rows st)); [| simpl; discriminate].
    intro Hn. rewrite (IH _ Hn). simpl. rewrite map_app, Hsent, <- app_assoc. reflexivity.
Qed.

End Outcomes.


(** C3: in a [process_pending] call that got its template, every claimed
    record is handled in turn and on its own.  For any record [rec] of the
    claimed batch, with [pre] claimed before it and [post] after it: the call
    reports all claimed records as processed and every one of them has left
    PENDING (no record's failure stops the loop); the row of [rec] records
    the reply to its own request, sent to the gateway as the requests for
    [pre] left it: a rejection with field errors marks it FAILED with the
    joined errors, a created node marks it CREATED with the remote id, a
    thrown error marks it FAILED with the error's message (the text
    [Unknown error] standing in for an empty one); an error thrown while
    building the request marks it FAILED too; and one request per claimed
    record is sent, in order, when the template yields a request at all. *)
Theorem C3_each_item_recorded_on_its_own {G} (admin : Gateway G) sid db g
    discountSet body g1 m pre rec post :
  store_wf db ->
  findSet sid db = Some discountSet ->
  gql_getDiscount admin g (ds_masterDiscountId discountSet) = (Json body, g1) ->
  response_discount body = Some (BasicDiscount m) ->
  findPending sid (discounts db) = pre ++ rec :: post ->
  let sel := buildItemSelection m in
  let ctx := buildCustomerContext m in
  let run := process_pending admin sid db g in
  let g_rec := gateway_after admin m sel ctx pre g1 in
  result_processed (run_result run) = Some (List.length (pre ++ rec :: post))
  /\ (forall c, In c (pre ++ rec :: post) ->
                exists r, In r (discounts (run_db run)) /\ d_id r = d_id c
                          /\ status r <> PENDING)
  /\ (forall input, discountInput m sel ctx rec = inr input ->
                    outcome_recorded admin g_rec input rec (discounts (run_db run)))
  /\ (forall e, discountInput m sel ctx rec = inl e ->
                recorded_as_failed rec (if String.eqb e "" then "Unknown error" else e)
                                   (discounts (run_db run)))
  /\ (forall v, buildValue (cg_value (customerGets m)) = inr v ->
                map in_code (run_sent run) = map code (pre ++ rec :: post)).
Proof.
  intros Hwf Hset Hfetch Hm Hclaim sel ctx run g_rec.
  assert (findPending sid (discounts db) <> []) as Hne.
  { rewrite Hclaim. destruct pre; discriminate. }
  pose proof (process_pending_batch admin sid db g discountSet body g1 m Hset Hne Hfetch Hm)
    as Hrun.
  cbv zeta in Hrun. fold sel ctx run in Hrun. rewrite Hclaim in Hrun.
  apply store_wf_spec in Hwf. destruct Hwf as [Hnd _].
  pose proof (findPending_NoDup sid _ Hnd) as Hnd'. rewrite Hclaim in Hnd'.
  assert (forall c, In c (pre ++ rec :: post) -> In c (discounts db)) as Hall.
  { intros c Hc. rewrite <- Hclaim in Hc. apply findPending_incl in Hc. tauto. }
  set (st0 := mkLoop (discounts db) g1 0 []) in *.
  assert (forall pre' c post', pre ++ rec :: post = pre' ++ c :: post' ->
            In (apply_data
                  (fst (fst (item_data admin m sel ctx c
                                       (gateway_after admin m sel ctx pre' g1)))) c)
               (discounts (run_db run))) as Hitem.
  { intros pre' c post' E. rewrite Hrun. simpl. rewrite E.
    apply (process_items_item admin m sel ctx pre' c post' st0).
    - rewrite <- E. assumption.
    - rewrite <- E. assumption. }
  split; [rewrite Hrun; reflexivity |].
  split.
  { intros c Hc. apply in_split in Hc. destruct Hc as [pre' [post' E]].
    eexists. split; [apply (Hitem pre' c post' E) |].
    split; [apply apply_data_id | apply apply_data_not_pending]. }
  specialize (Hitem pre rec post eq_refl). fold g_rec in Hitem.
  split.
  { intros input Hin. unfold outcome_recorded. unfold item_data in Hitem. rewrite Hin in Hitem.
    destruct (gql_discountCodeBasicCreate admin g_rec input) as [[e | createResult] g'];
      simpl fst in Hitem |- *; cbv beta iota.
    - unfold recorded_as_failed. eexists. split; [exact Hitem |].
      simpl. unfold js_or. repeat split.
    - unfold result_data in Hitem.
      destruct (response_payload createResult) as [p|].
      + destruct (userErrors p) as [[|e es]|]; destruct (codeDiscountNode p) as [n|];
          cbv iota beta; unfold recorded_as_failed, recorded_as_created;
          (eexists; split; [exact Hitem |]; simpl; repeat split).
      + unfold recorded_as_failed. eexists. split; [exact Hitem |]. simpl. repeat split. }
  split.
  { intros e He. unfold item_data in Hitem. rewrite He in Hitem. simpl fst in Hitem.
    unfold recorded_as_failed. eexists. split; [exact Hitem |].
    simpl. unfold js_or. repeat split. }
  intros v Hv. rewrite Hrun. simpl run_sent.
  rewrite (process_items_sent_codes admin m sel ctx (pre ++ rec :: post) st0).
  - reflexivity.
  - intro c. unfold discountInput. rewrite Hv. eexists. split; reflexivity.
  - rewrite <- Hclaim. apply batch_loop_total.
Qed.

(** The first batch of the mixed set, seen from its rejected code: the good
    code before it and the lost connection after it change nothing to it. *)
Lemma C3_witness_rejected_code :
  result_processed (run_result (process_pending Sample.shopify 0 Sample.mixed_submitted 0))
  = Some 5
  /\ recorded_as_failed (Sample.pending_row 2 "DUPLICATE1")
       "basicCodeDiscount,code: Code must be unique"
       (discounts (run_db (process_pending Sample.shopify 0 Sample.mixed_submitted 0)))
  /\ map in_code (run_sent (process_pending Sample.shopify 0 Sample.mixed_submitted 0))
     = ["GOOD1"; "DUPLICATE1"; "TIMEOUT"; "GOOD2"; "SILENT"].
Proof.
  destruct (C3_each_item_recorded_on_its_own Sample.shopify 0 Sample.mixed_submitted 0
              (mkDiscountSet 0 "Mixed set" "flowers.myshopify.com" Sample.master_ref)
              (Sample.found (BasicDiscount Sample.ten_percent)) 0 Sample.ten_percent
              [Sample.pending_row 1 "GOOD1"]
              (Sample.pending_row 2 "DUPLICATE1")
              [Sample.pending_row 3 "TIMEOUT"; Sample.pending_row 4 "GOOD2";
               Sample.pending_row 5 "SILENT"])
    as [Hprocessed [_ [Hrecorded [_ Hsent]]]].
  - vm_compute. reflexivity.
  - vm_compute. reflexivity.
  - vm_compute. reflexivity.
  - vm_compute. reflexivity.
  - vm_compute. reflexivity.
  - split; [exact Hprocessed |]. split.
    + exact (Hrecorded _ eq_refl).
    + exact (Hsent _ eq_refl).
Defined.

(** ** The requests of a batch *)

(** When the template yields a request for every record, the requests the
    loop sends are the ones built for the claimed records, in order. *)
Lemma process_items_sent_all {G} (admin : Gateway G) m sel ctx pending st :
  (forall rec, exists input, discountInput m sel ctx rec = inr input) ->
  fst (process_items admin m sel ctx pending st) = None ->
  exists sent,
    ls_sent (snd (process_items admin m sel ctx pending st)) = ls_sent st ++ sent
    /\ Forall2 (fun rec input => discountInput m sel ctx rec = inr input) pending sent.
Proof.
  intro Hbuild. revert st. induction pending as [|rec rest IH]; intros st.
  - simpl. intros _. exists []. rewrite app_nil_r. split; [reflexivity | constructor].
  - rewrite process_items_cons.
    destruct (item_data admin m sel ctx rec (ls_gw st)) as [[data g'] sent] eqn:Hd.
    assert (exists input, sent = [input] /\ discountInput m sel ctx rec = inr input) as Hsent.
    { unfold item_data in Hd. destruct (Hbuild rec) as [input Hi]. rewrite Hi in Hd.
      exists input. split; [| assumption].
      destruct (gql_discountCodeBasicCreate admin (ls_gw st) input) as [[e | body] g0];
        inversion Hd; reflexivity. }
    destruct Hsent as [input [-> Hinput]].
    destruct (has_id (d_id rec) (ls_rows st)); [| simpl; discriminate].
    intro Hn. destruct (IH _ Hn) as [sent' [Hs Hall]]. simpl in Hs.
    exists (input :: sent'). split.
    + rewrite Hs, <- app_assoc. reflexivity.
    + constructor; assumption.
Qed.

(** The requests of a call that got its template: one per claimed record,
    each the [discountInput] of its record. *)
Lemma process_pending_sent {G} (admin : Gateway G) sid db g discountSet body g1 m v :
  findSet sid db = Some discountSet ->
  gql_getDiscount admin g (ds_masterDiscountId discountSet) = (Json body, g1) ->
  response_discount body = Some (BasicDiscount m) ->
  buildValue (cg_value (customerGets m)) = inr v ->
  Forall2 (fun rec input =>
             discountInput m (buildItemSelection m) (buildCustomerContext m) rec = inr input)
          (findPending sid (discounts db))
          (run_sent (process_pending admin sid db g)).
Proof.
  intros Hset Hfetch Hm Hv.
  destruct (findPending sid (discounts db)) as [|rec rest] eqn:Hp.
  - unfold process_pending. rewrite Hset, Hp. constructor.
  - rewrite (process_pending_batch admin sid db g discountSet body g1 m Hset); auto.
    + simpl run_sent.
      destruct (process_items_sent_all admin m (buildItemSelection m) (buildCustomerContext m)
                  (findPending sid (discounts db)) (mkLoop (discounts db) g1 0 []))
        as [sent [Hs Hall]].
      * intro c. unfold discountInput. rewrite Hv. eexists. reflexivity.
      * apply batch_loop_total.
      * rewrite Hs. simpl. rewrite <- Hp. exact Hall.
    + rewrite Hp. discriminate.
Qed.

(** Every request of a batch carries the usage limit and the
    once-per-customer flag of the template. *)
Lemma requests_copy_usage_limit {G} (admin : Gateway G) sid db g discountSet body g1 m v :
  findSet sid db = Some discountSet ->
  gql_getDiscount admin g (ds_masterDiscountId discountSet) = (Json body, g1) ->
  response_discount body = Some (BasicDiscount m) ->
  buildValue (cg_value (customerGets m)) = inr v ->
  Forall2 (fun rec input =>
             in_code input = code rec
             /\ in_usageLimit input = usageLimit m
             /\ in_appliesOncePerCustomer input = appliesOncePerCustomer m)
          (findPending sid (discounts db))
          (run_sent (process_pending admin sid db g)).
Proof.
  intros Hset Hfetch Hm Hv.
  pose proof (process_pending_sent admin sid db g discountSet body g1 m v Hset Hfetch Hm Hv)
    as Hall.
  induction Hall as [|rec input recs inputs Hin _ IH]; constructor; [| exact IH].
  unfold discountInput in Hin. rewrite Hv in Hin. inversion Hin. simpl. auto.
Qed.

(** C1: the requests of a batch do not force single use: on a template that
    may be used a hundred times, more than once per customer, every request
    of the first batch of the twelve submitted codes carries usage limit 100
    and once-per-customer false, as the template does. *)
Theorem C1_requests_carry_the_template_usage_limit :
  usageLimit Sample.ten_percent = Some 100%Z
  /\ appliesOncePerCustomer Sample.ten_percent = false
  /\ map (fun input => (in_code input, in_usageLimit input, in_appliesOncePerCustomer input))
         (run_sent (process_pending Sample.shopify 0 Sample.twelve_submitted 0))
     = [("A01", Some 100%Z, false); ("A02", Some 100%Z, false); ("A03", Some 100%Z, false);
        ("A04", Some 100%Z, false); ("A05", Some 100%Z, false)].
Proof. vm_compute. repeat split. Qed.

(** C9: on the template with percentage 10 and all items, the request for
    the code [A01] carries the value [{ percentage: 10 }] and a selection of
    all items, but that selection is written [{ all: "ALL" }], with the
    string the customer context takes, and not [{ all: true }]. *)
Theorem C9_all_items_selection_is_sent_as_a_string :
  percentage (cg_value (customerGets Sample.ten_percent)) = Some (10 # 1)
  /\ allItems (cg_items (customerGets Sample.ten_percent)) = Some true
  /\ exists input,
       In input (run_sent (process_pending Sample.shopify 0 Sample.twelve_submitted 0))
       /\ in_code input = "A01"
       /\ in_value input = ValuePercentage (10 # 1)
       /\ in_items input = ItemsAll (JString "ALL")
       /\ in_items input <> ItemsAll (JBool true).
Proof.
  split; [reflexivity |]. split; [reflexivity |].
  eexists. split; [vm_compute; left; reflexivity |].
  simpl. repeat split. discriminate.
Qed.

(** What does hold of the requests of such a template: a call sends one
    request per claimed record, carrying the record's code, the value
    [{ percentage: 10 }] and the selection of all items as
    [buildItemSelection] writes it, whatever the code. *)
Lemma requests_carry_percentage_and_all_items {G} (admin : Gateway G) sid db g
    discountSet body g1 m :
  findSet sid db = Some discountSet ->
  gql_getDiscount admin g (ds_masterDiscountId discountSet) = (Json body, g1) ->
  response_discount body = Some (BasicDiscount m) ->
  percentage (cg_value (customerGets m)) = Some (10 # 1) ->
  allItems (cg_items (customerGets m)) = Some true ->
  Forall2 (fun rec input =>
             in_code input = code rec
             /\ in_value input = ValuePercentage (10 # 1)
             /\ in_items input = ItemsAll (JString "ALL"))
          (findPending sid (discounts db))
          (run_sent (process_pending admin sid db g)).
Proof.
  intros Hset Hfetch Hm Hpct Hall.
  assert (buildValue (cg_value (customerGets m)) = inr (ValuePercentage (10 # 1))) as Hv.
  { unfold buildValue. rewrite Hpct. reflexivity. }
  assert (buildItemSelection m = ItemsAll (JString "ALL")) as Hsel.
  { unfold buildItemSelection. rewrite Hall. reflexivity. }
  pose proof (process_pending_sent admin sid db g discountSet body g1 m _ Hset Hfetch Hm Hv)
    as Hsent.
  induction Hsent as [|rec input recs inputs Hin _ IH]; constructor; [| exact IH].
  unfold discountInput in Hin. rewrite Hv, Hsel in Hin. inversion Hin. simpl. auto.
Qed.

Example requests_of_the_twelve_submitted :
  Forall2 (fun rec input =>
             in_code input = code rec
             /\ in_value input = ValuePercentage (10 # 1)
             /\ in_items input = ItemsAll (JString "ALL"))
          (findPending 0 (discounts Sample.twelve_submitted))
          (run_sent (process_pending Sample.shopify 0 Sample.twelve_submitted 0)).
Proof.
  apply (requests_carry_percentage_and_all_items Sample.shopify 0 Sample.twelve_submitted 0
           (mkDiscountSet 0 "Spring set" "flowers.myshopify.com" Sample.master_ref)
           (Sample.found (BasicDiscount Sample.ten_percent)) 0 Sample.ten_percent).
  - vm_compute. reflexivity.
  - vm_compute. reflexivity.
  - reflexivity.
  - reflexivity.
  - reflexivity.
Qed.

(** * Further properties of the handlers *)

Example parse_codes_sample :
  parse_codes Sample2.csv_text = ["SAVE10"; "HOLIDAY20"; "BLACK FRIDAY"].
Proof. vm_compute. reflexivity. Qed.

(** ** The master discount id *)

(** X1: the formatted master discount id always starts with [gid://], and
    formatting is idempotent: an id that was formatted once is stored and
    sent as it is. *)
Theorem X1_formatted_id_is_a_gid (masterDiscountId0 : string) :
  String.prefix "gid://" (formatMasterDiscountId masterDiscountId0) = true
  /\ formatMasterDiscountId (formatMasterDiscountId masterDiscountId0)
     = formatMasterDiscountId masterDiscountId0.
Proof.
  assert (String.prefix "gid://" (formatMasterDiscountId masterDiscountId0) = true) as Hp.
  { unfold formatMasterDiscountId.
    destruct (String.prefix "gid://" masterDiscountId0) eqn:E; [exact E | reflexivity]. }
  split; [exact Hp |].
  unfold formatMasterDiscountId at 1. rewrite Hp. reflexivity.
Qed.

(** ** Calls with nothing to do *)

Lemma count_zero_findPending sid rows :
  count_status sid PENDING rows = 0 -> findPending sid rows = [].
Proof.
  unfold count_status, findPending.
  destruct (filter (in_set_with sid PENDING) rows); [reflexivity | discriminate].
Qed.

Lemma in_set_with_belongs sid st r :
  in_set_with sid st r = belongs_to sid r && status_eqb (status r) st.
Proof.
  unfold in_set_with, belongs_to. destruct (discountSetId r); reflexivity.
Qed.

(** The rows of a set split into the three statuses. *)
Lemma count_by_status sid rows :
  List.length (filter (belongs_to sid) rows)
  = count_status sid PENDING rows + count_status sid CREATED rows
    + count_status sid FAILED rows.
Proof.
  unfold count_status. induction rows as [|r rest IH]; [reflexivity |].
  simpl. rewrite !in_set_with_belongs.
  destruct (belongs_to sid r); simpl; [| exact IH].
  destruct (status r); simpl; rewrite IH; lia.
Qed.

(** X2: a [process_pending] call on a set with no PENDING row makes no remote
    call at all (the gateway is left as it was, no template is fetched),
    leaves the store as it was, and reports completion with counts of
    CREATED and FAILED rows that add up to the rows of the set. *)
Theorem X2_idle_call_touches_nothing {G} (admin : Gateway G) sid db g discountSet :
  findSet sid db = Some discountSet ->
  count_status sid PENDING (discounts db) = 0 ->
  let created := count_status sid CREATED (discounts db) in
  let failed := count_status sid FAILED (discounts db) in
  process_pending admin sid db g
  = mkRun (ProcessResult true
             ("Processing complete. Created: " ++ string_of_nat created
              ++ ", Failed: " ++ string_of_nat failed) 0 0)
          db g []
  /\ created + failed = List.length (filter (belongs_to sid) (discounts db)).
Proof.
  intros Hset Hzero created failed. split.
  - unfold process_pending. rewrite Hset, (count_zero_findPending _ _ Hzero). reflexivity.
  - rewrite count_by_status, Hzero. reflexivity.
Qed.

Lemma X2_witness_finished_set :
  let db := snd (fst (run_calls Sample.shopify (repeat (ProcessPending 0) 3)
                                Sample.twelve_submitted 0)) in
  process_pending Sample.unreachable 0 db 7
  = mkRun (ProcessResult true "Processing complete. Created: 12, Failed: 0" 0 0) db 7 []
  /\ 12 + 0 = List.length (filter (belongs_to 0) (discounts db)).
Proof.
  apply (X2_idle_call_touches_nothing Sample.unreachable 0
           (snd (fst (run_calls Sample.shopify (repeat (ProcessPending 0) 3)
                                Sample.twelve_submitted 0))) 7
           (mkDiscountSet 0 "Spring set" "flowers.myshopify.com" Sample.master_ref)).
  - vm_compute. reflexivity.
  - vm_compute. reflexivity.
Defined.

(** ** What a call never changes *)

(** ** What a call never changes *)

Lemma same_columns_refl r : same_columns r r.
Proof. unfold same_columns. tauto. Qed.

Lemma same_columns_trans a b c : same_columns a b -> same_columns b c -> same_columns a c.
Proof. unfold same_columns. intuition congruence. Qed.

Lemma apply_data_columns data r : same_columns r (apply_data data r).
Proof. destruct data; unfold same_columns; simpl; tauto. Qed.

Lemma Forall2_same_columns_refl rows : Forall2 same_columns rows rows.
Proof. induction rows; constructor; [apply same_columns_refl | assumption]. Qed.

Lemma Forall2_same_columns_update id data rows0 rows :
  Forall2 same_columns rows0 rows ->
  Forall2 same_columns rows0 (update_rows id data rows).
Proof.
  induction 1 as [|r0 r rows0 rows Hr _ IH]; simpl; constructor; [| exact IH].
  destruct (d_id r =? id); [| exact Hr].
  apply (same_columns_trans _ r); [exact Hr | apply apply_data_columns].
Qed.

Lemma process_pending_columns {G} (admin : Gateway G) sid db g :
  Forall2 same_columns (discounts db) (discounts (run_db (process_pending admin sid db g))).
Proof.
  unfold process_pending.
  destruct (findSet sid db) as [discountSet|]; [| apply Forall2_same_columns_refl].
  destruct (findPending sid (discounts db)) as [|rec rest];
    [apply Forall2_same_columns_refl |].
  destruct (gql_getDiscount admin g (ds_masterDiscountId discountSet)) as [[e | body] g1];
    [apply Forall2_same_columns_refl |].
  destruct (response_discount body) as [[|m]|]; try apply Forall2_same_columns_refl.
  pose proof (process_items_rows_ind admin m (buildItemSelection m) (buildCustomerContext m)
                (fun _ rows => Forall2 same_columns (discounts db) rows)) as Hind.
  specialize (Hind (fun rec0 rest0 rows data H => Forall2_same_columns_update _ data _ rows H)
                   (fun _ _ rows H => H)
                   (rec :: rest) (mkLoop (discounts db) g1 0 [])
                   (Forall2_same_columns_refl _)).
  destruct (process_items admin m (buildItemSelection m) (buildCustomerContext m)
              (rec :: rest) (mkLoop (discounts db) g1 0 [])) as [[e|] st];
    simpl in Hind |- *; exact Hind.
Qed.

(** X3: whatever it returns, a [process_pending] call keeps every row in its
    place with its id, shop, code, master discount id and set, and keeps the
    sets: it writes nothing but the status, the remote id and the error
    message of rows. *)
Theorem X3_processing_keeps_the_submitted_columns {G} (admin : Gateway G) sid db g :
  Forall2 same_columns (discounts db) (discounts (run_db (process_pending admin sid db g)))
  /\ discountSets (run_db (process_pending admin sid db g)) = discountSets db.
Proof.
  split; [apply process_pending_columns | apply process_pending_ids].
Qed.

(** X4: a [process_pending] call on one set leaves every row of another set,
    and every row without a set, exactly as it was. *)
Theorem X4_processing_leaves_other_sets_alone {G} (admin : Gateway G) sid db g r :
  store_wf db ->
  In r (discounts db) ->
  discountSetId r <> Some sid ->
  In r (discounts (run_db (process_pending admin sid db g))).
Proof.
  intros Hwf Hin Hother. apply process_pending_frame; [assumption |].
  intro Hclaimed. apply store_wf_spec in Hwf. destruct Hwf as [Hnd _].
  apply in_map_iff in Hclaimed. destruct Hclaimed as [c [E Hc]].
  apply findPending_incl in Hc. destruct Hc as [Hc [Hs _]].
  assert (c = r) by (apply (unique_row (discounts db)); assumption).
  subst c. contradiction.
Qed.

(** The second set is processed while the first still has PENDING rows: the
    call claims [B01] and [B02] and leaves [GOOD3] of the first set alone. *)
Lemma X4_witness_second_set :
  In (Sample.pending_row 6 "GOOD3")
     (discounts (run_db (process_pending Sample.shopify 8
        (run_db (create_discounts Sample.shopify "flowers.myshopify.com" Sample.master_ref
                                  "Second set" ["B01"; "B02"] Sample.mixed_after_one 2))
        2)))
  /\ map code (findPending 8
        (discounts (run_db (create_discounts Sample.shopify "flowers.myshopify.com"
                              Sample.master_ref "Second set" ["B01"; "B02"]
                              Sample.mixed_after_one 2))))
     = ["B01"; "B02"].
Proof.
  split; [| vm_compute; reflexivity].
  apply (X4_processing_leaves_other_sets_alone Sample.shopify 8
           (run_db (create_discounts Sample.shopify "flowers.myshopify.com" Sample.master_ref
                                     "Second set" ["B01"; "B02"] Sample.mixed_after_one 2))
           2).
  - vm_compute. reflexivity.
  - vm_compute. tauto.
  - simpl. discriminate.
Defined.

(** ** The requests of a call *)

(** Every request the loop sends is the [discountInput] of a claimed record. *)
Lemma process_items_requests {G} (admin : Gateway G) m sel ctx pending st input :
  In input (ls_sent (snd (process_items admin m sel ctx pending st))) ->
  In input (ls_sent st)
  \/ exists rec, In rec pending /\ discountInput m sel ctx rec = inr input.
Proof.
  revert st. induction pending as [|rec rest IH]; intros st.
  - simpl. auto.
  - rewrite process_items_cons.
    destruct (item_data admin m sel ctx rec (ls_gw st)) as [[data g'] sent] eqn:Hd.
    assert (forall i, In i sent -> discountInput m sel ctx rec = inr i) as Hsent.
    { unfold item_data in Hd.
      destruct (discountInput m sel ctx rec) as [e | i0].
      - inversion Hd; subst. intros i [].
      - destruct (gql_discountCodeBasicCreate admin (ls_gw st) i0) as [[e | body] g0];
          inversion Hd; subst; intros i [<- | []]; reflexivity. }
    assert (In input (ls_sent st ++ sent) ->
            In input (ls_sent st)
            \/ exists rec0, In rec0 (rec :: rest)
                            /\ discountInput m sel ctx rec0 = inr input) as Hhere.
    { intro Hin. apply in_app_or in Hin. destruct Hin as [Hin | Hin]; [left; assumption |].
      right. exists rec. split; [left; reflexivity | apply Hsent; assumption]. }
    destruct (has_id (d_id rec) (ls_rows st)); [| exact Hhere].
    intro Hin. apply IH in Hin. simpl in Hin. destruct Hin as [Hin | [rec' [Hr E]]].
    + apply Hhere. assumption.
    + right. exists rec'. split; [right; assumption | assumption].
Qed.

Lemma discountInput_same_but_code m sel ctx r1 r2 a b :
  discountInput m sel ctx r1 = inr a -> discountInput m sel ctx r2 = inr b ->
  same_but_code a b.
Proof.
  unfold discountInput. destruct (buildValue (cg_value (customerGets m))); [discriminate |].
  intros Ea Eb. inversion Ea. inversion Eb. unfold same_but_code. simpl. tauto.
Qed.

(** X5: the creation requests of one [process_pending] call differ at most in
    their code, and the code of each is the code of a record the call
    claimed: title, dates, context, value, items, minimum requirement, usage
    limit and once-per-customer are the same for the whole batch. *)
Theorem X5_requests_of_a_call_differ_only_in_code {G} (admin : Gateway G) sid db g a b :
  In a (run_sent (process_pending admin sid db g)) ->
  In b (run_sent (process_pending admin sid db g)) ->
  same_but_code a b
  /\ exists rec, In rec (findPending sid (discounts db)) /\ in_code a = code rec.
Proof.
  unfold process_pending.
  destruct (findSet sid db) as [discountSet|]; [| intros []].
  destruct (findPending sid (discounts db)) as [|rec rest]; [intros [] |].
  destruct (gql_getDiscount admin g (ds_masterDiscountId discountSet)) as [[e | body] g1];
    [intros [] |].
  destruct (response_discount body) as [[|m]|]; try (intros []).
  pose proof (process_items_requests admin m (buildItemSelection m) (buildCustomerContext m)
                (rec :: rest) (mkLoop (discounts db) g1 0 [])) as Hreq.
  assert (forall a b,
             In a (ls_sent (snd (process_items admin m (buildItemSelection m)
                                   (buildCustomerContext m) (rec :: rest)
                                   (mkLoop (discounts db) g1 0 [])))) ->
             In b (ls_sent (snd (process_items admin m (buildItemSelection m)
                                   (buildCustomerContext m) (rec :: rest)
                                   (mkLoop (discounts db) g1 0 [])))) ->
             same_but_code a b
             /\ exists rec0, In rec0 (rec :: rest) /\ in_code a = code rec0) as Hall.
  { intros a0 b0 Ha Hb.
    destruct (Hreq a0 Ha) as [[] | [ra [Hra Ea]]].
    destruct (Hreq b0 Hb) as [[] | [rb [Hrb Eb]]].
    split; [apply (discountInput_same_but_code _ _ _ _ _ _ _ Ea Eb) |].
    exists ra. split; [assumption |].
    unfold discountInput in Ea.
    destruct (buildValue (cg_value (customerGets m))); [discriminate |].
    inversion Ea. reflexivity. }
  destruct (process_items admin m (buildItemSelection m) (buildCustomerContext m)
              (rec :: rest) (mkLoop (discounts db) g1 0 [])) as [[e|] st];
    simpl in Hall |- *; apply Hall.
Qed.

Lemma X5_witness_mixed_set :
  same_but_code
    (nth 0 (run_sent (process_pending Sample.shopify 0 Sample.mixed_submitted 0))
         (mkInput "" "" "" None (ContextAll (JBool true)) (ValuePercentage 0)
                  (ItemsAll (JBool true)) None None false))
    (nth 4 (run_sent (process_pending Sample.shopify 0 Sample.mixed_submitted 0))
         (mkInput "" "" "" None (ContextAll (JBool true)) (ValuePercentage 0)
                  (ItemsAll (JBool true)) None None false))
  /\ exists rec, In rec (findPending 0 (discounts Sample.mixed_submitted))
                 /\ "GOOD1" = code rec.
Proof.
  apply (X5_requests_of_a_call_differ_only_in_code Sample.shopify 0 Sample.mixed_submitted 0).
  - vm_compute. tauto.
  - vm_compute. tauto.
Defined.

(** ** A template without a usable value *)

Lemma buildValue_error v e :
  buildValue v = inl e -> e = type_error_reading "amount".
Proof.
  unfold buildValue. destruct (percentage v) as [p|].
  - destruct (truthy_number p); [discriminate |].
    destruct (value_amount v); [discriminate |]. intro E. inversion E. reflexivity.
  - destruct (value_amount v); [discriminate |]. intro E. inversion E. reflexivity.
Qed.

(** When no request can be built, the loop talks to nobody. *)
Lemma process_items_silent {G} (admin : Gateway G) m sel ctx e pending st :
  buildValue (cg_value (customerGets m)) = inl e ->
  ls_sent (snd (process_items admin m sel ctx pending st)) = ls_sent st
  /\ ls_gw (snd (process_items admin m sel ctx pending st)) = ls_gw st.
Proof.
  intro Hv. revert st. induction pending as [|rec rest IH]; intros st.
  - split; reflexivity.
  - rewrite process_items_cons. unfold item_data, discountInput. rewrite Hv.
    destruct (has_id (d_id rec) (ls_rows st)).
    + destruct (IH (mkLoop (update_rows (d_id rec) (SetFailed (js_or e "Unknown error"))
                                        (ls_rows st))
                           (ls_gw st) (S (ls_processedCount st)) (ls_sent st ++ [])))
        as [Hs Hg].
      rewrite Hs, Hg. simpl. rewrite app_nil_r. split; reflexivity.
    + simpl. rewrite app_nil_r. split; reflexivity.
Qed.

(** X6: when the master discount exposes neither a truthy percentage nor an
    amount, a [process_pending] call that claimed records sends no creation
    request and leaves the gateway as the template fetch left it, yet it
    reports every claimed record as processed and marks each of them FAILED
    with the text of the [TypeError] raised while building its request. *)
Theorem X6_unusable_value_fails_every_item {G} (admin : Gateway G) sid db g
    discountSet body g1 m e :
  store_wf db ->
  findSet sid db = Some discountSet ->
  findPending sid (discounts db) <> [] ->
  gql_getDiscount admin g (ds_masterDiscountId discountSet) = (Json body, g1) ->
  response_discount body = Some (BasicDiscount m) ->
  buildValue (cg_value (customerGets m)) = inl e ->
  let run := process_pending admin sid db g in
  run_sent run = []
  /\ run_gw run = g1
  /\ result_processed (run_result run) = Some (List.length (findPending sid (discounts db)))
  /\ (forall c, In c (findPending sid (discounts db)) ->
                recorded_as_failed c "Cannot read properties of undefined (reading 'amount')"
                                   (discounts (run_db run))).
Proof.
  intros Hwf Hset Hne Hfetch Hm Hv run.
  pose proof (process_pending_batch admin sid db g discountSet body g1 m Hset Hne Hfetch Hm)
    as Hrun. cbv zeta in Hrun. fold run in Hrun.
  set (sel := buildItemSelection m) in *. set (ctx := buildCustomerContext m) in *.
  set (st0 := mkLoop (discounts db) g1 0 []) in *.
  destruct (process_items_silent admin m sel ctx e (findPending sid (discounts db)) st0 Hv)
    as [Hsent Hgw].
  rewrite Hrun. simpl. split; [exact Hsent |]. split; [exact Hgw |].
  split; [reflexivity |].
  intros c Hc. apply in_split in Hc. destruct Hc as [pre [post E]].
  apply store_wf_spec in Hwf. destruct Hwf as [Hnd _].
  pose proof (process_items_item admin m sel ctx pre c post st0) as Hitem.
  rewrite <- E in Hitem.
  specialize (Hitem (findPending_NoDup sid _ Hnd)).
  assert (forall c0, In c0 (findPending sid (discounts db)) -> In c0 (ls_rows st0)) as Hall.
  { intros c0 Hc0. apply findPending_incl in Hc0. simpl. tauto. }
  specialize (Hitem Hall).
  unfold item_data, discountInput in Hitem. rewrite Hv in Hitem. simpl fst in Hitem.
  rewrite (buildValue_error _ _ Hv) in Hitem.
  unfold recorded_as_failed. eexists. split; [exact Hitem |]. simpl. repeat split.
Qed.

Lemma X6_witness_odd_value :
  let run := process_pending Sample2.odd_shop 0 Sample.twelve_submitted 0 in
  run_sent run = []
  /\ run_gw run = 0
  /\ result_processed (run_result run)
     = Some (List.length (findPending 0 (discounts Sample.twelve_submitted)))
  /\ (forall c, In c (findPending 0 (discounts Sample.twelve_submitted)) ->
                recorded_as_failed c "Cannot read properties of undefined (reading 'amount')"
                                   (discounts (run_db run))).
Proof.
  apply (X6_unusable_value_fails_every_item Sample2.odd_shop 0 Sample.twelve_submitted 0
           (mkDiscountSet 0 "Spring set" "flowers.myshopify.com" Sample.master_ref)
           (Sample.found (BasicDiscount Sample2.odd_value)) 0 Sample2.odd_value
           (type_error_reading "amount")).
  - vm_compute. reflexivity.
  - vm_compute. reflexivity.
  - vm_compute. discriminate.
  - vm_compute. reflexivity.
  - reflexivity.
  - reflexivity.
Defined.

Example odd_value_run :
  run_result (process_pending Sample2.odd_shop 0 Sample.twelve_submitted 0)
  = ProcessResult false "Processed 5 discounts. 7 remaining..." 5 7
  /\ map status (discounts (run_db (process_pending Sample2.odd_shop 0
                                                     Sample.twelve_submitted 0)))
     = repeat FAILED 5 ++ repeat PENDING 7.
Proof. vm_compute. split; reflexivity. Qed.

(** ** Retrying, in numbers *)

Lemma status_eqb_refl st : status_eqb st st = true.
Proof. destruct st; reflexivity. Qed.

(** What the [updateMany] of [retry_failed] does to the filters of one row. *)
Lemma retried_row_filters sid r :
  let r' := if in_set_with sid FAILED r then reset_to_pending r else r in
  in_set_with sid FAILED r' = false
  /\ in_set_with sid PENDING r' = in_set_with sid PENDING r || in_set_with sid FAILED r
  /\ in_set_with sid CREATED r' = in_set_with sid CREATED r
  /\ (forall sid' st, sid' <> sid -> in_set_with sid' st r' = in_set_with sid' st r).
Proof.
  unfold in_set_with. destruct (discountSetId r) as [s|] eqn:Hs.
  - destruct (s =? sid) eqn:E.
    + apply Nat.eqb_eq in E. subst s.
      destruct (status r) eqn:Hst; simpl; rewrite ?Hs, ?Hst, ?Nat.eqb_refl; simpl;
        repeat split; try reflexivity;
        intros sid' st Hne; apply Nat.eqb_neq in Hne; rewrite Nat.eqb_sym, Hne; reflexivity.
    + simpl. rewrite Hs, E. simpl. repeat split; reflexivity.
  - simpl. rewrite Hs. repeat split; reflexivity.
Qed.

(** X7: after [retry_failed] on a set, the set has no FAILED row, its PENDING
    rows are the former PENDING and FAILED rows together, its CREATED count
    is unchanged, and the counts of every other set are unchanged.  The
    number in the message, and [needsProcessing], are about all PENDING rows
    of the set, those that were PENDING before included. *)
Theorem X7_retry_moves_failed_to_pending sid db :
  let pending := count_status sid PENDING (discounts db) in
  let failed := count_status sid FAILED (discounts db) in
  let db' := snd (retry_failed sid db) in
  count_status sid FAILED (discounts db') = 0
  /\ count_status sid PENDING (discounts db') = pending + failed
  /\ count_status sid CREATED (discounts db') = count_status sid CREATED (discounts db)
  /\ (forall sid' st, sid' <> sid ->
        count_status sid' st (discounts db') = count_status sid' st (discounts db))
  /\ fst (retry_failed sid db)
     = RetryResult (string_of_nat (pending + failed)
                    ++ " failed discounts have been queued for retry.")
                   sid (0 <? pending + failed).
Proof.
  intros pending failed db'.
  assert (count_status sid FAILED (discounts db') = 0
          /\ count_status sid PENDING (discounts db') = pending + failed
          /\ count_status sid CREATED (discounts db') = count_status sid CREATED (discounts db)
          /\ (forall sid' st, sid' <> sid ->
                count_status sid' st (discounts db') = count_status sid' st (discounts db)))
    as H.
  { unfold db', pending, failed. simpl. unfold discount_updateMany_failed, count_status.
    induction (discounts db) as [|r rows IH]; [simpl; auto |].
    destruct IH as [IHf [IHp [IHc IHo]]].
    destruct (retried_row_filters sid r) as [Hf [Hp [Hc Ho]]]. cbv zeta in Hf, Hp, Hc, Ho.
    simpl. rewrite Hf, Hp, Hc.
    split; [exact IHf |]. split; [| split].
    - destruct (in_set_with sid PENDING r) eqn:E1; destruct (in_set_with sid FAILED r) eqn:E2;
        simpl; rewrite IHp; try lia.
      apply in_set_with_spec in E1. apply in_set_with_spec in E2.
      destruct E1 as [_ E1], E2 as [_ E2]. rewrite E1 in E2. discriminate E2.
    - destruct (in_set_with sid CREATED r); simpl; rewrite IHc; reflexivity.
    - intros sid' st Hne. rewrite (Ho sid' st Hne).
      destruct (in_set_with sid' st r); simpl; rewrite (IHo sid' st Hne); reflexivity. }
  destruct H as [Hf [Hp [Hc Ho]]]. repeat split; try assumption.
  unfold retry_failed. simpl. unfold db' in Hp. simpl in Hp. rewrite Hp. reflexivity.
Qed.

(** X8: [retry_failed] is idempotent: a second retry on the same set changes
    nothing and returns the same answer. *)
Theorem X8_retry_twice_is_retry_once sid db :
  retry_failed sid (snd (retry_failed sid db)) = retry_failed sid db.
Proof.
  assert (discount_updateMany_failed sid (discount_updateMany_failed sid (discounts db))
          = discount_updateMany_failed sid (discounts db)) as Hrows.
  { unfold discount_updateMany_failed. rewrite map_map. apply map_ext. intro r.
    destruct (retried_row_filters sid r) as [Hf _]. cbv zeta in Hf. rewrite Hf. reflexivity. }
  unfold retry_failed. simpl. rewrite Hrows. reflexivity.
Qed.

(** ** Polling to the end *)

Lemma run_calls_cons {G} (admin : Gateway G) c rest db g :
  snd (fst (run_calls admin (c :: rest) db g))
  = snd (fst (run_calls admin rest (run_db (call_run admin c db g))
                        (run_gw (call_run admin c db g)))).
Proof.
  simpl.
  destruct (run_calls admin rest (run_db (call_run admin c db g))
                      (run_gw (call_run admin c db g))) as [[claims db'] g'].
  reflexivity.
Qed.

Lemma process_pending_idle {G} (admin : Gateway G) sid db g :
  count_status sid PENDING (discounts db) = 0 ->
  run_db (process_pending admin sid db g) = db.
Proof.
  intro Hzero. unfold process_pending.
  rewrite (count_zero_findPending _ _ Hzero).
  destruct (findSet sid db); reflexivity.
Qed.

(** X9: polling drives a set to completion.  On a store with [n] PENDING rows
    in the set, with the template served at every call, [k] successive
    [process_pending] calls leave [n - 5 k] rows PENDING (none once
    [5 k >= n]), whatever the outcome of each creation. *)
Theorem X9_polling_drains_the_set {G} (admin : Gateway G) sid discountSet k :
  forall db g n,
    store_wf db ->
    findSet sid db = Some discountSet ->
    serves_template admin (ds_masterDiscountId discountSet) ->
    count_status sid PENDING (discounts db) = n ->
    count_status sid PENDING
      (discounts (snd (fst (run_calls admin (repeat (ProcessPending sid) k) db g))))
    = n - BATCH_SIZE * k.
Proof.
  induction k as [|k IH]; intros db g n Hwf Hset Hserve Hn.
  - simpl run_calls. simpl snd. rewrite Hn. unfold BATCH_SIZE. lia.
  - simpl repeat. rewrite run_calls_cons. simpl call_run.
    destruct n as [|n'].
    + rewrite (process_pending_idle admin sid db g Hn).
      rewrite (IH db _ 0 Hwf Hset Hserve Hn). reflexivity.
    + destruct (process_pending_progress admin sid db g discountSet (S n')
                  Hwf Hset Hserve Hn (Nat.lt_0_succ n'))
        as [_ [_ [_ [Hwf' [Hset' Hn']]]]].
      rewrite (IH _ _ _ Hwf' Hset' Hserve Hn').
      unfold BATCH_SIZE. lia.
Qed.

Lemma X9_witness_twelve_submitted :
  count_status 0 PENDING
    (discounts (snd (fst (run_calls Sample.shopify (repeat (ProcessPending 0) 2)
                                    Sample.twelve_submitted 0))))
  = 12 - BATCH_SIZE * 2.
Proof.
  apply (X9_polling_drains_the_set Sample.shopify 0
           (mkDiscountSet 0 "Spring set" "flowers.myshopify.com" Sample.master_ref) 2
           Sample.twelve_submitted 0 12).
  - vm_compute. reflexivity.
  - vm_compute. reflexivity.
  - intro g. exists (Sample.found (BasicDiscount Sample.ten_percent)), Sample.ten_percent, g.
    split; reflexivity.
  - vm_compute. reflexivity.
Defined.

(** ** Consistency of the store *)

Lemma shop_codes_distinct_spec rows :
  shop_codes_distinct rows = true <-> NoDup (map shop_code rows).
Proof.
  induction rows as [|r rest IH]; simpl.
  - split; [constructor | reflexivity].
  - rewrite andb_true_iff, negb_true_iff, IH. split.
    + intros [Hn Hd]. constructor; [| assumption].
      intro Hin. apply in_map_iff in Hin. destruct Hin as [r' [E Hr']].
      assert (existsb (fun r' => String.eqb (d_shop r') (d_shop r)
                                 && String.eqb (code r') (code r)) rest = true) as Ht.
      { apply existsb_exists. exists r'. split; [assumption |].
        unfold shop_code in E. inversion E. rewrite !String.eqb_refl. reflexivity. }
      rewrite Ht in Hn. discriminate Hn.
    + intro Hnd. inversion Hnd as [|? ? Hni Hd]; subst. split; [| assumption].
      destruct (existsb _ rest) eqn:Ht; [| reflexivity].
      exfalso. apply existsb_exists in Ht. destruct Ht as [r' [Hr' E]].
      apply andb_true_iff in E. destruct E as [E1 E2].
      apply String.eqb_eq in E1. apply String.eqb_eq in E2.
      apply Hni. apply in_map_iff. exists r'. split; [| assumption].
      unfold shop_code. rewrite E1, E2. reflexivity.
Qed.

Lemma sets_wfb_spec db :
  sets_wfb db = true <->
  NoDup (map ds_id (discountSets db))
  /\ (forall s, In s (discountSets db) -> ds_id s < next_id db).
Proof.
  unfold sets_wfb. rewrite andb_true_iff, distinct_NoDup, forallb_forall.
  split; intros [Hn Hb]; (split; [assumption |]); intros s Hs;
    specialize (Hb s Hs); apply Nat.ltb_lt; assumption.
Qed.

Lemma refers_to_setb_spec sets r :
  refers_to_setb sets r = true <-> refers_to_set sets r.
Proof.
  unfold refers_to_setb, refers_to_set. destruct (discountSetId r) as [sid|].
  - rewrite existsb_exists. split.
    + intros [s [Hs E]] sid' E'. inversion E'; subst sid'.
      apply andb_true_iff in E. destruct E as [E E3].
      apply andb_true_iff in E. destruct E as [E1 E2].
      exists s. apply Nat.eqb_eq in E1. apply String.eqb_eq in E2. apply String.eqb_eq in E3.
      auto.
    + intro H. destruct (H sid eq_refl) as [s [Hs [E1 [E2 E3]]]].
      exists s. split; [assumption |].
      rewrite E1, E2, E3, Nat.eqb_refl, !String.eqb_refl. reflexivity.
  - split; [intros _ sid E; discriminate E | reflexivity].
Qed.

Lemma refs_okb_spec db :
  refs_okb db = true <-> (forall r, In r (discounts db) -> refers_to_set (discountSets db) r).
Proof.
  unfold refs_okb. rewrite forallb_forall.
  split; intros H r Hr; apply refers_to_setb_spec; apply H; assumption.
Qed.

Lemma has_duplicate_spec codes : has_duplicate codes = false <-> NoDup codes.
Proof.
  induction codes as [|c rest IH]; simpl.
  - split; [constructor | reflexivity].
  - rewrite orb_false_iff, IH. split.
    + intros [Hn Hd]. constructor; [| assumption].
      intro Hin. assert (existsb (String.eqb c) rest = true) as Ht.
      { apply existsb_exists. exists c. split; [assumption | apply String.eqb_refl]. }
      rewrite Ht in Hn. discriminate Hn.
    + intro Hnd. inversion Hnd as [|? ? Hni Hd]; subst. split; [| assumption].
      destruct (existsb (String.eqb c) rest) eqn:Ht; [| reflexivity].
      exfalso. apply existsb_exists in Ht. destruct Ht as [c' [Hc' E]].
      apply String.eqb_eq in E. subst c'. apply Hni. assumption.
Qed.

(** What the unique index lets through. *)
Lemma violates_shop_code_spec shop codes rows :
  violates_shop_code shop codes rows = false <->
  NoDup codes /\ (forall r, In r rows -> d_shop r = shop -> ~ In (code r) codes).
Proof.
  unfold violates_shop_code. rewrite orb_false_iff, has_duplicate_spec. split.
  - intros [Hnd Hex]. split; [assumption |]. intros r Hr Hs Hc.
    assert (existsb (fun r0 => String.eqb (d_shop r0) shop
                               && existsb (String.eqb (code r0)) codes) rows = true) as Ht.
    { apply existsb_exists. exists r. split; [assumption |].
      rewrite Hs, String.eqb_refl. simpl. apply existsb_exists. exists (code r).
      split; [assumption | apply String.eqb_refl]. }
    rewrite Ht in Hex. discriminate Hex.
  - intros [Hnd Hno]. split; [assumption |].
    destruct (existsb _ rows) eqn:Ht; [| reflexivity].
    exfalso. apply existsb_exists in Ht. destruct Ht as [r [Hr E]].
    apply andb_true_iff in E. destruct E as [E1 E2].
    apply String.eqb_eq in E1. apply existsb_exists in E2. destruct E2 as [c [Hc E2]].
    apply String.eqb_eq in E2. subst c. exact (Hno r Hr E1 Hc).
Qed.

Lemma new_discounts_shop_codes shop ref setId first codes :
  map shop_code (new_discounts shop ref setId first codes) = map (pair shop) codes.
Proof.
  revert first. induction codes as [|c rest IH]; intro first; [reflexivity |].
  simpl. rewrite IH. reflexivity.
Qed.

Lemma NoDup_map_pair (shop : string) (codes : list string) :
  NoDup codes -> NoDup (map (pair shop) codes).
Proof.
  induction 1 as [|c rest Hni _ IH]; simpl; constructor; [| assumption].
  intro Hin. apply in_map_iff in Hin. destruct Hin as [c' [E Hc']].
  inversion E; subst. contradiction.
Qed.

(** Rows that kept their columns, in place, are as consistent as before. *)
Lemma same_columns_shop_codes rows rows' :
  Forall2 same_columns rows rows' -> map shop_code rows' = map shop_code rows.
Proof.
  induction 1 as [|r r' rows rows' [_ [Hs [Hc _]]] _ IH]; [reflexivity |].
  simpl. unfold shop_code at 1 3. rewrite Hs, Hc, IH. reflexivity.
Qed.

Lemma same_columns_refs sets rows rows' :
  Forall2 same_columns rows rows' ->
  (forall r, In r rows -> refers_to_set sets r) ->
  forall r', In r' rows' -> refers_to_set sets r'.
Proof.
  induction 1 as [|r r' rows rows' Hcol _ IH]; intros Href x Hx; [contradiction |].
  destruct Hx as [<- | Hx].
  - destruct Hcol as [_ [Hs [_ [Hm Hd]]]]. intros sid E. rewrite Hd in E.
    destruct (Href r (or_introl eq_refl) sid E) as [s [Hin [E1 [E2 E3]]]].
    exists s. rewrite Hs, Hm. auto.
  - apply IH; [| assumption]. intros r0 Hr0. apply Href. right. assumption.
Qed.

Lemma store_consistent_spec db :
  store_consistent db <->
  (NoDup (map ds_id (discountSets db))
   /\ (forall s, In s (discountSets db) -> ds_id s < next_id db))
  /\ (forall r, In r (discounts db) -> refers_to_set (discountSets db) r)
  /\ NoDup (map shop_code (discounts db)).
Proof.
  unfold store_consistent.
  rewrite sets_wfb_spec, refs_okb_spec, shop_codes_distinct_spec. reflexivity.
Qed.

Lemma consistent_same_columns db db' :
  discountSets db' = discountSets db -> next_id db' = next_id db ->
  Forall2 same_columns (discounts db) (discounts db') ->
  store_consistent db -> store_consistent db'.
Proof.
  intros Hsets Hnext Hcol. rewrite !store_consistent_spec.
  intros [Hs [Hr Hc]]. rewrite Hsets, Hnext, (same_columns_shop_codes _ _ Hcol).
  split; [assumption |]. split; [| assumption].
  apply (same_columns_refs _ _ _ Hcol). assumption.
Qed.

(** ** Submissions *)

Lemma resolved_reply (out : Outcome DiscountResponse) :
  unresolved out = false ->
  exists body dd md,
    out = Json body /\ dr_errors body = None /\ dr_data body = Some dd
    /\ response_discount body = Some md.
Proof.
  destruct out as [e | body]; simpl; [discriminate |].
  destruct (dr_errors body) eqn:He; [discriminate |].
  destruct (response_discount body) as [md|] eqn:Hd; [| discriminate].
  intros _. unfold response_discount in Hd.
  destruct (dr_data body) as [dd|] eqn:Hdd; [| discriminate].
  exists body, dd, md. repeat split; try assumption.
  unfold response_discount. rewrite Hdd. exact Hd.
Qed.

(** The three ways a submission can leave the store. *)
Lemma create_discounts_store {G} (admin : Gateway G) shop mid name codes db g :
  let r := create_discounts admin shop mid name codes db g in
  let discountSet := mkDiscountSet (next_id db) name shop (formatMasterDiscountId mid) in
  run_db r = db
  \/ (violates_shop_code shop codes (discounts db) = true
      /\ run_db r = mkStore (discountSets db ++ [discountSet]) (discounts db)
                            (S (next_id db)))
  \/ (violates_shop_code shop codes (discounts db) = false
      /\ run_db r
         = mkStore (discountSets db ++ [discountSet])
                   (discounts db
                    ++ new_discounts shop (formatMasterDiscountId mid) (next_id db)
                                     (S (next_id db)) codes)
                   (S (next_id db) + List.length codes)).
Proof.
  unfold create_discounts.
  destruct (gql_getDiscount admin g (formatMasterDiscountId mid)) as [[e | body] g1];
    [left; reflexivity |].
  destruct (dr_errors body) as [[|e es]|]; [left; reflexivity | left; reflexivity |].
  destruct (dr_data body); [| left; reflexivity].
  destruct (response_discount body); [| left; reflexivity].
  destruct (violates_shop_code shop codes (discounts db)); simpl.
  - right. left. split; reflexivity.
  - right. right. split; reflexivity.
Qed.

Lemma sets_grow_wf db discountSet n :
  ds_id discountSet = next_id db -> next_id db < n ->
  NoDup (map ds_id (discountSets db))
  /\ (forall s, In s (discountSets db) -> ds_id s < next_id db) ->
  NoDup (map ds_id (discountSets db ++ [discountSet]))
  /\ (forall s, In s (discountSets db ++ [discountSet]) -> ds_id s < n).
Proof.
  intros Hid Hn [Hnd Hlt]. split.
  - rewrite map_app. simpl. apply NoDup_app; [assumption | repeat constructor; intros [] |].
    intros i Hi [<- | []]. apply in_map_iff in Hi. destruct Hi as [s [E Hs]].
    specialize (Hlt s Hs). lia.
  - intros s Hs. apply in_app_or in Hs. destruct Hs as [Hs | [<- | []]].
    + specialize (Hlt s Hs). lia.
    + lia.
Qed.

Lemma refers_to_set_more sets extra r :
  refers_to_set sets r -> refers_to_set (sets ++ extra) r.
Proof.
  intros H sid E. destruct (H sid E) as [s [Hs Hrest]].
  exists s. split; [apply in_or_app; left; assumption | assumption].
Qed.

Lemma create_discounts_consistent {G} (admin : Gateway G) shop mid name codes db g :
  store_consistent db ->
  store_consistent (run_db (create_discounts admin shop mid name codes db g)).
Proof.
  intro Hc.
  destruct (create_discounts_store admin shop mid name codes db g)
    as [-> | [[_ ->] | [Hok ->]]]; [assumption | |];
    apply store_consistent_spec in Hc; destruct Hc as [Hs [Hr Hu]];
    apply store_consistent_spec; simpl.
  - split; [apply sets_grow_wf; [reflexivity | lia | assumption] |].
    split; [| assumption].
    intros r Hin. apply refers_to_set_more. apply Hr. assumption.
  - apply violates_shop_code_spec in Hok. destruct Hok as [Hnd Hfresh].
    split; [apply sets_grow_wf; [reflexivity | lia | assumption] |].
    split.
    + intros r Hin. apply in_app_or in Hin. destruct Hin as [Hin | Hin].
      * apply refers_to_set_more. apply Hr. assumption.
      * apply new_discounts_spec in Hin.
        destruct Hin as [_ [_ [_ [Hset [Hm [Hshop _]]]]]].
        intros sid E. rewrite Hset in E. inversion E; subst sid.
        eexists. split; [apply in_or_app; right; left; reflexivity |].
        simpl. auto.
    + rewrite map_app, new_discounts_shop_codes.
      apply NoDup_app; [assumption | apply NoDup_map_pair; assumption |].
      intros k Hk Hk'. apply in_map_iff in Hk. destruct Hk as [r [E Hin]].
      apply in_map_iff in Hk'. destruct Hk' as [c [E' Hc]].
      subst k. unfold shop_code in E'. inversion E' as [[Hshop Hcode]].
      apply (Hfresh r Hin); [symmetry; assumption | rewrite <- Hcode; assumption].
Qed.

Lemma new_discounts_belong shop ref setId first codes :
  filter (belongs_to setId) (new_discounts shop ref setId first codes)
  = new_discounts shop ref setId first codes.
Proof.
  revert first. induction codes as [|c rest IH]; intro first; [reflexivity |].
  simpl. unfold belongs_to at 1. simpl. rewrite Nat.eqb_refl, IH. reflexivity.
Qed.

Lemma new_discounts_codes shop ref setId first codes :
  map code (new_discounts shop ref setId first codes) = codes.
Proof.
  revert first. induction codes as [|c rest IH]; intro first; [reflexivity |].
  simpl. rewrite IH. reflexivity.
Qed.

Lemma new_discounts_pending shop ref setId first codes :
  count_status setId PENDING (new_discounts shop ref setId first codes) = List.length codes.
Proof.
  unfold count_status. revert first.
  induction codes as [|c rest IH]; intro first; [reflexivity |].
  simpl. unfold in_set_with at 1. simpl. rewrite Nat.eqb_refl. simpl. rewrite IH. reflexivity.
Qed.

Lemma find_appended_set sets discountSet :
  (forall s, In s sets -> ds_id s < ds_id discountSet) ->
  find (fun s => ds_id s =? ds_id discountSet) (sets ++ [discountSet]) = Some discountSet.
Proof.
  induction sets as [|s sets IH]; intro Hb; simpl.
  - rewrite Nat.eqb_refl. reflexivity.
  - assert ((ds_id s =? ds_id discountSet) = false) as Hne.
    { apply Nat.eqb_neq. specialize (Hb s (or_introl eq_refl)). lia. }
    rewrite Hne. apply IH. intros s0 Hs0. apply Hb. right. assumption.
Qed.

Lemma filter_none {A} (p : A -> bool) l :
  (forall x, In x l -> p x = false) -> filter p l = [].
Proof.
  induction l as [|a l IH]; intro H; [reflexivity |].
  simpl. rewrite (H a (or_introl eq_refl)). apply IH.
  intros x Hx. apply H. right. assumption.
Qed.

(** A resolved submission of codes the unique index lets through. *)
Lemma create_discounts_persists {G} (admin : Gateway G) shop masterDiscountId0
    discountSetName codes db g out g1 :
  sets_wfb db = true ->
  refs_okb db = true ->
  gql_getDiscount admin g (formatMasterDiscountId masterDiscountId0) = (out, g1) ->
  unresolved out = false ->
  violates_shop_code shop codes (discounts db) = false ->
  let r := create_discounts admin shop masterDiscountId0 discountSetName codes db g in
  let setId := next_id db in
  run_result r
  = CreateResult ("Queued " ++ string_of_nat (List.length codes)
                  ++ " discount codes. Processing will begin automatically...")
                 setId (List.length codes) true
  /\ findSet setId (run_db r)
     = Some (mkDiscountSet setId discountSetName shop
                           (formatMasterDiscountId masterDiscountId0))
  /\ map code (filter (belongs_to setId) (discounts (run_db r))) = codes
  /\ count_status setId PENDING (discounts (run_db r)) = List.length codes.
Proof.
  intros Hsets Hrefs Hfetch Hres Hok r setId.
  destruct (resolved_reply out Hres) as [body [dd [md [-> [Herr [Hdata Hmd]]]]]].
  assert (r = mkRun (CreateResult
                       ("Queued " ++ string_of_nat (List.length codes)
                        ++ " discount codes. Processing will begin automatically...")
                       setId (List.length codes) true)
                    (mkStore (discountSets db
                              ++ [mkDiscountSet setId discountSetName shop
                                                (formatMasterDiscountId masterDiscountId0)])
                             (discounts db
                              ++ new_discounts shop (formatMasterDiscountId masterDiscountId0)
                                               setId (S setId) codes)
                             (S setId + List.length codes))
                    g1 []) as Hr.
  { unfold r, create_discounts. rewrite Hfetch, Herr, Hdata, Hmd, Hok. reflexivity. }
  apply sets_wfb_spec in Hsets. destruct Hsets as [_ Hlt].
  assert (forall r0, In r0 (discounts db) -> belongs_to setId r0 = false) as Hold.
  { intros r0 Hr0. unfold belongs_to. destruct (discountSetId r0) as [s|] eqn:Es; [| reflexivity].
    apply Nat.eqb_neq. intro E. subst s.
    destruct ((proj1 (refs_okb_spec db) Hrefs) r0 Hr0 setId Es) as [s [Hs [Hid _]]].
    specialize (Hlt s Hs). unfold setId in Hid. lia. }
  rewrite Hr. simpl. split; [reflexivity |]. split; [| split].
  - unfold findSet. simpl.
    apply (find_appended_set (discountSets db)
             (mkDiscountSet setId discountSetName shop
                            (formatMasterDiscountId masterDiscountId0))).
    exact Hlt.
  - rewrite filter_app, (filter_none _ _ Hold), new_discounts_belong. simpl.
    apply new_discounts_codes.
  - unfold count_status. rewrite filter_app, length_app.
    rewrite (filter_none (in_set_with setId PENDING) (discounts db)).
    + apply new_discounts_pending.
    + intros r0 Hr0. rewrite in_set_with_belongs, (Hold r0 Hr0). reflexivity.
Qed.

(** X10: a submission whose master discount resolves and whose codes are new
    to the shop and distinct is persisted whole: the answer carries the id of
    the new set and the number of codes; looking the set up finds it, with
    the formatted master discount id; and the rows of the set are one PENDING
    row per code, in the order of the list. *)
Theorem X10_submission_is_persisted_whole {G} (admin : Gateway G) shop masterDiscountId0
    discountSetName codes db g out g1 :
  sets_wfb db = true ->
  refs_okb db = true ->
  gql_getDiscount admin g (formatMasterDiscountId masterDiscountId0) = (out, g1) ->
  unresolved out = false ->
  violates_shop_code shop codes (discounts db) = false ->
  let r := create_discounts admin shop masterDiscountId0 discountSetName codes db g in
  let setId := next_id db in
  run_result r
  = CreateResult ("Queued " ++ string_of_nat (List.length codes)
                  ++ " discount codes. Processing will begin automatically...")
                 setId (List.length codes) true
  /\ findSet setId (run_db r)
     = Some (mkDiscountSet setId discountSetName shop
                           (formatMasterDiscountId masterDiscountId0))
  /\ map code (filter (belongs_to setId) (discounts (run_db r))) = codes
  /\ count_status setId PENDING (discounts (run_db r)) = List.length codes.
Proof.
  apply create_discounts_persists.
Qed.

Lemma X10_witness_second_submission :
  let r := create_discounts Sample.shopify "flowers.myshopify.com" "1" "Second set"
                            ["B01"; "B02"] Sample.mixed_after_one 2 in
  run_result r
  = CreateResult "Queued 2 discount codes. Processing will begin automatically..." 8 2 true
  /\ findSet 8 (run_db r)
     = Some (mkDiscountSet 8 "Second set" "flowers.myshopify.com" Sample.master_ref)
  /\ map code (filter (belongs_to 8) (discounts (run_db r))) = ["B01"; "B02"]
  /\ count_status 8 PENDING (discounts (run_db r)) = 2.
Proof.
  apply (X10_submission_is_persisted_whole Sample.shopify "flowers.myshopify.com" "1"
           "Second set" ["B01"; "B02"] Sample.mixed_after_one 2
           (Json (Sample.found (BasicDiscount Sample.ten_percent))) 2).
  - vm_compute. reflexivity.
  - vm_compute. reflexivity.
  - vm_compute. reflexivity.
  - reflexivity.
  - vm_compute. reflexivity.
Defined.

(** X11: a submission is not atomic.  When its master discount resolves but a
    code is repeated in the list or already exists for the shop, the handler
    answers with an error and no row is added for any code, but the set row
    it had already created stays behind. *)
Theorem X11_rejected_codes_leave_an_empty_set {G} (admin : Gateway G) shop masterDiscountId0
    discountSetName codes db g out g1 :
  gql_getDiscount admin g (formatMasterDiscountId masterDiscountId0) = (out, g1) ->
  unresolved out = false ->
  (~ NoDup codes \/ exists r, In r (discounts db) /\ d_shop r = shop /\ In (code r) codes) ->
  let r := create_discounts admin shop masterDiscountId0 discountSetName codes db g in
  (exists e, run_result r = ErrorResult e)
  /\ discounts (run_db r) = discounts db
  /\ discountSets (run_db r)
     = discountSets db
       ++ [mkDiscountSet (next_id db) discountSetName shop
                         (formatMasterDiscountId masterDiscountId0)].
Proof.
  intros Hfetch Hres Hbad r.
  destruct (resolved_reply out Hres) as [body [dd [md [-> [Herr [Hdata Hmd]]]]]].
  assert (violates_shop_code shop codes (discounts db) = true) as Hv.
  { destruct (violates_shop_code shop codes (discounts db)) eqn:E; [reflexivity |].
    apply violates_shop_code_spec in E. destruct E as [Hnd Hfresh].
    destruct Hbad as [Hdup | [r0 [Hr0 [Hs Hc]]]]; [contradiction |].
    exfalso. exact (Hfresh r0 Hr0 Hs Hc). }
  unfold r, create_discounts. rewrite Hfetch, Herr, Hdata, Hmd, Hv. simpl.
  split; [eexists; reflexivity |]. split; reflexivity.
Qed.

Lemma X11_witness_code_taken :
  let r := create_discounts Sample.shopify "flowers.myshopify.com" "1" "Again"
                            ["NEW1"; "GOOD1"] Sample.mixed_after_one 2 in
  (exists e, run_result r = ErrorResult e)
  /\ discounts (run_db r) = discounts Sample.mixed_after_one
  /\ discountSets (run_db r)
     = discountSets Sample.mixed_after_one
       ++ [mkDiscountSet (next_id Sample.mixed_after_one) "Again" "flowers.myshopify.com"
                         (formatMasterDiscountId "1")].
Proof.
  apply (X11_rejected_codes_leave_an_empty_set Sample.shopify "flowers.myshopify.com" "1"
           "Again" ["NEW1"; "GOOD1"] Sample.mixed_after_one 2
           (Json (Sample.found (BasicDiscount Sample.ten_percent))) 2).
  - vm_compute. reflexivity.
  - reflexivity.
  - right.
    exists (mkDiscount 1 "flowers.myshopify.com" (Some "gid://shopify/DiscountCodeNode/1")
                       "GOOD1" Sample.master_ref (Some 0) CREATED None).
    vm_compute. tauto.
Defined.

(** ** Deletions and the invariants *)

Lemma filter_rows_wf sets p db :
  store_wf db -> store_wf (mkStore sets (filter p (discounts db)) (next_id db)).
Proof.
  rewrite !store_wf_spec. simpl. intros [Hnd Hlt]. split.
  - apply NoDup_map_filter. assumption.
  - intros r Hr. apply filter_In in Hr. apply Hlt. tauto.
Qed.

Lemma filter_rows_invariant sets p db :
  store_invariant db -> store_invariant (mkStore sets (filter p (discounts db)) (next_id db)).
Proof.
  intros Hinv r Hr. simpl in Hr. apply filter_In in Hr. apply Hinv. tauto.
Qed.

Section DeletionInvariants.

Context {G : Type} (admin : Admin G).

Lemma delete_discount_set_store sid db g :
  del_db (delete_discount_set admin sid db g)
  = match findSet sid db with
    | Some _ => mkStore (filter (fun s => negb (ds_id s =? sid)) (discountSets db))
                        (filter (fun r => negb (belongs_to sid r)) (discounts db))
                        (next_id db)
    | None => db
    end.
Proof.
  unfold delete_discount_set.
  destruct (delete_remote_each admin (filter (belongs_to sid) (discounts db)) g) as [g' sent].
  destruct (findSet sid db); reflexivity.
Qed.

Lemma delete_single_discount_store id db g :
  del_db (delete_single_discount admin id db g)
  = if has_id id (discounts db)
    then set_discounts db (filter (fun r => negb (d_id r =? id)) (discounts db))
    else db.
Proof.
  unfold delete_single_discount.
  destruct (match find (fun r => d_id r =? id) (discounts db) with
            | Some r => delete_remote admin r g
            | None => (g, [])
            end) as [g' sent].
  destruct (has_id id (discounts db)); reflexivity.
Qed.

Lemma delete_discount_set_consistent sid db g :
  store_consistent db -> store_consistent (del_db (delete_discount_set admin sid db g)).
Proof.
  rewrite delete_discount_set_store. destruct (findSet sid db); [| tauto].
  rewrite !store_consistent_spec. simpl. intros [[Hnd Hlt] [Hr Hu]].
  split; [split |]; [| | split].
  - apply NoDup_map_filter. assumption.
  - intros s Hs. apply filter_In in Hs. apply Hlt. tauto.
  - intros r Hin sid' E. apply filter_In in Hin. destruct Hin as [Hin Hkeep].
    destruct (Hr r Hin sid' E) as [s [Hs [Hid Hrest]]].
    exists s. split; [| split; assumption].
    apply filter_In. split; [assumption |].
    unfold belongs_to in Hkeep. rewrite E in Hkeep. rewrite Hid. exact Hkeep.
  - apply NoDup_map_filter. assumption.
Qed.

Lemma delete_single_discount_consistent id db g :
  store_consistent db -> store_consistent (del_db (delete_single_discount admin id db g)).
Proof.
  rewrite delete_single_discount_store. destruct (has_id id (discounts db)); [| tauto].
  rewrite !store_consistent_spec. simpl. intros [Hs [Hr Hu]].
  split; [assumption |]. split.
  - intros r Hin. apply filter_In in Hin. apply Hr. tauto.
  - apply NoDup_map_filter. assumption.
Qed.

Lemma retry_failed_columns sid db :
  Forall2 same_columns (discounts db) (discounts (snd (retry_failed sid db))).
Proof.
  simpl. unfold discount_updateMany_failed.
  induction (discounts db) as [|r rows IH]; simpl; constructor; [| exact IH].
  destruct (in_set_with sid FAILED r); unfold same_columns; simpl; tauto.
Qed.

(** X12: every store the five actions can build from empty tables keeps all
    the invariants of the schema and of the pipeline: [id] is a key of both
    tables, [(shop, code)] is a key of the rows, every row that names a set
    names an existing set of its shop with its master discount id, and the
    status of every row agrees with its remote id and error message. *)
Theorem X12_reachable_stores_are_consistent db :
  reachable_all admin db ->
  store_wf db /\ store_invariant db /\ store_consistent db.
Proof.
  induction 1 as [| shop mid name codes db g _ [Hwf [Hinv Hc]]
                  | sid db g _ [Hwf [Hinv Hc]]
                  | sid db _ [Hwf [Hinv Hc]]
                  | sid db g _ [Hwf [Hinv Hc]]
                  | id db g _ [Hwf [Hinv Hc]]].
  - split; [reflexivity |]. split; [intros r [] |]. repeat split.
  - split; [apply create_discounts_wf; assumption |].
    split; [apply create_discounts_invariant; assumption |].
    apply create_discounts_consistent; assumption.
  - split; [apply process_pending_wf; assumption |].
    split; [apply process_pending_invariant; assumption |].
    destruct (process_pending_ids (admin_gateway admin) sid db g) as [_ [Hnext Hsets]].
    apply (consistent_same_columns db); try assumption.
    apply process_pending_columns.
  - split; [apply retry_failed_wf; assumption |].
    split; [apply retry_failed_invariant; assumption |].
    apply (consistent_same_columns db); try assumption; try reflexivity.
    apply retry_failed_columns.
  - split; [| split; [| apply delete_discount_set_consistent; assumption]];
      rewrite delete_discount_set_store; destruct (findSet sid db); try assumption.
    + apply filter_rows_wf. assumption.
    + apply filter_rows_invariant. assumption.
  - split; [| split; [| apply delete_single_discount_consistent; assumption]];
      rewrite delete_single_discount_store; destruct (has_id id (discounts db));
      try assumption.
    + apply filter_rows_wf. assumption.
    + apply filter_rows_invariant. assumption.
Qed.

End DeletionInvariants.

(** The mixed set, processed once, without its rejected code: six rows of
    all three statuses are left. *)
Lemma X12_witness_deleted_row :
  let db := del_db (delete_single_discount Sample2.deletes 2 Sample.mixed_after_one 2) in
  (store_wf db /\ store_invariant db /\ store_consistent db)
  /\ map status (discounts db) = [CREATED; FAILED; CREATED; FAILED; PENDING; PENDING].
Proof.
  split; [| vm_compute; reflexivity].
  apply (X12_reachable_stores_are_consistent Sample2.deletes).
  apply all_delete_single.
  apply (all_process Sample2.deletes 0 Sample.mixed_submitted 0).
  apply (all_create Sample2.deletes "flowers.myshopify.com" Sample.master_ref "Mixed set"
           ["GOOD1"; "DUPLICATE1"; "TIMEOUT"; "GOOD2"; "SILENT"; "GOOD3"; "GOOD4"]
           Sample.empty_store 0).
  apply all_empty.
Defined.

(** ** Deleting a set *)

Lemma belongs_to_spec sid r : belongs_to sid r = true <-> discountSetId r = Some sid.
Proof.
  unfold belongs_to. destruct (discountSetId r) as [s|].
  - rewrite Nat.eqb_eq. split; [intros ->; reflexivity | intro E; inversion E; reflexivity].
  - split; discriminate.
Qed.

Lemma has_remote_spec r :
  has_remote r = true <->
  status r = CREATED /\ exists remoteId, shopifyId r = Some remoteId /\ remoteId <> "".
Proof.
  unfold has_remote, truthy_string. rewrite andb_true_iff, status_eqb_eq.
  destruct (shopifyId r) as [v|].
  - rewrite negb_true_iff. split.
    + intros [Hv Hs]. split; [assumption |]. exists v. split; [reflexivity |].
      apply String.eqb_neq. assumption.
    + intros [Hs [v' [E Hv]]]. inversion E; subst v'. split; [| assumption].
      apply String.eqb_neq. assumption.
  - split; [intros [H _]; discriminate H | intros [_ [v [E _]]]; discriminate E].
Qed.

Lemma delete_remote_requests {G} (admin : Admin G) r g remoteId :
  In remoteId (snd (delete_remote admin r g)) <->
  has_remote r = true /\ shopifyId r = Some remoteId.
Proof.
  unfold delete_remote. destruct (has_remote r) eqn:Hr.
  - destruct (shopifyId r) as [v|] eqn:Hv; simpl.
    + split; [intros [<- | []]; auto | intros [_ E]; inversion E; auto].
    + split; [intros [] | intros [_ E]; discriminate E].
  - simpl. split; [intros [] | intros [E _]; discriminate E].
Qed.

Lemma delete_remote_each_requests {G} (admin : Admin G) rows g remoteId :
  In remoteId (snd (delete_remote_each admin rows g)) <->
  exists r, In r rows /\ has_remote r = true /\ shopifyId r = Some remoteId.
Proof.
  revert g. induction rows as [|r rest IH]; intro g; simpl.
  - split; [intros [] | intros [r [[] _]]].
  - pose proof (delete_remote_requests admin r g remoteId) as Hone.
    destruct (delete_remote admin r g) as [g' sent].
    specialize (IH g'). destruct (delete_remote_each admin rest g') as [g'' sent'].
    simpl in *. rewrite in_app_iff, Hone, IH. split.
    + intros [[Hr E] | [r' [Hin H]]]; [exists r; auto | exists r'; auto].
    + intros [r' [[<- | Hin] H]]; [left; assumption | right; exists r'; auto].
Qed.

(** X13: deleting an existing set always succeeds locally, whatever the
    remote service does with the deletions it is asked for: the set is gone,
    no row of the set is left, and every other set and every row of another
    set (or of none) is kept as it was. *)
Theorem X13_deleting_a_set_cascades_locally {G} (admin : Admin G) sid db g discountSet :
  findSet sid db = Some discountSet ->
  let run := delete_discount_set admin sid db g in
  del_result run = DeleteSuccess "Discount set deleted successfully"
  /\ findSet sid (del_db run) = None
  /\ (forall r, In r (discounts (del_db run)) <->
                In r (discounts db) /\ discountSetId r <> Some sid)
  /\ (forall s, In s (discountSets (del_db run)) <->
                In s (discountSets db) /\ ds_id s <> sid).
Proof.
  intros Hset run.
  pose proof (delete_discount_set_store admin sid db g) as Hdb. fold run in Hdb.
  rewrite Hset in Hdb.
  split.
  { unfold run, delete_discount_set.
    destruct (delete_remote_each admin (filter (belongs_to sid) (discounts db)) g).
    rewrite Hset. reflexivity. }
  rewrite Hdb. simpl. split; [| split].
  - unfold findSet. simpl.
    destruct (find (fun s => ds_id s =? sid)
                   (filter (fun s => negb (ds_id s =? sid)) (discountSets db))) as [s|] eqn:E;
      [| reflexivity].
    apply find_some in E. destruct E as [Hin E]. apply filter_In in Hin.
    destruct Hin as [_ Hne]. rewrite E in Hne. discriminate Hne.
  - intro r. rewrite filter_In, negb_true_iff.
    split; intros [Hin H]; (split; [assumption |]).
    + intro E. apply belongs_to_spec in E. rewrite E in H. discriminate H.
    + destruct (belongs_to sid r) eqn:E; [| reflexivity].
      apply belongs_to_spec in E. contradiction.
  - intro s. rewrite filter_In, negb_true_iff, Nat.eqb_neq. reflexivity.
Qed.

Lemma X13_witness_remote_refuses :
  let run := delete_discount_set Sample2.no_deletes 0 Sample.mixed_after_one 2 in
  del_result run = DeleteSuccess "Discount set deleted successfully"
  /\ findSet 0 (del_db run) = None
  /\ (forall r, In r (discounts (del_db run)) <->
                In r (discounts Sample.mixed_after_one) /\ discountSetId r <> Some 0)
  /\ (forall s, In s (discountSets (del_db run)) <->
                In s (discountSets Sample.mixed_after_one) /\ ds_id s <> 0).
Proof.
  apply (X13_deleting_a_set_cascades_locally Sample2.no_deletes 0 Sample.mixed_after_one 2
           (mkDiscountSet 0 "Mixed set" "flowers.myshopify.com" Sample.master_ref)).
  vm_compute. reflexivity.
Defined.

(** X14: deleting a set asks the remote service to delete exactly the remote
    ids of the rows of that set that are CREATED with a non-empty remote id;
    nothing is asked for a PENDING or FAILED row, or for a row of another
    set. *)
Theorem X14_remote_deletions_are_the_created_rows {G} (admin : Admin G) sid db g remoteId :
  In remoteId (del_requests (delete_discount_set admin sid db g)) <->
  exists r, In r (discounts db) /\ discountSetId r = Some sid /\ status r = CREATED
            /\ shopifyId r = Some remoteId /\ remoteId <> "".
Proof.
  pose proof (delete_remote_each_requests admin (filter (belongs_to sid) (discounts db)) g
                remoteId) as Hreq.
  unfold delete_discount_set.
  destruct (delete_remote_each admin (filter (belongs_to sid) (discounts db)) g) as [g' sent].
  simpl in Hreq.
  assert (In remoteId (del_requests
                         (match findSet sid db with
                          | Some _ =>
                            mkDeleteRun (DeleteSuccess "Discount set deleted successfully")
                              (mkStore (filter (fun s => negb (ds_id s =? sid)) (discountSets db))
                                       (filter (fun r => negb (belongs_to sid r)) (discounts db))
                                       (next_id db)) g' sent
                          | None =>
                            mkDeleteRun
                              (DeleteError (js_or record_to_delete_missing "An error occurred"))
                              db g' sent
                          end)) <-> In remoteId sent) as Hsame.
  { destruct (findSet sid db); reflexivity. }
  rewrite Hsame, Hreq. split.
  - intros [r [Hin [Hrem E]]]. apply filter_In in Hin. destruct Hin as [Hin Hb].
    apply belongs_to_spec in Hb. apply has_remote_spec in Hrem.
    destruct Hrem as [Hst [v [Ev Hv]]]. rewrite E in Ev. inversion Ev; subst v.
    exists r. auto.
  - intros [r [Hin [Hs [Hst [E Hne]]]]]. exists r. split; [| split; [| assumption]].
    + apply filter_In. split; [assumption | apply belongs_to_spec; assumption].
    + apply has_remote_spec. split; [assumption |]. exists remoteId. auto.
Qed.

Example delete_requests_sample :
  del_requests (delete_discount_set Sample2.deletes 0 Sample.mixed_after_one 2)
  = ["gid://shopify/DiscountCodeNode/1"; "gid://shopify/DiscountCodeNode/2"]
  /\ del_gw (delete_discount_set Sample2.deletes 0 Sample.mixed_after_one 2) = 0.
Proof. vm_compute. split; reflexivity. Qed.

(** ** Deleting one discount *)

Lemma find_by_id rows r :
  NoDup (map d_id rows) -> In r rows -> find (fun r' => d_id r' =? d_id r) rows = Some r.
Proof.
  intros Hnd Hin.
  destruct (find (fun r' => d_id r' =? d_id r) rows) as [r'|] eqn:E.
  - apply find_some in E. destruct E as [Hin' E]. apply Nat.eqb_eq in E.
    f_equal. apply (unique_row rows); assumption.
  - exfalso. pose proof (find_none _ _ E r Hin) as H. simpl in H.
    rewrite Nat.eqb_refl in H. discriminate H.
Qed.

(** X15: deleting one discount that exists always succeeds locally, whatever
    the remote service does: exactly that row is removed, the other rows and
    the sets are kept.  The remote service is asked to delete only when the
    row is CREATED with a non-empty remote id, and then for that id; for a
    PENDING or FAILED row the gateway is not touched at all. *)
Theorem X15_deleting_one_discount {G} (admin : Admin G) db g r :
  store_wf db ->
  In r (discounts db) ->
  let run := delete_single_discount admin (d_id r) db g in
  del_result run = DeleteSuccess "Discount deleted successfully"
  /\ (forall r', In r' (discounts (del_db run)) <-> In r' (discounts db) /\ r' <> r)
  /\ discountSets (del_db run) = discountSets db
  /\ (status r <> CREATED -> del_requests run = [] /\ del_gw run = g)
  /\ (forall remoteId, status r = CREATED -> shopifyId r = Some remoteId -> remoteId <> "" ->
                       del_requests run = [remoteId]).
Proof.
  intros Hwf Hin run. apply store_wf_spec in Hwf. destruct Hwf as [Hnd _].
  assert (has_id (d_id r) (discounts db) = true) as Hid.
  { apply has_id_In. apply in_map. assumption. }
  pose proof (delete_single_discount_store admin (d_id r) db g) as Hdb. fold run in Hdb.
  rewrite Hid in Hdb.
  assert (del_result run = DeleteSuccess "Discount deleted successfully"
          /\ del_requests run = snd (delete_remote admin r g)
          /\ del_gw run = fst (delete_remote admin r g)) as [Hres [Hreq Hgw]].
  { unfold run, delete_single_discount. rewrite (find_by_id _ _ Hnd Hin), Hid.
    destruct (delete_remote admin r g). repeat split. }
  split; [exact Hres |]. rewrite Hdb. simpl. split; [| split; [reflexivity |]].
  - intro r'. rewrite filter_In, negb_true_iff, Nat.eqb_neq.
    split; intros [Hin' Hne]; (split; [assumption |]).
    + intro E. subst r'. apply Hne. reflexivity.
    + intro E. apply Hne. apply (unique_row (discounts db)); assumption.
  - rewrite Hreq, Hgw. unfold delete_remote. split.
    + intro Hst. assert (has_remote r = false) as Hno.
      { destruct (has_remote r) eqn:E; [| reflexivity].
        apply has_remote_spec in E. destruct E as [E _]. contradiction. }
      rewrite Hno. split; reflexivity.
    + intros remoteId Hst Hrid Hne. assert (has_remote r = true) as Hyes.
      { apply has_remote_spec. split; [assumption |]. exists remoteId. auto. }
      rewrite Hyes, Hrid. reflexivity.
Qed.

Lemma X15_witness_rejected_row :
  let run := delete_single_discount Sample2.deletes (d_id Sample.rejected_row)
                                    Sample.mixed_after_one 2 in
  del_result run = DeleteSuccess "Discount deleted successfully"
  /\ (forall r', In r' (discounts (del_db run)) <->
                 In r' (discounts Sample.mixed_after_one) /\ r' <> Sample.rejected_row)
  /\ discountSets (del_db run) = discountSets Sample.mixed_after_one
  /\ (status Sample.rejected_row <> CREATED -> del_requests run = [] /\ del_gw run = 2)
  /\ (forall remoteId, status Sample.rejected_row = CREATED ->
                       shopifyId Sample.rejected_row = Some remoteId -> remoteId <> "" ->
                       del_requests run = [remoteId]).
Proof.
  apply (X15_deleting_one_discount Sample2.deletes Sample.mixed_after_one 2
           Sample.rejected_row).
  - vm_compute. reflexivity.
  - vm_compute. tauto.
Defined.

(** X16: deleting a discount that does not exist is an error that changes
    nothing: no remote call is made, and the store and the gateway are left
    as they were. *)
Theorem X16_deleting_an_unknown_discount {G} (admin : Admin G) db g discountId :
  ~ In discountId (map d_id (discounts db)) ->
  delete_single_discount admin discountId db g
  = mkDeleteRun (DeleteError record_to_delete_missing) db g [].
Proof.
  intro Hno. unfold delete_single_discount.
  assert (has_id discountId (discounts db) = false) as Hid.
  { destruct (has_id discountId (discounts db)) eqn:E; [| reflexivity].
    apply has_id_In in E. contradiction. }
  destruct (find (fun r => d_id r =? discountId) (discounts db)) as [r|] eqn:E.
  - exfalso. apply find_some in E. destruct E as [Hin E]. apply Nat.eqb_eq in E.
    apply Hno. rewrite <- E. apply in_map. assumption.
  - rewrite Hid. reflexivity.
Qed.

Lemma X16_witness_unknown_id :
  delete_single_discount Sample2.deletes 99 Sample.mixed_after_one 2
  = mkDeleteRun (DeleteError record_to_delete_missing) Sample.mixed_after_one 2 [].
Proof.
  apply (X16_deleting_an_unknown_discount Sample2.deletes Sample.mixed_after_one 2 99).
  vm_compute. intuition discriminate.
Defined.

(** ** The code list of the form *)

(** *** Splitting *)

Lemma split_codes_nonempty content : split_codes content <> [].
Proof.
  destruct content as [|c rest]; simpl; [discriminate |].
  destruct (is_separator c); [discriminate |].
  destruct (split_codes rest); discriminate.
Qed.

Lemma split_codes_separator_free content :
  forall piece, In piece (split_codes content) -> separator_free piece = true.
Proof.
  induction content as [|c rest IH]; simpl; intros piece Hin.
  - destruct Hin as [<- | []]. reflexivity.
  - destruct (is_separator c) eqn:Hc.
    + destruct Hin as [<- | Hin]; [reflexivity | apply IH; assumption].
    + destruct (split_codes rest) as [|p ps] eqn:Hs.
      * destruct Hin as [<- | []]. unfold separator_free. simpl. rewrite Hc. reflexivity.
      * destruct Hin as [<- | Hin].
        -- unfold separator_free. simpl. rewrite Hc. simpl.
           apply (IH p). left. reflexivity.
        -- apply IH. right. assumption.
Qed.

Lemma split_codes_clean c : separator_free c = true -> split_codes c = [c].
Proof.
  unfold separator_free. induction c as [|a r IH]; simpl; [reflexivity |].
  rewrite andb_true_iff, negb_true_iff. intros [Ha Hr].
  rewrite Ha, (IH Hr). reflexivity.
Qed.

Lemma split_codes_app c sep rest :
  separator_free c = true -> is_separator sep = true ->
  split_codes (String.append c (String sep rest)) = c :: split_codes rest.
Proof.
  unfold separator_free. intros Hc Hsep. induction c as [|a r IH]; simpl.
  - rewrite Hsep. reflexivity.
  - simpl in Hc. apply andb_true_iff in Hc. destruct Hc as [Ha Hr].
    apply negb_true_iff in Ha. rewrite Ha, (IH Hr). reflexivity.
Qed.

Lemma split_codes_concat sep codes :
  is_separator sep = true -> codes <> [] ->
  (forall c, In c codes -> separator_free c = true) ->
  split_codes (String.concat (String sep EmptyString) codes) = codes.
Proof.
  intros Hsep. induction codes as [|c rest IH]; intros Hne Hall; [contradiction Hne; reflexivity |].
  destruct rest as [|c' rest'].
  - simpl. apply split_codes_clean. apply Hall. left. reflexivity.
  - change (String.concat (String sep EmptyString) (c :: c' :: rest'))
      with (String.append c
              (String sep (String.concat (String sep EmptyString) (c' :: rest')))).
    rewrite split_codes_app; [| apply Hall; left; reflexivity | assumption].
    f_equal. apply IH; [discriminate |]. intros x Hx. apply Hall. right. assumption.
Qed.

(** *** Trimming *)

Lemma trimStart_chars s ch :
  In ch (list_ascii_of_string (trimStart s)) -> In ch (list_ascii_of_string s).
Proof.
  induction s as [|c r IH]; simpl; [tauto |].
  destruct (is_space c); simpl; [right; apply IH; assumption | tauto].
Qed.

Lemma trimEnd_chars s ch :
  In ch (list_ascii_of_string (trimEnd s)) -> In ch (list_ascii_of_string s).
Proof.
  induction s as [|c r IH]; simpl; [tauto |].
  destruct (trimEnd r) as [|c' r'] eqn:E.
  - destruct (is_space c); simpl; [intros [] | intros [<- | []]; left; reflexivity].
  - simpl. intros [<- | H]; [left; reflexivity | right; apply IH; simpl; assumption].
Qed.

Lemma trim_separator_free s : separator_free s = true -> separator_free (trim s) = true.
Proof.
  unfold separator_free. rewrite !forallb_forall. intros H ch Hin.
  apply H. apply trimStart_chars. apply trimEnd_chars. exact Hin.
Qed.

Lemma trimEnd_cons c t :
  trimEnd (String c t)
  = match trimEnd t with
    | EmptyString => if is_space c then EmptyString else String c EmptyString
    | kept => String c kept
    end.
Proof. reflexivity. Qed.

Lemma trimEnd_idempotent s : trimEnd (trimEnd s) = trimEnd s.
Proof.
  induction s as [|c r IH]; [reflexivity |]. rewrite trimEnd_cons.
  destruct (trimEnd r) as [|c' r'] eqn:E.
  - destruct (is_space c) eqn:Hc; [reflexivity |]. simpl. rewrite Hc. reflexivity.
  - rewrite trimEnd_cons, IH. reflexivity.
Qed.

(** A string that does not start with a space keeps its start when trimmed
    at the end. *)
Lemma trimStart_trimEnd s : trimStart s = s -> trimStart (trimEnd s) = trimEnd s.
Proof.
  destruct s as [|c r]; [reflexivity |]. simpl.
  destruct (is_space c) eqn:Hc.
  - intro E. exfalso.
    assert (forall t, String.length (trimStart t) <= String.length t) as Hlen.
    { induction t as [|a t IH]; simpl; [lia |]. destruct (is_space a); simpl; lia. }
    specialize (Hlen r). rewrite E in Hlen. simpl in Hlen. lia.
  - intros _. destruct (trimEnd r); simpl; rewrite Hc; reflexivity.
Qed.

Lemma trimStart_idempotent s : trimStart (trimStart s) = trimStart s.
Proof.
  induction s as [|c r IH]; [reflexivity |]. simpl.
  destruct (is_space c) eqn:Hc; [exact IH |]. simpl. rewrite Hc. reflexivity.
Qed.

Lemma trim_idempotent s : trim (trim s) = trim s.
Proof.
  unfold trim.
  rewrite (trimStart_trimEnd (trimStart s) (trimStart_idempotent s)).
  apply trimEnd_idempotent.
Qed.

(** *** Keeping first occurrences *)

Lemma indexOf_In x self : In x self -> exists i, indexOf x self = Some i.
Proof.
  induction self as [|y rest IH]; simpl; [intros [] |].
  destruct (String.eqb y x) eqn:E; [intros _; exists 0; reflexivity |].
  intros [-> | Hin]; [rewrite String.eqb_refl in E; discriminate E |].
  destruct (IH Hin) as [i Hi]. exists (S i). rewrite Hi. reflexivity.
Qed.

Lemma indexOf_nth x self i : indexOf x self = Some i -> nth_error self i = Some x.
Proof.
  revert i. induction self as [|y rest IH]; simpl; intros i; [discriminate |].
  destruct (String.eqb y x) eqn:E.
  - intro H. inversion H. subst i. apply String.eqb_eq in E. subst y. reflexivity.
  - destruct (indexOf x rest) as [j|]; [| discriminate].
    simpl. intro H. inversion H. subst i. simpl. apply IH. reflexivity.
Qed.

Lemma indexOf_NoDup x self i :
  NoDup self -> nth_error self i = Some x -> indexOf x self = Some i.
Proof.
  revert i. induction self as [|y rest IH]; intros i Hnd Hn; [destruct i; discriminate Hn |].
  inversion Hnd as [|? ? Hni Hnd']; subst. simpl. destruct i as [|i]; simpl in Hn.
  - inversion Hn. subst y. rewrite String.eqb_refl. reflexivity.
  - assert (String.eqb y x = false) as E.
    { apply String.eqb_neq. intro E. subst y. apply Hni. apply (nth_error_In _ _ Hn). }
    rewrite E, (IH i Hnd' Hn). reflexivity.
Qed.

Lemma skipn_cons_nth {A} (self : list A) index c rest :
  skipn index self = c :: rest ->
  nth_error self index = Some c /\ skipn (S index) self = rest.
Proof.
  revert self. induction index as [|n IH]; intros self E.
  - simpl in E. subst self. split; reflexivity.
  - destruct self as [|a self]; [discriminate E |]. simpl in E. apply IH in E. exact E.
Qed.

(** The codes kept from an index on are those whose first occurrence is at
    that index or later. *)
Lemma keep_first_from_In self index l c :
  l = skipn index self ->
  (In c (keep_first_from self index l) <->
   exists i, index <= i /\ indexOf c self = Some i).
Proof.
  revert index. induction l as [|x rest IH]; intros index Hl.
  - simpl. split; [intros [] |]. intros [i [Hle Hi]]. apply indexOf_nth in Hi.
    assert (List.length self <= index) as Hlen.
    { destruct (Nat.le_gt_cases (List.length self) index) as [H | H]; [assumption |].
      exfalso. pose proof (length_skipn index self) as Hs. rewrite <- Hl in Hs.
      simpl in Hs. lia. }
    assert (nth_error self i = None) as Hnone by (apply nth_error_None; lia).
    rewrite Hnone in Hi. discriminate Hi.
  - symmetry in Hl. destruct (skipn_cons_nth self index x rest Hl) as [Hx Hrest].
    symmetry in Hrest. specialize (IH (S index) Hrest). simpl.
    destruct (indexOf x self) as [j|] eqn:Hj.
    + destruct (j =? index) eqn:E.
      * apply Nat.eqb_eq in E. subst j. simpl. rewrite IH. split.
        -- intros [<- | [i [Hle Hi]]]; [exists index; auto | exists i; split; [lia | assumption]].
        -- intros [i [Hle Hi]]. destruct (Nat.eq_dec i index) as [-> | Hne].
           ++ left. apply indexOf_nth in Hi. rewrite Hx in Hi. inversion Hi. reflexivity.
           ++ right. exists i. split; [lia | assumption].
      * rewrite IH. apply Nat.eqb_neq in E. split.
        -- intros [i [Hle Hi]]. exists i. split; [lia | assumption].
        -- intros [i [Hle Hi]]. exists i. split; [| assumption].
           destruct (Nat.eq_dec i index) as [-> | Hne]; [| lia].
           exfalso. pose proof (indexOf_nth _ _ _ Hi) as Hn.
           rewrite Hx in Hn. inversion Hn. subst c.
           rewrite Hj in Hi. inversion Hi. contradiction.
    + exfalso. destruct (indexOf_In x self (nth_error_In _ _ Hx)) as [i Hi].
      rewrite Hi in Hj. discriminate Hj.
Qed.

Lemma keep_first_from_NoDup self index l :
  l = skipn index self -> NoDup (keep_first_from self index l).
Proof.
  revert index. induction l as [|x rest IH]; intros index Hl; [constructor |].
  symmetry in Hl. destruct (skipn_cons_nth self index x rest Hl) as [Hx Hrest].
  symmetry in Hrest. simpl.
  destruct (indexOf x self) as [j|] eqn:Hj; [| apply (IH (S index) Hrest)].
  destruct (j =? index) eqn:E; [| apply (IH (S index) Hrest)].
  apply Nat.eqb_eq in E. subst j. constructor; [| apply (IH (S index) Hrest)].
  intro Hin. apply (keep_first_from_In self (S index) rest x Hrest) in Hin.
  destruct Hin as [i [Hle Hi]]. rewrite Hj in Hi. inversion Hi. lia.
Qed.

Lemma keep_first_NoDup self : NoDup (keep_first self).
Proof. apply keep_first_from_NoDup. reflexivity. Qed.

Lemma keep_first_In self c : In c (keep_first self) <-> In c self.
Proof.
  unfold keep_first. rewrite (keep_first_from_In self 0 self c eq_refl). split.
  - intros [i [_ Hi]]. apply indexOf_nth in Hi. apply (nth_error_In _ _ Hi).
  - intro Hin. destruct (indexOf_In c self Hin) as [i Hi]. exists i. split; [lia | assumption].
Qed.

Lemma keep_first_from_fixed self index l :
  NoDup self -> l = skipn index self -> keep_first_from self index l = l.
Proof.
  intro Hnd. revert index. induction l as [|x rest IH]; intros index Hl; [reflexivity |].
  symmetry in Hl. destruct (skipn_cons_nth self index x rest Hl) as [Hx Hrest].
  symmetry in Hrest. simpl.
  rewrite (indexOf_NoDup x self index Hnd Hx), Nat.eqb_refl, (IH (S index) Hrest).
  reflexivity.
Qed.

Lemma keep_first_fixed self : NoDup self -> keep_first self = self.
Proof. intro Hnd. apply keep_first_from_fixed; [assumption | reflexivity]. Qed.

(** *** Parsing *)

Lemma parse_codes_In content c :
  In c (parse_codes content) <->
  c <> "" /\ exists piece, In piece (split_codes content) /\ trim piece = c.
Proof.
  unfold parse_codes. rewrite keep_first_In, filter_In, in_map_iff, negb_true_iff.
  rewrite String.eqb_neq. split.
  - intros [[piece [E Hp]] Hne]. split; [assumption |]. exists piece. auto.
  - intros [Hne [piece [Hp E]]]. split; [| assumption]. exists piece. auto.
Qed.

Lemma parse_codes_clean content :
  has_duplicate (parse_codes content) = false
  /\ forallb clean_code (parse_codes content) = true.
Proof.
  split.
  - apply has_duplicate_spec. apply keep_first_NoDup.
  - apply forallb_forall. intros c Hc. apply parse_codes_In in Hc.
    destruct Hc as [Hne [piece [Hp <-]]]. unfold clean_code.
    rewrite trim_idempotent, String.eqb_refl.
    rewrite (trim_separator_free piece (split_codes_separator_free content piece Hp)).
    apply String.eqb_neq in Hne. rewrite Hne. reflexivity.
Qed.

Lemma clean_code_spec c :
  clean_code c = true -> c <> "" /\ trim c = c /\ separator_free c = true.
Proof.
  unfold clean_code. rewrite !andb_true_iff, negb_true_iff, String.eqb_neq, String.eqb_eq.
  tauto.
Qed.

Lemma trim_empty : trim "" = "".
Proof. reflexivity. Qed.

Lemma parse_codes_concat sep codes :
  is_separator sep = true ->
  has_duplicate codes = false ->
  forallb clean_code codes = true ->
  parse_codes (String.concat (String sep EmptyString) codes) = codes.
Proof.
  intros Hsep Hdup Hclean. apply has_duplicate_spec in Hdup.
  rewrite forallb_forall in Hclean. unfold parse_codes.
  destruct codes as [|c0 rest0] eqn:Hcodes; [reflexivity |]. rewrite <- Hcodes in *.
  rewrite split_codes_concat; [| assumption | rewrite Hcodes; discriminate |].
  - assert (map trim codes = codes) as Ht.
    { rewrite <- (map_id codes) at 2. apply map_ext_in. intros c Hc.
      apply (clean_code_spec c (Hclean c Hc)). }
    assert (filter (fun c => negb (String.eqb c "")) codes = codes) as Hf.
    { clear Hcodes Ht. induction codes as [|c rest IH]; [reflexivity |]. simpl.
      destruct (clean_code_spec c (Hclean c (or_introl eq_refl))) as [Hne _].
      apply String.eqb_neq in Hne. rewrite Hne. simpl. f_equal. apply IH.
      - inversion Hdup. assumption.
      - intros x Hx. apply Hclean. right. assumption. }
    rewrite Ht, Hf. apply keep_first_fixed. assumption.
  - intros c Hc. apply (clean_code_spec c (Hclean c Hc)).
Qed.

(** X17: the codes read from a file are fit for submission: no code occurs
    twice, none is empty, none has anything left for [trim] to strip, and
    none contains a comma or a line feed. *)
Theorem X17_parsed_codes_are_distinct_and_clean content :
  has_duplicate (parse_codes content) = false
  /\ forallb clean_code (parse_codes content) = true.
Proof. apply parse_codes_clean. Qed.

(** X18: reading a file loses nothing but blanks and repeats: a code is in
    the result exactly when it is not empty and is the trimmed form of one of
    the pieces between commas and line feeds. *)
Theorem X18_parsed_codes_are_the_trimmed_pieces content c :
  In c (parse_codes content) <->
  c <> "" /\ exists piece, In piece (split_codes content) /\ trim piece = c.
Proof. apply parse_codes_In. Qed.

(** X19: writing a list of distinct clean codes to a file, one per line or
    separated by commas, and reading the file gives the list back, in its
    order. *)
Theorem X19_reading_back_a_written_list sep codes :
  is_separator sep = true ->
  has_duplicate codes = false ->
  forallb clean_code codes = true ->
  parse_codes (String.concat (String sep EmptyString) codes) = codes.
Proof. apply parse_codes_concat. Qed.

Lemma X19_witness_three_codes :
  parse_codes (String.concat (String "," EmptyString) ["SAVE10"; "HOLIDAY20"; "BLACK FRIDAY"])
  = ["SAVE10"; "HOLIDAY20"; "BLACK FRIDAY"].
Proof.
  apply (X19_reading_back_a_written_list "," ["SAVE10"; "HOLIDAY20"; "BLACK FRIDAY"]).
  - reflexivity.
  - reflexivity.
  - vm_compute. reflexivity.
Defined.

(** X20: reading is stable: the codes read from a file, written out one per
    line and read again, are the same codes in the same order. *)
Theorem X20_reading_twice_changes_nothing content :
  parse_codes (String.concat (String "010" EmptyString) (parse_codes content))
  = parse_codes content.
Proof.
  destruct (parse_codes_clean content) as [Hdup Hclean].
  apply parse_codes_concat; [reflexivity | assumption | assumption].
Qed.

(** ** From the form to the store *)

Lemma handleGenerateDiscounts_some mid name codes sub :
  handleGenerateDiscounts mid name codes = Some sub ->
  mid <> "" /\ name <> "" /\ codes <> [] /\ sub = mkSubmission mid name codes.
Proof.
  unfold handleGenerateDiscounts.
  destruct (String.eqb mid "") eqn:E1; [discriminate |].
  destruct (String.eqb name "") eqn:E2; [discriminate |].
  destruct codes as [|c rest]; [discriminate |]. simpl.
  intro E. inversion E. apply String.eqb_neq in E1. apply String.eqb_neq in E2.
  repeat split; try assumption. discriminate.
Qed.

(** The rows a resolved submission adds for its set. *)
Lemma create_discounts_new_rows {G} (admin : Gateway G) shop masterDiscountId0
    discountSetName codes db g out g1 :
  sets_wfb db = true ->
  refs_okb db = true ->
  gql_getDiscount admin g (formatMasterDiscountId masterDiscountId0) = (out, g1) ->
  unresolved out = false ->
  violates_shop_code shop codes (discounts db) = false ->
  filter (belongs_to (next_id db))
         (discounts (run_db (create_discounts admin shop masterDiscountId0 discountSetName
                                              codes db g)))
  = new_discounts shop (formatMasterDiscountId masterDiscountId0) (next_id db)
                  (S (next_id db)) codes.
Proof.
  intros Hsets Hrefs Hfetch Hres Hok.
  destruct (resolved_reply out Hres) as [body [dd [md [-> [Herr [Hdata Hmd]]]]]].
  unfold create_discounts. rewrite Hfetch, Herr, Hdata, Hmd, Hok. simpl.
  apply sets_wfb_spec in Hsets. destruct Hsets as [_ Hlt].
  rewrite filter_app, new_discounts_belong, filter_none; [reflexivity |].
  intros r0 Hr0. unfold belongs_to.
  destruct (discountSetId r0) as [s|] eqn:Es; [| reflexivity].
  apply Nat.eqb_neq. intro E. subst s.
  destruct ((proj1 (refs_okb_spec db) Hrefs) r0 Hr0 (next_id db) Es) as [s [Hs [Hid _]]].
  specialize (Hlt s Hs). lia.
Qed.

Lemma new_discounts_pending_rows shop ref setId first codes :
  map (fun row => (code row, status row, shopifyId row, errorMessage row))
      (new_discounts shop ref setId first codes)
  = map (fun c => (c, PENDING, None, None)) codes.
Proof.
  revert first. induction codes as [|c rest IH]; intro first; [reflexivity |].
  simpl. rewrite IH. reflexivity.
Qed.

(** X21: what the form submits from a file goes through whole whenever the
    master discount resolves and the shop has none of the codes yet: the form
    only submits a non-empty list with an id and a name, the codes it read
    never clash with each other, and the handler queues one PENDING row per
    code read, in the order read: the rows of the new set are, in order, the
    codes read, each PENDING with no remote id and no error message, and the
    PENDING count of the set is the number of codes read. *)
Theorem X21_a_file_of_new_codes_is_queued_whole {G} (admin : Gateway G) shop
    masterDiscountId0 discountSetName content db g out g1 sub :
  handleGenerateDiscounts masterDiscountId0 discountSetName (parse_codes content) = Some sub ->
  sets_wfb db = true ->
  refs_okb db = true ->
  gql_getDiscount admin g (formatMasterDiscountId masterDiscountId0) = (out, g1) ->
  unresolved out = false ->
  (forall r, In r (discounts db) -> d_shop r = shop -> ~ In (code r) (parse_codes content)) ->
  let r := create_discounts admin shop (sub_masterDiscountId sub) (sub_discountSetName sub)
                            (sub_codes sub) db g in
  masterDiscountId0 <> "" /\ discountSetName <> ""
  /\ 0 < List.length (parse_codes content)
  /\ run_result r
     = CreateResult ("Queued " ++ string_of_nat (List.length (parse_codes content))
                     ++ " discount codes. Processing will begin automatically...")
                    (next_id db) (List.length (parse_codes content)) true
  /\ map code (filter (belongs_to (next_id db)) (discounts (run_db r))) = parse_codes content
  /\ map (fun row => (code row, status row, shopifyId row, errorMessage row))
         (filter (belongs_to (next_id db)) (discounts (run_db r)))
     = map (fun c => (c, PENDING, None, None)) (parse_codes content)
  /\ count_status (next_id db) PENDING (discounts (run_db r))
     = List.length (parse_codes content).
Proof.
  intros Hsub Hsets Hrefs Hfetch Hres Hfresh r.
  destruct (handleGenerateDiscounts_some _ _ _ _ Hsub) as [Hmid [Hname [Hne Hs]]].
  subst sub. simpl in r.
  assert (violates_shop_code shop (parse_codes content) (discounts db) = false) as Hok.
  { apply violates_shop_code_spec. split; [| exact Hfresh].
    apply has_duplicate_spec. apply parse_codes_clean. }
  destruct (create_discounts_persists admin shop masterDiscountId0 discountSetName
              (parse_codes content) db g out g1 Hsets Hrefs Hfetch Hres Hok)
    as [Hresult [_ [Hcodes Hpending]]].
  pose proof (create_discounts_new_rows admin shop masterDiscountId0 discountSetName
                (parse_codes content) db g out g1 Hsets Hrefs Hfetch Hres Hok) as Hrows.
  split; [assumption |]. split; [assumption |]. split.
  { destruct (parse_codes content); [contradiction Hne; reflexivity | simpl; lia]. }
  split; [exact Hresult |]. split; [exact Hcodes |]. split; [| exact Hpending].
  unfold r. rewrite Hrows. apply new_discounts_pending_rows.
Qed.

Lemma X21_witness_sample_file :
  let r := create_discounts Sample.shopify "flowers.myshopify.com" "1" "From a file"
                            (parse_codes Sample2.csv_text) Sample.empty_store 0 in
  "1" <> "" /\ "From a file" <> ""
  /\ 0 < List.length (parse_codes Sample2.csv_text)
  /\ run_result r
     = CreateResult ("Queued " ++ string_of_nat (List.length (parse_codes Sample2.csv_text))
                     ++ " discount codes. Processing will begin automatically...")
                    0 (List.length (parse_codes Sample2.csv_text)) true
  /\ map code (filter (belongs_to 0) (discounts (run_db r))) = parse_codes Sample2.csv_text
  /\ map (fun row => (code row, status row, shopifyId row, errorMessage row))
         (filter (belongs_to 0) (discounts (run_db r)))
     = map (fun c => (c, PENDING, None, None)) (parse_codes Sample2.csv_text)
  /\ count_status 0 PENDING (discounts (run_db r))
     = List.length (parse_codes Sample2.csv_text).
Proof.
  apply (X21_a_file_of_new_codes_is_queued_whole Sample.shopify "flowers.myshopify.com" "1"
           "From a file" Sample2.csv_text Sample.empty_store 0
           (Json (Sample.found (BasicDiscount Sample.ten_percent))) 0
           (mkSubmission "1" "From a file" (parse_codes Sample2.csv_text))).
  - vm_compute. reflexivity.
  - reflexivity.
  - reflexivity.
  - vm_compute. reflexivity.
  - reflexivity.
  - intros r Hr. simpl in Hr. contradiction.
Defined.

(** ** Sets that are not there *)

(** X22: deleting a set that does not exist, in a store where every row that
    names a set names an existing one, is an error that changes nothing and
    makes no remote call. *)
Theorem X22_deleting_an_unknown_set {G} (admin : Admin G) sid db g :
  findSet sid db = None ->
  refs_okb db = true ->
  delete_discount_set admin sid db g
  = mkDeleteRun (DeleteError record_to_delete_missing) db g [].
Proof.
  intros Hnone Hrefs. unfold delete_discount_set.
  assert (filter (belongs_to sid) (discounts db) = []) as Hrows.
  { apply filter_none. intros r Hr.
    destruct (belongs_to sid r) eqn:E; [| reflexivity]. exfalso.
    apply belongs_to_spec in E.
    destruct ((proj1 (refs_okb_spec db) Hrefs) r Hr sid E) as [s [Hs [Hid _]]].
    unfold findSet in Hnone. pose proof (find_none _ _ Hnone s Hs) as Hf. simpl in Hf.
    rewrite Hid, Nat.eqb_refl in Hf. discriminate Hf. }
  rewrite Hrows, Hnone. reflexivity.
Qed.

Lemma X22_witness_unknown_set :
  delete_discount_set Sample2.deletes 5 Sample.mixed_after_one 2
  = mkDeleteRun (DeleteError record_to_delete_missing) Sample.mixed_after_one 2 [].
Proof.
  apply (X22_deleting_an_unknown_set Sample2.deletes 5 Sample.mixed_after_one 2).
  - vm_compute. reflexivity.
  - vm_compute. reflexivity.
Defined.

(** ** Accounting *)

(** X23: every [process_pending] call that returns a report accounts for the
    PENDING rows it found: the records it reports as processed and the rows
    it reports as remaining add up to the PENDING rows of the set before the
    call. *)
Theorem X23_processed_plus_remaining {G} (admin : Gateway G) sid db g
    complete message processed remaining :
  store_wf db ->
  run_result (process_pending admin sid db g)
  = ProcessResult complete message processed remaining ->
  processed + remaining = count_status sid PENDING (discounts db).
Proof.
  intros Hwf. unfold process_pending.
  destruct (findSet sid db) as [discountSet|]; [| discriminate].
  destruct (findPending sid (discounts db)) as [|rec rest] eqn:Hp.
  - simpl. intro E. inversion E; subst. rewrite (findPending_nil_count _ _ Hp). reflexivity.
  - destruct (gql_getDiscount admin g (ds_masterDiscountId discountSet)) as [[e | body] g1];
      [discriminate |].
    destruct (response_discount body) as [[|m]|]; [discriminate | | discriminate].
    apply store_wf_spec in Hwf. destruct Hwf as [Hnd _].
    pose proof (process_items_pending_count admin m (buildItemSelection m)
                  (buildCustomerContext m) sid (findPending sid (discounts db))
                  (mkLoop (discounts db) g1 0 []) Hnd (findPending_NoDup sid _ Hnd)) as Hcount.
    pose proof (process_items_count admin m (buildItemSelection m) (buildCustomerContext m)
                  (findPending sid (discounts db)) (mkLoop (discounts db) g1 0 [])) as Hproc.
    rewrite Hp in Hcount, Hproc.
    destruct (process_items admin m (buildItemSelection m) (buildCustomerContext m)
                (rec :: rest) (mkLoop (discounts db) g1 0 [])) as [[e|] st];
      [discriminate |].
    simpl in Hcount, Hproc |- *. intro E. inversion E; subst.
    rewrite (Hproc eq_refl). rewrite <- Hcount; [simpl; lia |].
    intros c Hc.
    assert (In c (findPending sid (discounts db))) as Hc' by (rewrite Hp; exact Hc).
    apply findPending_incl in Hc'.
    split; [tauto | apply in_set_with_spec; tauto].
Qed.

Lemma X23_witness_mixed_set :
  5 + 2 = count_status 0 PENDING (discounts Sample.mixed_submitted).
Proof.
  apply (X23_processed_plus_remaining Sample.shopify 0 Sample.mixed_submitted 0
           false "Processed 5 discounts. 2 remaining..." 5 2).
  - vm_compute. reflexivity.
  - vm_compute. reflexivity.
Defined.
